(** * gocs: request encoding, timestamp normalisation and transport pipeline

    A shallow embedding of the core of the gocs client library
    (common.go, intel.go, the host API file and the legacy combined
    client cs.go), followed by the properties established about it.

    Conventions of the embedding:
    - Go [string] is [string]; Go [int]/[int64] is [Z] (the only arithmetic
      the code performs on them is comparison with zero and decimal
      printing; where the runtime wraps, the wrap is written out);
    - a slice is a [list]; a nil pointer is [None];
    - [url.Values] (a [map[string][]string]) is a [gmap string (list string)];
    - a function that mutates its argument returns the mutated value next
      to its result;
    - logging, transport calls and operations on the response body are
      recorded in an event trace. *)

From stdpp Require Import gmap strings list fin_maps pretty sorting.
From Stdlib Require Import ZArith QArith Qround Lia.
From Stdlib Require Import Floats.SpecFloat.

Local Open Scope Z_scope.

(** ** Go runtime: 64-bit integers, [strconv], [time] *)

Module GoInt.

(** Two's-complement wrap-around of a mathematical integer to [int64]. *)
Definition wrap64 (z : Z) : Z := (z + 2 ^ 63) mod 2 ^ 64 - 2 ^ 63.

Definition in_int64 (z : Z) : Prop := - 2 ^ 63 <= z < 2 ^ 63.

Definition in_int64b (z : Z) : bool := (- 2 ^ 63 <=? z) && (z <? 2 ^ 63).

(** [strconv.Itoa] and [strconv.FormatInt(_, 10)]: decimal digits with a
    leading minus sign for negative numbers. *)
Definition Itoa (n : Z) : string := pretty n.

Definition FormatInt10 (n : Z) : string := pretty n.

End GoInt.

Module GoTime.
Import GoInt.

(** [time.Location], as far as formatting needs it: the zone offset in
    seconds east of UTC. The offset of [time.Local] depends on the host
    and on the instant, and is a parameter of [Format]. *)
Inductive Location : Type :=
| UTC
| Local
| FixedZone (name : string) (offset : Z).

(** [time.Time] without a monotonic reading: seconds since
    January 1, year 1 00:00:00 UTC, nanoseconds within the second, and
    the location used for presentation. *)
Record Time : Type := mkTime {
  sec : Z;
  nsec : Z;
  loc : Location
}.

(** Seconds from year 1 to 1970:
    [(1969*365 + 1969/4 - 1969/100 + 1969/400) * 86400]. *)
Definition unixToInternal : Z :=
  (1969 * 365 + 1969 / 4 - 1969 / 100 + 1969 / 400) * 86400.

Definition internalToUnix : Z := - unixToInternal.

(** The zero value of [time.Time]. *)
Definition zeroTime : Time := {| sec := 0; nsec := 0; loc := UTC |}.

Definition IsZero (t : Time) : bool := (sec t =? 0) && (nsec t =? 0).

Definition Unix (t : Time) : Z := wrap64 (sec t + internalToUnix).

(** [time.Unix(sec, nsec)]: the local [Time] of the given Unix instant;
    [nsec] outside [0, 999999999] is carried into the seconds. *)
Definition time_Unix (s n : Z) : Time :=
  let '(s, n) :=
    if (n <? 0) || (1000000000 <=? n) then
      let q := Z.quot n 1000000000 in
      let s := wrap64 (s + q) in
      let n := n - q * 1000000000 in
      if n <? 0 then (wrap64 (s - 1), n + 1000000000) else (s, n)
    else (s, n) in
  {| sec := wrap64 (s + unixToInternal); nsec := n; loc := Local |}.

(** [appendInt]: decimal with a minus sign and zero padding to [width]. *)
Definition pad_left (width : nat) (s : string) : string :=
  String.concat ""%string (replicate (width - String.length s) "0"%string) +:+ s.

Definition appendInt (x : Z) (width : nat) : string :=
  if x <? 0 then "-" +:+ pad_left width (pretty (- x))
  else pad_left width (pretty x).

(** Proleptic Gregorian date of a day count relative to 1970-01-01. *)
Definition civil_of_days (days : Z) : Z * Z * Z :=
  let z := days + 719468 in
  let era := z / 146097 in
  let doe := z - era * 146097 in
  let yoe := (doe - doe / 1460 + doe / 36524 - doe / 146096) / 365 in
  let doy := doe - (365 * yoe + yoe / 4 - yoe / 100) in
  let mp := (5 * doy + 2) / 153 in
  let d := doy - (153 * mp + 2) / 5 + 1 in
  let m := if mp <? 10 then mp + 3 else mp - 9 in
  let y := yoe + era * 400 + (if m <=? 2 then 1 else 0) in
  (y, m, d).

Section Format.
(** Offset of the host's local zone at a Unix instant. *)
Variable localOffset : Z -> Z.

Definition offset_of (t : Time) : Z :=
  match loc t with
  | UTC => 0
  | Local => localOffset (Unix t)
  | FixedZone _ o => o
  end.

(** [t.Format(time.RFC3339)], layout ["2006-01-02T15:04:05Z07:00"]. *)
Definition Format_RFC3339 (t : Time) : string :=
  let offset := offset_of t in
  let abs := Unix t + offset in
  let '(y, m, d) := civil_of_days (abs / 86400) in
  let sod := abs mod 86400 in
  let zone :=
    if offset =? 0 then "Z"%string
    else
      let z := Z.quot offset 60 in
      let sign : string := if z <? 0 then "-" else "+" in
      let z := Z.abs z in
      sign +:+ appendInt (Z.quot z 60) 2 +:+ ":" +:+ appendInt (Z.rem z 60) 2 in
  appendInt y 4 +:+ "-" +:+ appendInt m 2 +:+ "-" +:+ appendInt d 2 +:+ "T"
  +:+ appendInt (sod / 3600) 2 +:+ ":" +:+ appendInt (sod mod 3600 / 60) 2
  +:+ ":" +:+ appendInt (sod mod 60) 2 +:+ zone.
End Format.

End GoTime.

Module GoFloat.
Import GoInt.

(** A [float64] is an IEEE 754 binary64 datum, here in the
    representation of the standard library's [spec_float]:
    [S754_finite s m e] is [(-1)^s * m * 2^e]. *)
Abbreviation float64 := spec_float.

(** The rational number a finite float denotes (zero for the others). *)
Definition Q_of_float (f : float64) : Q :=
  match f with
  | S754_finite s m e =>
      let mag : Q :=
        if 0 <=? e then (Z.pos m * 2 ^ e) # 1
        else Z.pos m # (2 ^ Z.to_pos (- e)) in
      if s then Qopp mag else mag
  | _ => 0%Q
  end.

(** The integer part of a float, the fraction discarded: the
    conversion rule of the language for a float converted to an integer
    type. [None] for NaN and the infinities. *)
Definition discard_fraction (f : float64) : option Z :=
  match f with
  | S754_zero _ => Some 0
  | S754_finite s m e =>
      let mag := if 0 <=? e then Z.pos m * 2 ^ e else Z.pos m / 2 ^ (- e) in
      Some (if s then - mag else mag)
  | S754_infinity _ | S754_nan => None
  end.

Section Conversion.
(** The result of [int64(f)] when [f] is NaN, infinite or beyond the
    range of [int64]: the conversion succeeds with a value that
    depends on the platform. *)
Variable unrepresentable : float64 -> Z.

(** The conversion [int64(f)]. *)
Definition int64_of_float64 (f : float64) : Z :=
  match discard_fraction f with
  | Some z => if in_int64b z then z else unrepresentable f
  | None => unrepresentable f
  end.
End Conversion.

End GoFloat.

(** ** common.go: the query-parameter multi-map and its encoders *)

Module Params.
Import GoInt GoTime.

(** [url.Values]. *)
Abbreviation Values := (gmap string (list string)).

(** [v[key]]: the values under a key, nil when the key is absent. *)
Definition Values_at (key : string) (v : Values) : list string :=
  default [] (v !! key).

(** [Values.Add]: [v[key] = append(v[key], value)]. *)
Definition Values_Add (key value : string) (v : Values) : Values :=
  <[key := Values_at key v ++ [value]]> v.

Record SortField : Type := mkSortField {
  Name : string;
  Ascending : bool
}.

(** Paging control, embedded in the actor and IOC search requests. *)
Record Paging : Type := mkPaging {
  Offset : Z;
  Limit : Z
}.

Definition addString (name val : string) (params : Values) : Values :=
  if decide (val = "") then params else Values_Add name val params.

Definition addTime (name : string) (t : option Time) (params : Values) : Values :=
  match t with
  | Some t =>
      if negb (IsZero t) then Values_Add name (FormatInt10 (Unix t)) params
      else params
  | None => params
  end.

Definition addStringArr (name : string) (val : list string) (params : Values) : Values :=
  foldl (fun params v => addString name v params) params val.

(** The value built for one sort field by the loop body of
    [addSortFields]. *)
Definition sortValue (sf : SortField) : string :=
  let val := Name sf +:+ "." in
  if Ascending sf then val +:+ "asc" else val +:+ "desc".

Definition addSortFields (name : string) (sortFields : list SortField)
    (params : Values) : Values :=
  foldl (fun params sf => addString name (sortValue sf) params) params sortFields.

Definition addInt (name : string) (val : Z) (params : Values) : Values :=
  addString name (Itoa val) params.

(** host API file: [addRFCTime]. *)
Definition addRFCTime (localOffset : Z -> Z) (name : string) (t : option Time)
    (params : Values) : Values :=
  match t with
  | Some t => Values_Add name (Format_RFC3339 localOffset t) params
  | None => params
  end.

End Params.

(** ** The collaborators of the transport: [net/http], [httputil], [io] *)

Module GoHTTP.
Import Params.

(** An error value produced outside this library: by [net/url],
    [net/http], [encoding/json], [io] or the caller's sink. Such a value
    is never one of the library's own [*Error] values. *)
Record foreign : Type := mkForeign {
  pkg : string;
  text : string
}.

(** The bytes of an HTTP token: letters, digits and a few marks. *)
Definition isTokenByte (c : Ascii.ascii) : bool :=
  let n := Ascii.nat_of_ascii c in
  ((48 <=? n) && (n <=? 57) || (65 <=? n) && (n <=? 90)
   || (97 <=? n) && (n <=? 122))%nat
  || bool_decide (c ∈ String.list_ascii_of_string "!#$%&'*+-.^_`|~").

(** [textproto.CanonicalMIMEHeaderKey]: the first letter and the letters
    after a hyphen in upper case, the others in lower case; a key that is
    not a token is returned as it is. *)
Definition CanonicalMIMEHeaderKey (s : string) : string :=
  let cs := String.list_ascii_of_string s in
  if forallb isTokenByte cs then
    String.string_of_list_ascii
      (snd (foldl (fun '(upper, acc) c =>
               let n := Ascii.nat_of_ascii c in
               let c' :=
                 if upper && (97 <=? n)%nat && (n <=? 122)%nat
                 then Ascii.ascii_of_nat (n - 32)
                 else if negb upper && (65 <=? n)%nat && (n <=? 90)%nat
                 then Ascii.ascii_of_nat (n + 32)
                 else c in
               (bool_decide (Ascii.nat_of_ascii c' = 45%nat), acc ++ [c']))
             (true, []) cs))
  else s.

Abbreviation Header := (gmap string (list string)).

(** [http.Header.Set] stores under the canonical form of the key. *)
Definition Header_Set (key value : string) (h : Header) : Header :=
  <[CanonicalMIMEHeaderKey key := [value]]> h.

Record Request : Type := mkRequest {
  Method : string;
  URL : string;
  ReqHeader : Header;
  ReqBody : option string
}.

Definition Request_Header_Set (key value : string) (req : Request) : Request :=
  mkRequest (Method req) (URL req) (Header_Set key value (ReqHeader req)) (ReqBody req).

(** A response body is a stream: the chunks successive reads deliver,
    then end of file or a read error, which stays once met. The body
    handed over by the transport is either a stream of its own or the
    [http.NoBody] sentinel of a response without content (which has no
    chunks); both are distinguished from the in-memory copy
    [httputil.DumpResponse] leaves in the place of a stream. *)
Inductive BodyKind : Type := FromTransport | NoBody | InMemory.

Record Body : Type := mkBody {
  kind : BodyKind;
  chunks : list string;
  readErr : option foreign
}.

(** The client and transport of [net/http] guarantee a response a
    non-nil body, so the field is not optional. *)
Record Response : Type := mkResponse {
  StatusCode : Z;
  RespHeader : Header;
  RespBody : Body
}.

Definition with_Body (b : Body) (resp : Response) : Response :=
  mkResponse (StatusCode resp) (RespHeader resp) b.

(** [*http.Client], through its [Do] method. *)
Definition HTTPClient : Type := Request -> foreign + Response.

(** [*log.Logger], by the name of its sink. *)
Definition Logger : Type := string.

(** What is handed to a logger. Dumps and the timestamps of the trace
    lines are kept symbolic. *)
Inductive LogMsg : Type :=
| Text (s : string)
| RequestDump (req : Request)
| ResponseDump (status : Z) (body : string)
| StartRequest (rawurl : string)
| EndRequest (rawurl : string).

Inductive ReadExtent : Type := ToEnd | Partial.

(** The observable actions of a call, in order. [BodyRead] and
    [BodyClose] are reads of and [Close] calls on the body handed over by
    the transport. *)
Inductive Event : Type :=
| ErrorLog (l : Logger) (m : LogMsg)
| TraceLog (l : Logger) (m : LogMsg)
| Transport (req : Request)
| BodyRead (extent : ReadExtent)
| BodyClose
| JSONDecode.

(** Computations that leave a trace. *)
Definition Eff (A : Type) : Type := list Event * A.

Definition ret {A} (a : A) : Eff A := ([], a).

Definition bind {A B} (m : Eff A) (k : A -> Eff B) : Eff B :=
  let '(t1, a) := m in
  let '(t2, b) := k a in
  (t1 ++ t2, b).

Definition emit (e : Event) : Eff unit := ([e], tt).

Definition trace {A} (m : Eff A) : list Event := fst m.
Definition value {A} (m : Eff A) : A := snd m.

#[export] Instance Eff_ret : MRet Eff := @ret.
#[export] Instance Eff_bind : MBind Eff := fun A B k m => bind m k.

Definition is_transport_close (e : Event) : bool :=
  match e with BodyClose => true | _ => false end.

Definition is_transport_call (e : Event) : bool :=
  match e with Transport _ => true | _ => false end.

Definition is_body_read (e : Event) : bool :=
  match e with BodyRead _ => true | _ => false end.

Definition is_json_decode (e : Event) : bool :=
  match e with JSONDecode => true | _ => false end.

Definition count (p : Event -> bool) (t : list Event) : nat :=
  length (List.filter p t).

(** *** Operations on a body *)

Definition Body_Close (b : Body) : Eff unit :=
  match kind b with
  | FromTransport | NoBody => emit BodyClose
  | InMemory => ret tt
  end.

Definition note_read (b : Body) (x : ReadExtent) : Eff unit :=
  match kind b with
  | FromTransport | NoBody => emit (BodyRead x)
  | InMemory => ret tt
  end.

Definition exhausted (b : Body) : Body := mkBody (kind b) [] (readErr b).

Definition Body_bytes (b : Body) : string := foldr String.append ""%string (chunks b).

(** Reading a body to its end: the bytes, the error that ended the
    reading if any, and the body left. *)
Definition read_to_end (b : Body) : Eff (string * option foreign * Body) :=
  _ ← note_read b ToEnd ;
  ret (Body_bytes b, readErr b, exhausted b).

(** [drainBody] of [httputil]: reads the body to its end into a buffer,
    calls [Close] on it and returns an in-memory reader over the same
    bytes; on a read error the body is returned as it is left. The
    [http.NoBody] sentinel is returned untouched. *)
Definition drainBody (b : Body) : Eff (foreign * Body + Body) :=
  match kind b with
  | NoBody => ret (inr b)
  | FromTransport | InMemory =>
      r ← read_to_end b ;
      let '(data, err, b') := r in
      match err with
      | Some e => ret (inl (e, b'))
      | None =>
          _ ← Body_Close b' ;
          ret (inr (mkBody InMemory (if decide (data = ""%string) then [] else [data]) None))
      end
  end.

(** [httputil.DumpResponse(resp, true)]: drains the body with [drainBody]
    and leaves the in-memory reader in [resp.Body]; the dump, or the read
    error. *)
Definition DumpResponse (resp : Response) : Eff (Response * (foreign + LogMsg)) :=
  r ← drainBody (RespBody resp) ;
  match r with
  | inl (e, b') => ret (with_Body b' resp, inl e)
  | inr copy => ret (with_Body copy resp, inr (ResponseDump (StatusCode resp) (Body_bytes copy)))
  end.

(** [io.Writer]: the sink after a write, and the error of the write. *)
Class Writer (W : Type) : Type := {
  Write : W -> string -> W * option foreign;
  Bytes : W -> string
}.

(** A sink that keeps what it is given, as [bytes.Buffer] does. *)
Class WriterAppends (W : Type) `{Writer W} : Prop :=
  write_appends : forall (w w' : W) (p : string),
    Write w p = (w', None) -> Bytes w' = (Bytes w +:+ p)%string.

#[export] Instance Buffer_Writer : Writer string :=
  {| Write := fun b p => ((b +:+ p)%string, None); Bytes := fun b => b |}.

(** The copy loop of [io.Copy]: each non-empty chunk read is written;
    a failed write ends the loop. *)
Fixpoint copy_chunks {W} `{Writer W} (dst : W) (cs : list string)
    : W * option foreign * list string :=
  match cs with
  | [] => (dst, None, [])
  | c :: cs' =>
      if decide (c = ""%string) then copy_chunks dst cs'
      else
        match Write dst c with
        | (dst', Some e) => (dst', Some e, cs')
        | (dst', None) => copy_chunks dst' cs'
        end
  end.

Definition io_Copy {W} `{Writer W} (dst : W) (src : Body)
    : Eff (W * option foreign * Body) :=
  match copy_chunks dst (chunks src) with
  | (dst', Some e, rest) =>
      _ ← note_read src Partial ;
      ret (dst', Some e, mkBody (kind src) rest (readErr src))
  | (dst', None, _) =>
      _ ← note_read src ToEnd ;
      ret (dst', readErr src, exhausted src)
  end.

End GoHTTP.

(** ** intel.go: request structures and their encoders *)

Module Intel.
Import GoInt GoTime Params.

Definition DefaultURL : string := "https://intelapi.crowdstrike.com/".
Definition AuthHeaderID : string := "X-CSIX-CUSTID".
Definition AuthHeaderKey : string := "X-CSIX-CUSTKEY".
Definition AllFields : string := "__full__".
Definition BasicFields : string := "__basic__".

Module ActorRequest.
Record t : Type := mk {
  Q : string;
  Name : string;
  Description : string;
  MinLastModifiedDate : option Time;
  MaxLastModifieldDate : option Time;
  MinLastActivityDate : option Time;
  MaxLastActivityDate : option Time;
  Origins : list string;
  TargetCountries : list string;
  TargetIndustries : list string;
  Motivations : list string;
  Fields : list string;
  SortFields : list SortField;
  Paging : Params.Paging
}.

Definition with_Limit (l : Z) (r : t) : t :=
  mk (Q r) (Name r) (Description r) (MinLastModifiedDate r)
     (MaxLastModifieldDate r) (MinLastActivityDate r) (MaxLastActivityDate r)
     (Origins r) (TargetCountries r) (TargetIndustries r) (Motivations r)
     (Fields r) (SortFields r) (mkPaging (Offset (Paging r)) l).

Definition with_Fields (f : list string) (r : t) : t :=
  mk (Q r) (Name r) (Description r) (MinLastModifiedDate r)
     (MaxLastModifieldDate r) (MinLastActivityDate r) (MaxLastActivityDate r)
     (Origins r) (TargetCountries r) (TargetIndustries r) (Motivations r)
     f (SortFields r) (Paging r).
End ActorRequest.

Module IndicatorRequest.
Record t : Type := mk {
  Parameter_ : string;   (* [Parameter] in the source *)
  Filter : string;
  Value : string;
  Sort : option SortField;
  Page : Z;
  PerPage : Z
}.

Definition with_Page (p : Z) (r : t) : t :=
  mk (Parameter_ r) (Filter r) (Value r) (Sort r) p (PerPage r).

Definition with_PerPage (p : Z) (r : t) : t :=
  mk (Parameter_ r) (Filter r) (Value r) (Sort r) (Page r) p.
End IndicatorRequest.

(** [actorRequestToParams]: the request after the in-place defaulting,
    and the parameters. The ["motivations"] line occurs twice in the
    source and is kept twice. *)
Definition actorRequestToParams (req : ActorRequest.t) : ActorRequest.t * Values :=
  let req :=
    if Limit (ActorRequest.Paging req) =? 0
    then ActorRequest.with_Limit 10 req else req in
  let req :=
    if (length (ActorRequest.Fields req) =? 0)%nat
    then ActorRequest.with_Fields (ActorRequest.Fields req ++ [BasicFields]) req
    else req in
  let params : Values := ∅ in
  let params := addString "q" (ActorRequest.Q req) params in
  let params := addString "name" (ActorRequest.Name req) params in
  let params := addString "description" (ActorRequest.Description req) params in
  let params := addTime "min_last_modified_date" (ActorRequest.MinLastModifiedDate req) params in
  let params := addTime "max_last_modified_date" (ActorRequest.MaxLastModifieldDate req) params in
  let params := addTime "min_last_activity_date" (ActorRequest.MinLastActivityDate req) params in
  let params := addTime "max_last_activity_date" (ActorRequest.MaxLastActivityDate req) params in
  let params := addStringArr "origins" (ActorRequest.Origins req) params in
  let params := addStringArr "target_countries" (ActorRequest.TargetCountries req) params in
  let params := addStringArr "target_industries" (ActorRequest.TargetIndustries req) params in
  let params := addStringArr "motivations" (ActorRequest.Motivations req) params in
  let params := addStringArr "motivations" (ActorRequest.Motivations req) params in
  let params := addStringArr "fields" (ActorRequest.Fields req) params in
  let params := addSortFields "sort" (ActorRequest.SortFields req) params in
  let params := addInt "offset" (Offset (ActorRequest.Paging req)) params in
  let params := addInt "limit" (Limit (ActorRequest.Paging req)) params in
  (req, params).

(** [indicatorRequestToParams]. *)
Definition indicatorRequestToParams (req : IndicatorRequest.t)
    : IndicatorRequest.t * Values :=
  let params : Values := {[ IndicatorRequest.Filter req := [IndicatorRequest.Value req] ]} in
  let params :=
    match IndicatorRequest.Sort req with
    | Some sort =>
        let order : string := if Ascending sort then "asc" else "desc" in
        let params := Values_Add "sort" (Name sort) params in
        Values_Add "order" order params
    | None => params
    end in
  let req :=
    if IndicatorRequest.Page req =? 0 then IndicatorRequest.with_Page 1 req else req in
  let req :=
    if IndicatorRequest.PerPage req =? 0 then IndicatorRequest.with_PerPage 10 req else req in
  let params := Values_Add "page" (Itoa (IndicatorRequest.Page req)) params in
  let params := Values_Add "perPage" (Itoa (IndicatorRequest.PerPage req)) params in
  (req, params).

(** *** Response structures and the timestamp normaliser *)

Record Slugable : Type := mkSlugable {
  Slugable_ID : Z;
  Slugable_Value : string;
  Slugable_Slug : string
}.

Module Resource.
Record t : Type := mk {
  ID : Z;
  Name : string;
  ShortDescription : string;
  KnownAs : string;
  CreatedDate : Time;
  CreatedEpoch : GoFloat.float64;
  TargetIndustries : list Slugable;
  LastModifiedDate : Time;
  LastModifiedEpoch : GoFloat.float64;
  TargetCountries : list Slugable;
  FirstActivityDate : Time;
  FirstActivityEpoch : GoFloat.float64;
  LastActivityDate : Time;
  LastActivityEpoch : GoFloat.float64;
  URL : string;
  Motivations : list Slugable;
  Origins : list Slugable;
  Slug : string
}.
End Resource.

Module Relation.
Record t : Type := mk {
  Indicator : string;
  Type_ : string;        (* [Type] in the source *)
  CreatedDateEpoch : GoFloat.float64;
  CreatedDate : Time;
  LastValidDateEpoch : GoFloat.float64;
  LastValidDate : Time
}.
End Relation.

Module Label.
Record t : Type := mk {
  Name : string;
  CreatedOnEpoch : GoFloat.float64;
  CreatedOn : Time;
  LastValidOnEpoch : GoFloat.float64;
  LastValidOn : Time
}.
End Label.

Module IndicatorResponse.
Record t : Type := mk {
  Indicator : string;
  Type_ : string;        (* [Type] in the source *)
  LastUpdatedEpoch : GoFloat.float64;
  LastUpdated : Time;
  PublishedDateEpoch : GoFloat.float64;
  PublishedDate : Time;
  MaliciousConfidence : string;
  Reports : list string;
  Actors : list string;
  MalwareFamilies : list string;
  KillChains : list string;
  DomainTypes : list string;
  IPAddressTypes : list string;
  Relations : list Relation.t;
  Labels : list Label.t
}.
End IndicatorResponse.

Module ActorResponse.
Record t : Type := mk {
  Meta_Paging_Total : Z;
  Meta_Paging_Offset : Z;
  Meta_Paging_Limit : Z;
  QueryTime : GoFloat.float64;
  Resources : list Resource.t
}.

Definition zero : t := mk 0 0 0 (S754_zero false) [].
End ActorResponse.

Section Normaliser.
Variable unrepresentable : GoFloat.float64 -> Z.

(** [time.Unix(int64(epoch), 0)]. *)
Definition date_of_epoch (epoch : GoFloat.float64) : Time :=
  time_Unix (GoFloat.int64_of_float64 unrepresentable epoch) 0.

(** [Resource.convertDates]: four assignments, the second and the
    fourth both to [LastActivityDate]; [LastModifiedDate] is not
    assigned. *)
Definition Resource_convertDates (r : Resource.t) : Resource.t :=
  let CreatedDate := date_of_epoch (Resource.CreatedEpoch r) in
  let LastActivityDate := date_of_epoch (Resource.LastActivityEpoch r) in
  let FirstActivityDate := date_of_epoch (Resource.FirstActivityEpoch r) in
  let LastActivityDate := date_of_epoch (Resource.LastActivityEpoch r) in
  Resource.mk (Resource.ID r) (Resource.Name r) (Resource.ShortDescription r)
    (Resource.KnownAs r) CreatedDate (Resource.CreatedEpoch r)
    (Resource.TargetIndustries r) (Resource.LastModifiedDate r)
    (Resource.LastModifiedEpoch r) (Resource.TargetCountries r)
    FirstActivityDate (Resource.FirstActivityEpoch r)
    LastActivityDate (Resource.LastActivityEpoch r)
    (Resource.URL r) (Resource.Motivations r) (Resource.Origins r)
    (Resource.Slug r).

Definition Relation_convertDates (r : Relation.t) : Relation.t :=
  Relation.mk (Relation.Indicator r) (Relation.Type_ r)
    (Relation.CreatedDateEpoch r) (date_of_epoch (Relation.CreatedDateEpoch r))
    (Relation.LastValidDateEpoch r) (date_of_epoch (Relation.LastValidDateEpoch r)).

Definition Label_convertDates (l : Label.t) : Label.t :=
  Label.mk (Label.Name l)
    (Label.CreatedOnEpoch l) (date_of_epoch (Label.CreatedOnEpoch l))
    (Label.LastValidOnEpoch l) (date_of_epoch (Label.LastValidOnEpoch l)).

Definition IndicatorResponse_convertDates (ir : IndicatorResponse.t)
    : IndicatorResponse.t :=
  IndicatorResponse.mk (IndicatorResponse.Indicator ir) (IndicatorResponse.Type_ ir)
    (IndicatorResponse.LastUpdatedEpoch ir)
    (date_of_epoch (IndicatorResponse.LastUpdatedEpoch ir))
    (IndicatorResponse.PublishedDateEpoch ir)
    (date_of_epoch (IndicatorResponse.PublishedDateEpoch ir))
    (IndicatorResponse.MaliciousConfidence ir) (IndicatorResponse.Reports ir)
    (IndicatorResponse.Actors ir) (IndicatorResponse.MalwareFamilies ir)
    (IndicatorResponse.KillChains ir) (IndicatorResponse.DomainTypes ir)
    (IndicatorResponse.IPAddressTypes ir)
    (Relation_convertDates <$> IndicatorResponse.Relations ir)
    (Label_convertDates <$> IndicatorResponse.Labels ir).
End Normaliser.

End Intel.

(** ** host API file: the IOC search request and its encoder *)

Module Host.
Import GoInt GoTime Params.

Definition DefaultURLHost : string := "https://falconapi.crowdstrike.com/".

Module SearchIOCsRequest.
Record t : Type := mk {
  Types : list string;
  Values : list string;
  Policies : list string;
  ShareLevels : list string;
  Sources : list string;
  FromExpirationTimestamp : option Time;
  ToExpirationTimestamp : option Time;
  Sort : option SortField;
  Paging : Params.Paging
}.
End SearchIOCsRequest.

Section Encoder.
Variable localOffset : Z -> Z.

(** [searchRequestToParams] reads the request and changes nothing
    in it. *)
Definition searchRequestToParams (req : SearchIOCsRequest.t) : Params.Values :=
  let params : Params.Values := ∅ in
  let params := addStringArr "types" (SearchIOCsRequest.Types req) params in
  let params := addStringArr "values" (SearchIOCsRequest.Values req) params in
  let params := addStringArr "policies" (SearchIOCsRequest.Policies req) params in
  let params := addStringArr "share_levels" (SearchIOCsRequest.ShareLevels req) params in
  let params := addStringArr "sources" (SearchIOCsRequest.Sources req) params in
  let params := addRFCTime localOffset "from.expiration_timestamp"
                  (SearchIOCsRequest.FromExpirationTimestamp req) params in
  let params := addRFCTime localOffset "to.expiration_timestamp"
                  (SearchIOCsRequest.ToExpirationTimestamp req) params in
  let params :=
    match SearchIOCsRequest.Sort req with
    | Some sort => addSortFields "sort" [sort] params
    | None => params
    end in
  let params :=
    if negb (Limit (SearchIOCsRequest.Paging req) =? 0)
    then addInt "limit" (Limit (SearchIOCsRequest.Paging req)) params
    else params in
  let params :=
    if negb (Offset (SearchIOCsRequest.Paging req) =? 0)
    then addInt "offset" (Offset (SearchIOCsRequest.Paging req)) params
    else params in
  params.
End Encoder.

End Host.

(** ** common.go: errors, the client, its options and the request pipeline *)

Module Client.
Import GoInt Params GoHTTP.

(** [Error]: the structure returned for known error conditions. *)
Record Error : Type := mkError {
  Code : string;
  Message : string
}.

Definition Error_Error (e : Error) : string :=
  (Code e +:+ ": " +:+ Message e)%string.

(** A Go [error] value met in this library: one of its own, or one
    passed on from a collaborator. *)
Inductive error : Type :=
| GocsError (e : Error)
| ForeignError (e : foreign).

Definition error_text (e : error) : string :=
  match e with
  | GocsError e => Error_Error e
  | ForeignError e => text e
  end.

Definition ErrMissingCredentials : Error :=
  mkError "missing_credentials" "You must provide the CrowsStrike API ID and key".

Definition ErrMissingParams : Error :=
  mkError "missing_parameters"
    "You must provide the CrowsStrike API required parameters for the request".

Record client : Type := mkClient {
  id : string;
  key : string;
  url : string;
  errorlog : option Logger;
  tracelog : option Logger;
  c : HTTPClient
}.

(** A configuration option: the configured client, or the error that
    aborts the construction. *)
Definition OptionFunc : Type := client -> Eff (error + client).

Definition errorf (cl : client) (m : LogMsg) : Eff unit :=
  match errorlog cl with
  | Some l => emit (ErrorLog l m)
  | None => ret tt
  end.

Definition tracef (cl : client) (m : LogMsg) : Eff unit :=
  match tracelog cl with
  | Some l => emit (TraceLog l m)
  | None => ret tt
  end.

Definition nl : string := String (Ascii.ascii_of_nat 10) EmptyString.

(** [strings.HasSuffix]. *)
Definition HasSuffix (s suffix : string) : bool :=
  (String.length suffix <=? String.length s)%nat
  && String.eqb
       (String.substring (String.length s - String.length suffix)
          (String.length suffix) s)
       suffix.

(** The five options. *)
Definition SetCredentials (id key : string) : OptionFunc := fun cl =>
  if bool_decide (id = ""%string) || bool_decide (key = ""%string) then
    _ ← errorf cl (Text (Error_Error ErrMissingCredentials +:+ nl));
    ret (inl (GocsError ErrMissingCredentials))
  else
    ret (inr (mkClient id key (url cl) (errorlog cl) (tracelog cl) (c cl))).

Definition SetErrorLog (logger : option Logger) : OptionFunc := fun cl =>
  ret (inr (mkClient (id cl) (key cl) (url cl) logger (tracelog cl) (c cl))).

Definition SetTraceLog (logger : option Logger) : OptionFunc := fun cl =>
  ret (inr (mkClient (id cl) (key cl) (url cl) (errorlog cl) logger (c cl))).

Section Pipeline.
(** [url.Parse], as far as its callers look at the result: the parse
    error, or the scheme of the parsed URL. *)
Variable url_Parse : string -> foreign + string.
(** [url.QueryEscape]. *)
Variable QueryEscape : string -> string.
(** [http.StatusText]. *)
Variable StatusText : Z -> string.
(** [http.DefaultClient]. *)
Variable DefaultClient : HTTPClient.

Definition SetHTTPClient (httpClient : option HTTPClient) : OptionFunc := fun cl =>
  match httpClient with
  | Some h => ret (inr (mkClient (id cl) (key cl) (url cl) (errorlog cl) (tracelog cl) h))
  | None =>
      ret (inr (mkClient (id cl) (key cl) (url cl) (errorlog cl) (tracelog cl) DefaultClient))
  end.

Definition SetURL (rawurl : string) : OptionFunc := fun cl =>
  let rawurl := if decide (rawurl = ""%string) then Intel.DefaultURL else rawurl in
  match url_Parse rawurl with
  | inl err =>
      _ ← errorf cl (Text ("Invalid URL [" +:+ rawurl +:+ "] - " +:+ text err +:+ nl));
      ret (inl (ForeignError err))
  | inr scheme =>
      if negb (String.eqb scheme "http") && negb (String.eqb scheme "https") then
        let err := mkError "bad_url" ("Invalid schema specified [" +:+ rawurl +:+ "]") in
        _ ← errorf cl (Text (Error_Error err));
        ret (inl (GocsError err))
      else
        let u := rawurl in
        let u := if negb (HasSuffix u "/") then (u +:+ "/")%string else u in
        ret (inr (mkClient (id cl) (key cl) u (errorlog cl) (tracelog cl) (c cl)))
  end.

(** The loop of [newClient] over the options: the first error ends
    it. *)
Fixpoint run_options (options : list OptionFunc) (cl : client)
    : Eff (error + client) :=
  match options with
  | [] => ret (inr cl)
  | option :: options =>
      r ← option cl;
      match r with
      | inl err => ret (inl err)
      | inr cl => run_options options cl
      end
  end.

(** The tail of [newClient] and of the legacy [New]: the trace line and
    the check of the credentials. *)
Definition check_credentials (cl : client) : Eff (error + client) :=
  _ ← tracef cl (Text ("Using URL [" +:+ url cl +:+ "]" +:+ nl));
  if bool_decide (id cl = ""%string) || bool_decide (key cl = ""%string) then
    _ ← errorf cl (Text "Missing credentials");
    ret (inl (GocsError ErrMissingCredentials))
  else ret (inr cl).

Definition newClient (options : list OptionFunc) : Eff (error + client) :=
  let cl := mkClient "" "" "" None None DefaultClient in
  r ← run_options options cl;
  match r with
  | inl err => ret (inl err)
  | inr cl => check_credentials cl
  end.

(** [dumpRequest] and [dumpResponse], to the trace log. *)
Definition dumpRequest (cl : client) (req : Request) : Eff unit :=
  match tracelog cl with
  | Some _ => tracef cl (RequestDump req)
  | None => ret tt
  end.

Definition dumpResponse (cl : client) (resp : Response) : Eff Response :=
  match tracelog cl with
  | Some _ =>
      r ← DumpResponse resp;
      match r with
      | (resp, inr out) => _ ← tracef cl out; ret resp
      | (resp, inl _) => ret resp
      end
  | None => ret resp
  end.

(** The dump of a response to the error log, in [handleError] and after
    a failed decode. *)
Definition dump_to_errorlog (cl : client) (resp : Response) : Eff Response :=
  match errorlog cl with
  | Some _ =>
      r ← DumpResponse resp;
      match r with
      | (resp, inr out) => _ ← errorf cl out; ret resp
      | (resp, inl _) => ret resp
      end
  | None => ret resp
  end.

Definition http_error_message (status : Z) : string :=
  ("Unexpected status code: " +:+ Itoa status +:+ " (" +:+ StatusText status +:+ ")")%string.

(** [handleError]: the response as the dump leaves it, and the
    error. *)
Definition handleError (cl : client) (resp : Response) : Eff (Response * option error) :=
  if (StatusCode resp <? 200) || (300 <=? StatusCode resp) then
    resp ← dump_to_errorlog cl resp;
    let msg := http_error_message (StatusCode resp) in
    _ ← errorf cl (Text msg);
    ret (resp, Some (GocsError (mkError "http_error" msg)))
  else ret (resp, None).

(** [Values.Encode]: keys in byte order, one [key=value] per value. *)
Definition Values_Encode (v : Values) : string :=
  let keys := merge_sort (fun a b => Is_true (String.leb a b)) (fst <$> map_to_list v) in
  String.concat "&"%string
    (k ← keys; (fun x => (QueryEscape k +:+ "=" +:+ QueryEscape x)%string) <$> Values_at k v).

(** [http.NewRequest]: an empty method stands for GET; the method
    must be a token and the URL must parse. *)
Definition http_NewRequest (method url : string) (body : option string)
    : foreign + Request :=
  let method := if decide (method = ""%string) then "GET"%string else method in
  if negb (forallb isTokenByte (String.list_ascii_of_string method)) then
    inl (mkForeign "net/http" ("net/http: invalid method " +:+ method))
  else
    match url_Parse url with
    | inl e => inl e
    | inr _ => inr (mkRequest method url ∅ body)
    end.

(** The [result] argument of [do]: nil, an [io.Writer], or a value to
    decode into, with the decoder of its type. The decoder returns the
    value as it leaves it, its error, and the body as far as it read
    it. *)
Inductive Target (W T : Type) : Type :=
| NilTarget
| WriterTarget (w : W)
| JSONTarget (v : T) (decode : Body -> T -> T * option foreign * Body).
Arguments NilTarget {W T}.
Arguments WriterTarget {W T} w.
Arguments JSONTarget {W T} v decode.

(** The part of [do] after the [defer]: classification of the status
    and delivery of the body. *)
Definition deliver {W T} `{Writer W} (cl : client) (resp : Response)
    (result : Target W T) : Eff (Target W T * option error) :=
  r ← handleError cl resp;
  match r with
  | (_, Some err) => ret (result, Some err)
  | (resp, None) =>
      resp ← dumpResponse cl resp;
      match result with
      | NilTarget => ret (result, None)
      | WriterTarget w =>
          r ← io_Copy w (RespBody resp);
          match r with
          | (w, Some err, _) => ret (WriterTarget w, Some (ForeignError err))
          | (w, None, _) => ret (WriterTarget w, None)
          end
      | JSONTarget v decode =>
          _ ← emit JSONDecode;
          _ ← note_read (RespBody resp) Partial;
          match decode (RespBody resp) v with
          | (v, Some err, b) =>
              _ ← dump_to_errorlog cl (with_Body b resp);
              ret (JSONTarget v decode, Some (ForeignError err))
          | (v, None, _) => ret (JSONTarget v decode, None)
          end
      end
  end.

(** [do] executes the API request. *)
Definition do {W T} `{Writer W} (cl : client) (method rawurl : string)
    (params : Values) (body : option string) (result : Target W T)
    (authFunc : Request -> Request) : Eff (Target W T * option error) :=
  let rawurl :=
    if (0 <? size params)%nat then (rawurl +:+ "?" +:+ Values_Encode params)%string
    else rawurl in
  match http_NewRequest method (url cl +:+ rawurl) body with
  | inl err => ret (result, Some (ForeignError err))
  | inr req =>
      let req := Request_Header_Set "Accept" "application/json" req in
      let req := authFunc req in
      _ ← match tracelog cl with
          | Some _ => _ ← dumpRequest cl req; tracef cl (StartRequest rawurl)
          | None => ret tt
          end;
      _ ← emit (Transport req);
      let r := c cl req in
      _ ← match tracelog cl with
          | Some _ => tracef cl (EndRequest rawurl)
          | None => ret tt
          end;
      match r with
      | inl err => ret (result, Some (ForeignError err))
      | inr resp =>
          out ← deliver cl resp result;
          (* the deferred [resp.Body.Close()], bound to the body the
             transport handed over *)
          _ ← Body_Close (RespBody resp);
          ret out
      end
  end.
End Pipeline.

Arguments NilTarget {W T}.
Arguments WriterTarget {W T} w.
Arguments JSONTarget {W T} v decode.

End Client.

(** ** intel.go: the Falcon Intelligence client and its public functions *)

Module IntelClient.
Import GoInt Params GoHTTP Client Intel.

Section API.
Variable url_Parse : string -> foreign + string.
Variable QueryEscape : string -> string.
Variable StatusText : Z -> string.
Variable DefaultClient : HTTPClient.
Variable unrepresentable : GoFloat.float64 -> Z.

(** [NewIntel] puts [SetURL(DefaultURL)] before the caller's
    options. *)
Definition NewIntel (options : list OptionFunc) : Eff (error + client) :=
  let options := [SetURL url_Parse DefaultURL] ++ options in
  newClient DefaultClient options.

Definition authFunc (cl : client) : Request -> Request := fun req =>
  let req := Request_Header_Set AuthHeaderID (id cl) req in
  Request_Header_Set AuthHeaderKey (key cl) req.

Abbreviation do' :=
  (fun W T (H : Writer W) => @do url_Parse QueryEscape StatusText W T H).

(** [Actors]: the request as the encoder leaves it, the response
    and the error. *)
Definition Actors
    (decode : Body -> ActorResponse.t -> ActorResponse.t * option foreign * Body)
    (cl : client) (req : ActorRequest.t)
    : Eff (ActorRequest.t * ActorResponse.t * option error) :=
  let resp := ActorResponse.zero in
  let '(req, params) := actorRequestToParams req in
  r ← do' string _ _ cl "GET" "actor/v1/queries/actors" params None
        (JSONTarget resp decode) (authFunc cl);
  let resp := match fst r with JSONTarget v _ => v | _ => resp end in
  match snd r with
  | None =>
      let resp :=
        ActorResponse.mk (ActorResponse.Meta_Paging_Total resp)
          (ActorResponse.Meta_Paging_Offset resp)
          (ActorResponse.Meta_Paging_Limit resp) (ActorResponse.QueryTime resp)
          (Resource_convertDates unrepresentable <$> ActorResponse.Resources resp) in
      ret (req, resp, None)
  | Some err => ret (req, resp, Some err)
  end.

(** [ActorsJSON]: the request, the writer and the error. *)
Definition ActorsJSON {W} `{Writer W} (cl : client) (req : ActorRequest.t)
    (w : option W) : Eff (ActorRequest.t * option W * option error) :=
  let '(req, params) := actorRequestToParams req in
  r ← do' W unit _ cl "GET" "actor/v1/queries/actors" params None
        (match w with Some w => WriterTarget w | None => NilTarget end)
        (authFunc cl);
  ret (req, match fst r with WriterTarget w => Some w | _ => w end, snd r).

Definition missing_indicator_params (req : IndicatorRequest.t) : bool :=
  bool_decide (IndicatorRequest.Parameter_ req = ""%string)
  || bool_decide (IndicatorRequest.Filter req = ""%string)
  || bool_decide (IndicatorRequest.Value req = ""%string).

(** [Indicators]: nil and [ErrMissingParams] when a required field is
    blank. *)
Definition Indicators
    (decode : Body -> list IndicatorResponse.t
              -> list IndicatorResponse.t * option foreign * Body)
    (cl : client) (req : IndicatorRequest.t)
    : Eff (IndicatorRequest.t * list IndicatorResponse.t * option error) :=
  if missing_indicator_params req then
    ret (req, [], Some (GocsError ErrMissingParams))
  else
    let resp : list IndicatorResponse.t := [] in
    let parameter := IndicatorRequest.Parameter_ req in
    let '(req, params) := indicatorRequestToParams req in
    r ← do' string _ _ cl "GET" ("indicator/v1/search/" +:+ parameter) params None
          (JSONTarget resp decode) (authFunc cl);
    let resp := match fst r with JSONTarget v _ => v | _ => resp end in
    match snd r with
    | None => ret (req, IndicatorResponse_convertDates unrepresentable <$> resp, None)
    | Some err => ret (req, resp, Some err)
    end.

(** [IndicatorsJSON]. *)
Definition IndicatorsJSON {W} `{Writer W} (cl : client) (req : IndicatorRequest.t)
    (w : option W) : Eff (IndicatorRequest.t * option W * option error) :=
  if missing_indicator_params req then
    ret (req, w, Some (GocsError ErrMissingParams))
  else
    let parameter := IndicatorRequest.Parameter_ req in
    let '(req, params) := indicatorRequestToParams req in
    r ← do' W unit _ cl "GET" ("indicator/v1/search/" +:+ parameter) params None
          (match w with Some w => WriterTarget w | None => NilTarget end)
          (authFunc cl);
    ret (req, match fst r with WriterTarget w => Some w | _ => w end, snd r).
End API.

End IntelClient.

(** ** host API file: the Falcon Host client *)

Module HostClient.
Import GoInt Params GoHTTP Client Host.

Section API.
Variable url_Parse : string -> foreign + string.
Variable QueryEscape : string -> string.
Variable StatusText : Z -> string.
Variable DefaultClient : HTTPClient.
Variable localOffset : Z -> Z.
(** The value [SetBasicAuth] gives the [Authorization] header for a
    user and a password. *)
Variable basicAuth : string -> string -> string.

(** [NewHost] puts [SetURL(DefaultURLHost)] before the caller's
    options. *)
Definition NewHost (options : list OptionFunc) : Eff (error + client) :=
  let options := [SetURL url_Parse DefaultURLHost] ++ options in
  newClient DefaultClient options.

Definition authFunc (h : client) : Request -> Request := fun req =>
  Request_Header_Set "Authorization" (basicAuth (id h) (key h)) req.

(** [SearchIOCsJSON]. *)
Definition SearchIOCsJSON {W} `{Writer W} (h : client) (req : SearchIOCsRequest.t)
    (w : option W) : Eff (option W * option error) :=
  let params := searchRequestToParams localOffset req in
  r ← @do url_Parse QueryEscape StatusText W unit _ h "GET"
        "indicators/queries/iocs/v1" params None
        (match w with Some w => WriterTarget w | None => NilTarget end)
        (authFunc h);
  ret (match fst r with WriterTarget w => Some w | _ => w end, snd r).
End API.

End HostClient.

(** ** cs.go: the legacy combined client *)

Module Legacy.
Import GoHTTP.

(** The legacy [Error] names its fields [ID] and [Details]. *)
Record Error : Type := mkError {
  ID : string;
  Details : string
}.

Inductive error : Type :=
| GocsError (e : Error)
| ForeignError (e : foreign).

Definition ErrMissingCredentials : Error :=
  mkError "missing_credentials" "You must provide the CrowsStrike API ID and key".

(** The legacy client structure is called [Intel]. *)
Record Intel : Type := mkIntel {
  id : string;
  key : string;
  url : string;
  errorlog : option Logger;
  tracelog : option Logger;
  c : HTTPClient
}.

Definition OptionFunc : Type := Intel -> Eff (error + Intel).

Definition errorf (cl : Intel) (m : LogMsg) : Eff unit :=
  match errorlog cl with
  | Some l => emit (ErrorLog l m)
  | None => ret tt
  end.

Definition tracef (cl : Intel) (m : LogMsg) : Eff unit :=
  match tracelog cl with
  | Some l => emit (TraceLog l m)
  | None => ret tt
  end.

Fixpoint run_options (options : list OptionFunc) (cl : Intel) : Eff (error + Intel) :=
  match options with
  | [] => ret (inr cl)
  | option :: options =>
      r ← option cl;
      match r with
      | inl err => ret (inl err)
      | inr cl => run_options options cl
      end
  end.

(** [New]: the default URL is the initial value of the field. *)
Definition New (DefaultClient : HTTPClient) (options : list OptionFunc)
    : Eff (error + Intel) :=
  let cl := mkIntel "" "" Intel.DefaultURL None None DefaultClient in
  r ← run_options options cl;
  match r with
  | inl err => ret (inl err)
  | inr cl =>
      _ ← tracef cl (Text ("Using URL [" +:+ url cl +:+ "]" +:+ Client.nl));
      if bool_decide (id cl = ""%string) || bool_decide (key cl = ""%string) then
        _ ← errorf cl (Text "Missing credentials");
        ret (inl (GocsError ErrMissingCredentials))
      else ret (inr cl)
  end.

End Legacy.

(** ** host API file: responses and the public functions *)

Module HostAPI.
Import GoInt GoTime Params GoHTTP Client Host HostClient.

Module SearchIOCsResponse.
Record t : Type := mk {
  Meta_QueryTime : GoFloat.float64;
  Meta_Pagination_Total : Z;
  Meta_Pagination_Offset : Z;
  Meta_Pagination_Limit : Z;
  Meta_TraceID : string;
  Meta_Entity : string;
  Resources : list string;
  Errors : list Error
}.

Definition zero : t := mk (S754_zero false) 0 0 0 "" "" [] [].
End SearchIOCsResponse.

Module DeviceCountResponse.
Record t : Type := mk {
  Meta_QueryTime : GoFloat.float64;
  Meta_TraceID : string;
  Resources : list Z;      (* each a [DeviceCount] *)
  Errors : list Error
}.

Definition zero : t := mk (S754_zero false) "" [] [].
End DeviceCountResponse.

(** [Process] holds the information about a detected process. *)
Record Process : Type := mkProcess {
  DeviceID : string;
  CommandLine : string;
  ProcessID : string;
  ProcessIDLocal : string;
  FileName : string;
  StartTimestamp : Time;
  StartTimestampEpoch : GoFloat.float64;
  StopTimestamp : Time;
  StopTimestampEpoch : GoFloat.float64
}.

Module ProcessResponse.
Record t : Type := mk {
  Meta_QueryTime : GoFloat.float64;
  Meta_TraceID : string;
  Resources : list Process;
  Errors : list Error
}.

Definition zero : t := mk (S754_zero false) "" [] [].
End ProcessResponse.

Module ResolveResponse.
Record t : Type := mk {
  Meta_QueryTime : GoFloat.float64;
  Meta_TraceID : string;
  Meta_Writes_ResourcesAffected : Z;
  Errors : list Error
}.

Definition zero : t := mk (S754_zero false) "" 0 [].
End ResolveResponse.

Record IOC : Type := mkIOC {
  IOC_Type : string;
  IOC_Value : string;
  IOC_Policy : string;
  IOC_ShareLevel : string;
  IOC_ExpirationDays : Z;
  IOC_Source : string;
  IOC_Description : string
}.

(** The value a typed call hands back: the one the decoder left in the
    target. *)
Definition decoded {W T} (r : Target W T * option error) (resp : T) : T :=
  match fst r with
  | JSONTarget v _ => v
  | _ => resp
  end.

(** The writer a raw call hands back. *)
Definition written {W T} (r : Target W T * option error) (w : option W) : option W :=
  match fst r with
  | WriterTarget w' => Some w'
  | _ => w
  end.

Definition writer_target {W T} (w : option W) : Target W T :=
  match w with
  | Some w => WriterTarget w
  | None => NilTarget
  end.

Section API.
Variable url_Parse : string -> foreign + string.
Variable QueryEscape : string -> string.
Variable StatusText : Z -> string.
Variable localOffset : Z -> Z.
Variable basicAuth : string -> string -> string.
(** [json.NewEncoder(&b).Encode] on a list of IOCs and on one IOC: the
    bytes written to the buffer, or the error. *)
Variable json_Encode_IOCs : list IOC -> foreign + string.
Variable json_Encode_IOC : IOC -> foreign + string.

Abbreviation call :=
  (fun W T (H : Writer W) => @do url_Parse QueryEscape StatusText W T H).

Abbreviation auth := (HostClient.authFunc basicAuth).

Definition SearchIOCs
    (decode : Body -> SearchIOCsResponse.t -> SearchIOCsResponse.t * option foreign * Body)
    (h : client) (req : SearchIOCsRequest.t)
    : Eff (SearchIOCsResponse.t * option error) :=
  let resp := SearchIOCsResponse.zero in
  let params := searchRequestToParams localOffset req in
  r ← call string _ _ h "GET" "indicators/queries/iocs/v1" params None
        (JSONTarget resp decode) (auth h);
  ret (decoded r resp, snd r).

(** [url.Values{"type": {t}, "value": {v}}]. *)
Definition type_value_params (t v : string) : Values :=
  <["type" := [t]]> {["value" := [v]]}.

Definition DeviceCount
    (decode : Body -> DeviceCountResponse.t -> DeviceCountResponse.t * option foreign * Body)
    (h : client) (t v : string) : Eff (DeviceCountResponse.t * option error) :=
  let resp := DeviceCountResponse.zero in
  let params := type_value_params t v in
  r ← call string _ _ h "GET" "indicators/aggregates/devices-count/v1" params None
        (JSONTarget resp decode) (auth h);
  ret (decoded r resp, snd r).

Definition DeviceCountJSON {W} `{Writer W} (h : client) (t v : string) (w : option W)
    : Eff (option W * option error) :=
  let params := type_value_params t v in
  r ← call W unit _ h "GET" "indicators/aggregates/devices-count/v1" params None
        (writer_target w) (auth h);
  ret (written r w, snd r).

Definition DevicesRanOn
    (decode : Body -> SearchIOCsResponse.t -> SearchIOCsResponse.t * option foreign * Body)
    (h : client) (t v : string) : Eff (SearchIOCsResponse.t * option error) :=
  let resp := SearchIOCsResponse.zero in
  let params := type_value_params t v in
  r ← call string _ _ h "GET" "indicators/queries/devices/v1" params None
        (JSONTarget resp decode) (auth h);
  ret (decoded r resp, snd r).

Definition DevicesRanOnJSON {W} `{Writer W} (h : client) (t v : string) (w : option W)
    : Eff (option W * option error) :=
  let params := type_value_params t v in
  r ← call W unit _ h "GET" "indicators/queries/devices/v1" params None
        (writer_target w) (auth h);
  ret (written r w, snd r).

(** [url.Values{"type": {t}, "value": {v}, "device_id": {device}}]. *)
Definition type_value_device_params (t v device : string) : Values :=
  <["type" := [t]]> (<["value" := [v]]> {["device_id" := [device]]}).

Definition ProcessesRanOn
    (decode : Body -> SearchIOCsResponse.t -> SearchIOCsResponse.t * option foreign * Body)
    (h : client) (t v device : string) : Eff (SearchIOCsResponse.t * option error) :=
  let resp := SearchIOCsResponse.zero in
  let params := type_value_device_params t v device in
  r ← call string _ _ h "GET" "indicators/queries/processes/v1" params None
        (JSONTarget resp decode) (auth h);
  ret (decoded r resp, snd r).

Definition ProcessesRanOnJSON {W} `{Writer W} (h : client) (t v device : string)
    (w : option W) : Eff (option W * option error) :=
  let params := type_value_device_params t v device in
  r ← call W unit _ h "GET" "indicators/queries/processes/v1" params None
        (writer_target w) (auth h);
  ret (written r w, snd r).

Definition ProcessDetails
    (decode : Body -> ProcessResponse.t -> ProcessResponse.t * option foreign * Body)
    (h : client) (ids : list string) : Eff (ProcessResponse.t * option error) :=
  let resp := ProcessResponse.zero in
  let params := addStringArr "ids" ids ∅ in
  r ← call string _ _ h "GET" "processes/entities/processes/v1" params None
        (JSONTarget resp decode) (auth h);
  ret (decoded r resp, snd r).

Definition ProcessDetailsJSON {W} `{Writer W} (h : client) (ids : list string)
    (w : option W) : Eff (option W * option error) :=
  let params := addStringArr "ids" ids ∅ in
  r ← call W unit _ h "GET" "processes/entities/processes/v1" params None
        (writer_target w) (auth h);
  ret (written r w, snd r).

(** [UploadIOCs]: the IOCs are encoded first; the call has no parameter
    map. *)
Definition UploadIOCs
    (decode : Body -> SearchIOCsResponse.t -> SearchIOCsResponse.t * option foreign * Body)
    (h : client) (iocs : list IOC) : Eff (SearchIOCsResponse.t * option error) :=
  let resp := SearchIOCsResponse.zero in
  match json_Encode_IOCs iocs with
  | inl err => ret (resp, Some (ForeignError err))
  | inr b =>
      r ← call string _ _ h "POST" "indicators/entities/iocs/v1" ∅ (Some b)
            (JSONTarget resp decode) (auth h);
      ret (decoded r resp, snd r)
  end.

(** [UpdateIOCs]: a nil IOC gives a nil response and
    [ErrMissingParams]. *)
Definition UpdateIOCs
    (decode : Body -> SearchIOCsResponse.t -> SearchIOCsResponse.t * option foreign * Body)
    (h : client) (ids : list string) (ioc : option IOC)
    : Eff (option SearchIOCsResponse.t * option error) :=
  match ioc with
  | None => ret (None, Some (GocsError ErrMissingParams))
  | Some ioc =>
      let resp := SearchIOCsResponse.zero in
      let params := addStringArr "ids" ids ∅ in
      match json_Encode_IOC ioc with
      | inl err => ret (Some resp, Some (ForeignError err))
      | inr b =>
          r ← call string _ _ h "PATCH" "indicators/entities/iocs/v1" params (Some b)
                (JSONTarget resp decode) (auth h);
          ret (Some (decoded r resp), snd r)
      end
  end.

Definition DeleteIOCs
    (decode : Body -> SearchIOCsResponse.t -> SearchIOCsResponse.t * option foreign * Body)
    (h : client) (ids : list string) : Eff (SearchIOCsResponse.t * option error) :=
  let resp := SearchIOCsResponse.zero in
  let params := addStringArr "ids" ids ∅ in
  r ← call string _ _ h "DELETE" "indicators/entities/iocs/v1" params None
        (JSONTarget resp decode) (auth h);
  ret (decoded r resp, snd r).

Definition Resolve
    (decode : Body -> ResolveResponse.t -> ResolveResponse.t * option foreign * Body)
    (h : client) (ids : list string) (toState : string)
    : Eff (ResolveResponse.t * option error) :=
  let resp := ResolveResponse.zero in
  let params := addStringArr "ids" ids ∅ in
  let params := addString "to_status" toState params in
  r ← call string _ _ h "PATCH" "detects/entities/detects/v1" params None
        (JSONTarget resp decode) (auth h);
  ret (decoded r resp, snd r).
End API.

End HostAPI.

(** ** cs.go: the encoder of the legacy indicator request *)

Module LegacyIntel.
Import GoInt Params GoHTTP.

(** In the legacy request the sort field is a value, not a pointer. *)
Module IndicatorRequest.
Record t : Type := mk {
  Parameter_ : string;   (* [Parameter] in the source *)
  Filter : string;
  Value : string;
  Sort : SortField;
  Page : Z;
  PerPage : Z
}.

Definition with_Page (p : Z) (r : t) : t :=
  mk (Parameter_ r) (Filter r) (Value r) (Sort r) p (PerPage r).

Definition with_PerPage (p : Z) (r : t) : t :=
  mk (Parameter_ r) (Filter r) (Value r) (Sort r) (Page r) p.
End IndicatorRequest.

(** The legacy [indicatorRequestToParams]: the sort goes in when its
    name is not empty. *)
Definition indicatorRequestToParams (req : IndicatorRequest.t)
    : IndicatorRequest.t * Values :=
  let params : Values := {[ IndicatorRequest.Filter req := [IndicatorRequest.Value req] ]} in
  let params :=
    if negb (String.eqb (Name (IndicatorRequest.Sort req)) "") then
      let order : string := if Ascending (IndicatorRequest.Sort req) then "asc" else "desc" in
      let params := Values_Add "sort" (Name (IndicatorRequest.Sort req)) params in
      Values_Add "order" order params
    else params in
  let req :=
    if IndicatorRequest.Page req =? 0 then IndicatorRequest.with_Page 1 req else req in
  let req :=
    if IndicatorRequest.PerPage req =? 0 then IndicatorRequest.with_PerPage 10 req else req in
  let params := Values_Add "page" (Itoa (IndicatorRequest.Page req)) params in
  let params := Values_Add "perPage" (Itoa (IndicatorRequest.PerPage req)) params in
  (req, params).

(** The legacy [Error.Error]. *)
Definition Error_Error (e : Legacy.Error) : string :=
  (Legacy.ID e +:+ ": " +:+ Legacy.Details e)%string.

(** The options of the legacy client. *)
Definition SetCredentials (id key : string) : Legacy.OptionFunc := fun cl =>
  if bool_decide (id = ""%string) || bool_decide (key = ""%string) then
    _ ← Legacy.errorf cl (Text (Error_Error Legacy.ErrMissingCredentials +:+ Client.nl));
    ret (inl (Legacy.GocsError Legacy.ErrMissingCredentials))
  else
    ret (inr (Legacy.mkIntel id key (Legacy.url cl) (Legacy.errorlog cl)
                (Legacy.tracelog cl) (Legacy.c cl))).

Definition SetErrorLog (logger : option Logger) : Legacy.OptionFunc := fun cl =>
  ret (inr (Legacy.mkIntel (Legacy.id cl) (Legacy.key cl) (Legacy.url cl) logger
              (Legacy.tracelog cl) (Legacy.c cl))).

Definition SetTraceLog (logger : option Logger) : Legacy.OptionFunc := fun cl =>
  ret (inr (Legacy.mkIntel (Legacy.id cl) (Legacy.key cl) (Legacy.url cl)
              (Legacy.errorlog cl) logger (Legacy.c cl))).

Section Pipeline.
Variable url_Parse : string -> foreign + string.
Variable QueryEscape : string -> string.
Variable StatusText : Z -> string.
Variable DefaultClient : HTTPClient.

Definition SetHTTPClient (httpClient : option HTTPClient) : Legacy.OptionFunc := fun cl =>
  match httpClient with
  | Some h =>
      ret (inr (Legacy.mkIntel (Legacy.id cl) (Legacy.key cl) (Legacy.url cl)
                  (Legacy.errorlog cl) (Legacy.tracelog cl) h))
  | None =>
      ret (inr (Legacy.mkIntel (Legacy.id cl) (Legacy.key cl) (Legacy.url cl)
                  (Legacy.errorlog cl) (Legacy.tracelog cl) DefaultClient))
  end.

Definition SetURL (rawurl : string) : Legacy.OptionFunc := fun cl =>
  let rawurl := if decide (rawurl = ""%string) then Intel.DefaultURL else rawurl in
  match url_Parse rawurl with
  | inl err =>
      _ ← Legacy.errorf cl
            (Text ("Invalid URL [" +:+ rawurl +:+ "] - " +:+ text err +:+ Client.nl));
      ret (inl (Legacy.ForeignError err))
  | inr scheme =>
      if negb (String.eqb scheme "http") && negb (String.eqb scheme "https") then
        let err :=
          Legacy.mkError "bad_url" ("Invalid schema specified [" +:+ rawurl +:+ "]") in
        _ ← Legacy.errorf cl (Text (Error_Error err));
        ret (inl (Legacy.GocsError err))
      else
        let u := rawurl in
        let u := if negb (Client.HasSuffix u "/") then (u +:+ "/")%string else u in
        ret (inr (Legacy.mkIntel (Legacy.id cl) (Legacy.key cl) u (Legacy.errorlog cl)
                    (Legacy.tracelog cl) (Legacy.c cl)))
  end.

(** The legacy [dumpRequest], [dumpResponse] and [handleError]. *)
Definition dumpRequest (cl : Legacy.Intel) (req : Request) : Eff unit :=
  match Legacy.tracelog cl with
  | Some _ => Legacy.tracef cl (RequestDump req)
  | None => ret tt
  end.

Definition dumpResponse (cl : Legacy.Intel) (resp : Response) : Eff Response :=
  match Legacy.tracelog cl with
  | Some _ =>
      r ← DumpResponse resp;
      match r with
      | (resp, inr out) => _ ← Legacy.tracef cl out; ret resp
      | (resp, inl _) => ret resp
      end
  | None => ret resp
  end.

Definition dump_to_errorlog (cl : Legacy.Intel) (resp : Response) : Eff Response :=
  match Legacy.errorlog cl with
  | Some _ =>
      r ← DumpResponse resp;
      match r with
      | (resp, inr out) => _ ← Legacy.errorf cl out; ret resp
      | (resp, inl _) => ret resp
      end
  | None => ret resp
  end.

Definition handleError (cl : Legacy.Intel) (resp : Response)
    : Eff (Response * option Legacy.error) :=
  if (StatusCode resp <? 200) || (300 <=? StatusCode resp) then
    resp ← dump_to_errorlog cl resp;
    let msg := Client.http_error_message StatusText (StatusCode resp) in
    _ ← Legacy.errorf cl (Text msg);
    ret (resp, Some (Legacy.GocsError (Legacy.mkError "http_error" msg)))
  else ret (resp, None).

(** The part of the legacy [do] after the [defer]. *)
Definition deliver {W T} `{Writer W} (cl : Legacy.Intel) (resp : Response)
    (result : Client.Target W T) : Eff (Client.Target W T * option Legacy.error) :=
  r ← handleError cl resp;
  match r with
  | (_, Some err) => ret (result, Some err)
  | (resp, None) =>
      resp ← dumpResponse cl resp;
      match result with
      | Client.NilTarget => ret (result, None)
      | Client.WriterTarget w =>
          r ← io_Copy w (RespBody resp);
          match r with
          | (w, Some err, _) => ret (Client.WriterTarget w, Some (Legacy.ForeignError err))
          | (w, None, _) => ret (Client.WriterTarget w, None)
          end
      | Client.JSONTarget v decode =>
          _ ← emit JSONDecode;
          _ ← note_read (RespBody resp) Partial;
          match decode (RespBody resp) v with
          | (v, Some err, b) =>
              _ ← dump_to_errorlog cl (with_Body b resp);
              ret (Client.JSONTarget v decode, Some (Legacy.ForeignError err))
          | (v, None, _) => ret (Client.JSONTarget v decode, None)
          end
      end
  end.

(** The legacy [do]: it sets the two authentication headers itself. *)
Definition do {W T} `{Writer W} (cl : Legacy.Intel) (method rawurl : string)
    (params : Values) (body : option string) (result : Client.Target W T)
    : Eff (Client.Target W T * option Legacy.error) :=
  let rawurl :=
    if (0 <? size params)%nat
    then (rawurl +:+ "?" +:+ Client.Values_Encode QueryEscape params)%string
    else rawurl in
  match Client.http_NewRequest url_Parse method (Legacy.url cl +:+ rawurl) body with
  | inl err => ret (result, Some (Legacy.ForeignError err))
  | inr req =>
      let req := Request_Header_Set "Accept" "application/json" req in
      let req := Request_Header_Set Intel.AuthHeaderID (Legacy.id cl) req in
      let req := Request_Header_Set Intel.AuthHeaderKey (Legacy.key cl) req in
      _ ← match Legacy.tracelog cl with
          | Some _ => _ ← dumpRequest cl req; Legacy.tracef cl (StartRequest rawurl)
          | None => ret tt
          end;
      _ ← emit (Transport req);
      let r := Legacy.c cl req in
      _ ← match Legacy.tracelog cl with
          | Some _ => Legacy.tracef cl (EndRequest rawurl)
          | None => ret tt
          end;
      match r with
      | inl err => ret (result, Some (Legacy.ForeignError err))
      | inr resp =>
          out ← deliver cl resp result;
          _ ← Body_Close (RespBody resp);
          ret out
      end
  end.

Definition ErrMissingParams : Legacy.Error :=
  Legacy.mkError "missing_parameters"
    "You must provide the CrowsStrike API required parameters for the request".

Definition missing_indicator_params (req : IndicatorRequest.t) : bool :=
  bool_decide (IndicatorRequest.Parameter_ req = ""%string)
  || bool_decide (IndicatorRequest.Filter req = ""%string)
  || bool_decide (IndicatorRequest.Value req = ""%string).

(** The legacy [Indicators] and [IndicatorsJSON]. The response
    structures of the legacy file and their [convertDates] are those of
    the split file, field for field. *)
Definition Indicators (unrepresentable : GoFloat.float64 -> Z)
    (decode : Body -> list Intel.IndicatorResponse.t
              -> list Intel.IndicatorResponse.t * option foreign * Body)
    (cl : Legacy.Intel) (req : IndicatorRequest.t)
    : Eff (IndicatorRequest.t * list Intel.IndicatorResponse.t * option Legacy.error) :=
  if missing_indicator_params req then
    ret (req, [], Some (Legacy.GocsError ErrMissingParams))
  else
    let resp : list Intel.IndicatorResponse.t := [] in
    let parameter := IndicatorRequest.Parameter_ req in
    let '(req, params) := indicatorRequestToParams req in
    r ← do (W:=string) cl "GET" ("indicator/v1/search/" +:+ parameter) params None
          (Client.JSONTarget resp decode);
    let resp := match fst r with Client.JSONTarget v _ => v | _ => resp end in
    match snd r with
    | None =>
        ret (req, Intel.IndicatorResponse_convertDates unrepresentable <$> resp, None)
    | Some err => ret (req, resp, Some err)
    end.

Definition IndicatorsJSON {W} `{Writer W} (cl : Legacy.Intel) (req : IndicatorRequest.t)
    (w : option W) : Eff (IndicatorRequest.t * option W * option Legacy.error) :=
  if missing_indicator_params req then
    ret (req, w, Some (Legacy.GocsError ErrMissingParams))
  else
    let parameter := IndicatorRequest.Parameter_ req in
    let '(req, params) := indicatorRequestToParams req in
    r ← do (T:=unit) cl "GET" ("indicator/v1/search/" +:+ parameter) params None
          (match w with Some w => Client.WriterTarget w | None => Client.NilTarget end);
    ret (req, match fst r with Client.WriterTarget w => Some w | _ => w end, snd r).

(** The legacy [ActorsJSON]. The legacy actor request holds the offset
    and the limit as fields of its own; its encoder is, line for line,
    the encoder of the split file. *)
Definition ActorsJSON {W} `{Writer W} (cl : Legacy.Intel) (req : Intel.ActorRequest.t)
    (w : option W) : Eff (Intel.ActorRequest.t * option W * option Legacy.error) :=
  let '(req, params) := Intel.actorRequestToParams req in
  r ← do (T:=unit) cl "GET" "actor/v1/queries/actors" params None
        (match w with Some w => Client.WriterTarget w | None => Client.NilTarget end);
  ret (req, match fst r with Client.WriterTarget w => Some w | _ => w end, snd r).
End Pipeline.

End LegacyIntel.

(** ** The command-line front ends: list flags *)

Module CLI.
Import Params Intel Host.

(** [strings.Split(s, ",")]: the pieces between the commas; one piece,
    the string itself, when there is no comma. *)
Fixpoint Split_comma (s : string) : list string :=
  match s with
  | EmptyString => [EmptyString]
  | String c s' =>
      if Ascii.eqb c (Ascii.ascii_of_nat 44) then EmptyString :: Split_comma s'
      else
        match Split_comma s' with
        | piece :: pieces => String c piece :: pieces
        | [] => [String c EmptyString]
        end
  end.

(** [addStringList]: the pieces of the flag are appended to the list. *)
Definition addStringList (s : string) (lst : list string) : list string :=
  lst ++ Split_comma s.

(** The request the actors front end builds from its flags: the scalar
    flags are bound to the fields, the list flags go through
    [addStringList]. *)
Definition actors_request (q name desc origin country industry motivation : string)
    : ActorRequest.t :=
  ActorRequest.mk q name desc None None None None
    (addStringList origin []) (addStringList country [])
    (addStringList industry []) (addStringList motivation [])
    [] [] (mkPaging 0 0).

(** The request the IOC front end builds for a search, the time flags
    apart (they are parsed by [time.Parse]). *)
Definition iocs_request (types values policies shareLevels sources : string)
    (from to : option GoTime.Time) (sort : string) (asc : bool) : SearchIOCsRequest.t :=
  SearchIOCsRequest.mk
    (addStringList types []) (addStringList values [])
    (addStringList policies []) (addStringList shareLevels [])
    (addStringList sources []) from to
    (if negb (String.eqb sort "") then Some (mkSortField sort asc) else None)
    (mkPaging 0 0).

End CLI.

(** * Statements

    The predicates in which the properties below are stated, and the
    concrete inputs they are evaluated at. *)

Module Claims.
Import GoInt GoTime GoFloat Params GoHTTP Intel Host Client.

(** What a string contributes: itself, unless it is empty. *)
Definition entry (val : string) : list string :=
  if decide (val = ""%string) then [] else [val].

Abbreviation nonempty := (fun s : string => negb (String.eqb s "")).


(** The claim of one entry per element, for one call of
    [addStringArr]. *)
Definition one_entry_per_element (name : string) (val : list string)
    (params : Values) : Prop :=
  Values_at name (addStringArr name val params) = Values_at name params ++ val.

Definition actor_request (offset limit : Z) : ActorRequest.t :=
  ActorRequest.mk "" "" "" None None None None [] [] [] [] [] [] (mkPaging offset limit).


(** The claim of C3 for a time field of the host family: it
    contributes exactly when it is non-null and non-zero. *)
Definition contributes_iff_set (localOffset : Z → Z) (t : option Time) : Prop :=
  Values_at "from.expiration_timestamp"
    (addRFCTime localOffset "from.expiration_timestamp" t ∅) ≠ []
  ↔ ∃ t', t = Some t' ∧ IsZero t' = false.

(** The claim of C4 for the sort field of an indicator search. *)
Definition sort_is_single_value (req : IndicatorRequest.t) : Prop :=
  ∀ sf, IndicatorRequest.Sort req = Some sf →
        Values_at "sort" (snd (indicatorRequestToParams req)) = [sortValue sf].

Definition indicator_request_sorted_desc : IndicatorRequest.t :=
  IndicatorRequest.mk "p" "f" "v" (Some (mkSortField "x" false)) 1 10.

(** The binary64 data: canonical mantissa and exponent in range. *)
Definition is_float64 (f : float64) : bool := valid_binary 53 1024 f.

(** Rounding a rational toward zero: down when it is not negative, up
    when it is. *)
Definition round_toward_zero (q : Q) : Z :=
  if Qle_bool 0 q then Qfloor q else Qceiling q.

(** The claim of C5 for one epoch: the derived timestamp is the instant
    of the floor of the epoch. *)
Definition derived_is_floor (unrepresentable : float64 → Z) (epoch : float64) : Prop :=
  date_of_epoch unrepresentable epoch = time_Unix (Qfloor (Q_of_float epoch)) 0.

(** The floats -1.5 and 1.5. *)
Definition minus_one_and_a_half : float64 := S754_finite true 6755399441055744 (-52).
Definition one_and_a_half : float64 := S754_finite false 6755399441055744 (-52).

(** A platform on which an unrepresentable conversion gives the least
    [int64]. *)
Definition least_int64 : float64 → Z := fun _ => - 2 ^ 63.

(** The client [newClient] starts from, and the one the options of
    [NewIntel] and [NewHost] meet after the prepended [SetURL]. *)
Definition blank (DefaultClient : HTTPClient) : client :=
  mkClient "" "" "" None None DefaultClient.

Definition with_url (u : string) (cl : client) : client :=
  mkClient (id cl) (key cl) u (errorlog cl) (tracelog cl) (c cl).

(** The client the legacy [New] starts from. *)
Definition legacy_blank (DefaultClient : HTTPClient) : Legacy.Intel :=
  Legacy.mkIntel "" "" DefaultURL None None DefaultClient.

(** An option that leaves the credentials as they are. *)
Definition keeps_credentials (o : OptionFunc) : Prop :=
  ∀ cl cl', value (o cl) = inr cl' → id cl' = id cl ∧ key cl' = key cl.

(** A stand-in for [url.Parse] that looks at the scheme only: the
    letters before the first colon, in lower case. *)
Definition scheme_of (rawurl : string) : foreign + string :=
  if String.prefix "https://" rawurl then inr "https"%string
  else if String.prefix "http://" rawurl then inr "http"%string
  else if String.prefix "ftp://" rawurl then inr "ftp"%string
  else inr ""%string.

(** A transport that answers every request with the same response. *)
Definition answering (resp : Response) : HTTPClient := fun _ => inr resp.

Definition no_client : HTTPClient :=
  fun _ => inl (mkForeign "net/http" "no transport").

(** The request [do] hands to the transport: built by
    [http.NewRequest] from the method, the base URL, the path and the
    encoded parameters, then given the Accept header and passed through
    the authentication hook. *)
Definition sent_request (url_Parse : string → foreign + string)
    (QueryEscape : string → string) (cl : client) (method rawurl : string)
    (params : Values) (body : option string) (authFunc : Request → Request)
    : foreign + Request :=
  let rawurl :=
    if (0 <? size params)%nat
    then (rawurl +:+ "?" +:+ Values_Encode QueryEscape params)%string
    else rawurl in
  match http_NewRequest url_Parse method (url cl +:+ rawurl) body with
  | inl err => inl err
  | inr req => inr (authFunc (Request_Header_Set "Accept" "application/json" req))
  end.

Definition is_log (e : Event) : bool :=
  match e with ErrorLog _ _ | TraceLog _ _ => true | _ => false end.


(** A sink whose writes never fail, as those of [bytes.Buffer]. *)
Definition never_fails (W : Type) `{Writer W} : Prop :=
  ∀ (w : W) (p : string), snd (Write w p) = None.

(** Status texts of a few codes. *)
Definition status_text (code : Z) : string :=
  if code =? 200 then "OK"
  else if code =? 404 then "Not Found"
  else if code =? 500 then "Internal Server Error"
  else "".

Definition not_found : Response :=
  mkResponse 404 ∅ (mkBody FromTransport ["not "; "found"]%string None).


Definition malformed_json : Response :=
  mkResponse 200 ∅ (mkBody FromTransport ["{bad"; " json"]%string None).

Definition quiet_client (resp : Response) : client :=
  mkClient "id" "secret" "https://intelapi.crowdstrike.com/" None None (answering resp).


(** A decoder that accepts no input. *)
Definition rejecting_decoder {T} : Body → T → T * option foreign * Body :=
  fun b v => (v, Some (mkForeign "encoding/json" "invalid character"), b).

Definition indicator_request (parameter filter value : string) : IndicatorRequest.t :=
  IndicatorRequest.mk parameter filter value None 0 0.

(** Options without credentials: an error log and a base URL. *)
Definition options_without_credentials : list OptionFunc :=
  [SetErrorLog (Some "stderr"%string); SetURL scheme_of "http://localhost:8080"].

Definition options_with_credentials : list OptionFunc :=
  [SetCredentials "id" "secret"; SetTraceLog (Some "stderr"%string)].

End Claims.

(** ** Statements about the rest of the code *)

Module Coverage.
Import GoInt GoTime GoFloat Params GoHTTP Intel Host Client Claims.

(** The options the library offers. *)
Inductive standard (url_Parse : string → foreign + string) (DefaultClient : HTTPClient)
    : OptionFunc → Prop :=
| standard_SetCredentials i k : standard url_Parse DefaultClient (SetCredentials i k)
| standard_SetHTTPClient h : standard url_Parse DefaultClient (SetHTTPClient DefaultClient h)
| standard_SetURL u : standard url_Parse DefaultClient (SetURL url_Parse u)
| standard_SetErrorLog l : standard url_Parse DefaultClient (SetErrorLog l)
| standard_SetTraceLog l : standard url_Parse DefaultClient (SetTraceLog l).

(** An option that leaves the base URL, or the transport, as it is. *)
Definition keeps_url (o : OptionFunc) : Prop :=
  ∀ cl cl', value (o cl) = inr cl' → url cl' = url cl.

Definition keeps_transport (o : OptionFunc) : Prop :=
  ∀ cl cl', value (o cl) = inr cl' → c cl' = c cl.

(** The base URL [SetURL] stores for a raw URL. *)
Definition stored_url (rawurl : string) : string :=
  let u := if decide (rawurl = ""%string) then DefaultURL else rawurl in
  if HasSuffix u "/" then u else (u +:+ "/")%string.

Definition with_errorlog (l : option Logger) (cl : client) : client :=
  mkClient (id cl) (key cl) (url cl) l (tracelog cl) (c cl).

(** A parameter map without an empty list and without an empty
    value. *)
Definition clean (v : Values) : Prop :=
  map_Forall (fun _ vs => vs ≠ [] ∧ Forall (fun s => s ≠ ""%string) vs) v.

(** The keys of the actor query and of the IOC search query. *)
Definition actor_keys : list string :=
  ["q"; "name"; "description"; "min_last_modified_date"; "max_last_modified_date";
   "min_last_activity_date"; "max_last_activity_date"; "origins"; "target_countries";
   "target_industries"; "motivations"; "fields"; "sort"; "offset"; "limit"]%string.

Definition search_keys : list string :=
  ["types"; "values"; "policies"; "share_levels"; "sources";
   "from.expiration_timestamp"; "to.expiration_timestamp"; "sort"; "limit";
   "offset"]%string.

(** The request of the split client that corresponds to a legacy
    indicator request: a sort field without a name is no sort field. *)
Definition of_legacy (r : LegacyIntel.IndicatorRequest.t) : IndicatorRequest.t :=
  IndicatorRequest.mk
    (LegacyIntel.IndicatorRequest.Parameter_ r) (LegacyIntel.IndicatorRequest.Filter r)
    (LegacyIntel.IndicatorRequest.Value r)
    (if String.eqb (Name (LegacyIntel.IndicatorRequest.Sort r)) ""
     then None else Some (LegacyIntel.IndicatorRequest.Sort r))
    (LegacyIntel.IndicatorRequest.Page r) (LegacyIntel.IndicatorRequest.PerPage r).

(** Whether a piece of a split string holds a comma. *)
Definition has_comma (s : string) : bool :=
  existsb (fun ch => Ascii.eqb ch (Ascii.ascii_of_nat 44)) (String.list_ascii_of_string s).

(** [strings.Join(pieces, ",")]. *)
Fixpoint join_comma (pieces : list string) : string :=
  match pieces with
  | [] => ""%string
  | piece :: pieces' =>
      match pieces' with
      | [] => piece
      | _ :: _ => (piece +:+ "," +:+ join_comma pieces')%string
      end
  end.

(** The query part [do] gives the URL. *)
Definition query_of (QueryEscape : string → string) (params : Values) : string :=
  if decide (params = ∅) then ""%string
  else ("?" +:+ Values_Encode QueryEscape params)%string.

(** What a typed call of [do] hands back, by cases: the value the target
    holds afterwards and the error. *)
Definition typed_outcome {T} (url_Parse : string → foreign + string)
    (QueryEscape : string → string) (StatusText : Z → string)
    (cl : client) (method rawurl : string) (params : Values) (body : option string)
    (v : T) (decode : Body → T → T * option foreign * Body)
    (authFunc : Request → Request) : T * option error :=
  match sent_request url_Parse QueryEscape cl method rawurl params body authFunc with
  | inl e => (v, Some (ForeignError e))
  | inr req =>
      match c cl req with
      | inl e => (v, Some (ForeignError e))
      | inr resp =>
          if (StatusCode resp <? 200) || (300 <=? StatusCode resp) then
            (v, Some (GocsError (mkError "http_error"
                                   (http_error_message StatusText (StatusCode resp)))))
          else
            let b := RespBody (value (dumpResponse cl resp)) in
            (fst (fst (decode b v)), ForeignError <$> snd (fst (decode b v)))
      end
  end.

(** What a raw call of [do] hands back, by cases: the writer afterwards
    (none when none was given) and the error. *)
Definition raw_outcome {W} `{Writer W} (url_Parse : string → foreign + string)
    (QueryEscape : string → string) (StatusText : Z → string)
    (cl : client) (method rawurl : string) (params : Values) (body : option string)
    (w : option W) (authFunc : Request → Request) : option W * option error :=
  match sent_request url_Parse QueryEscape cl method rawurl params body authFunc with
  | inl e => (w, Some (ForeignError e))
  | inr req =>
      match c cl req with
      | inl e => (w, Some (ForeignError e))
      | inr resp =>
          if (StatusCode resp <? 200) || (300 <=? StatusCode resp) then
            (w, Some (GocsError (mkError "http_error"
                                   (http_error_message StatusText (StatusCode resp)))))
          else
            match w with
            | None => (None, None)
            | Some w0 =>
                let copied :=
                  value (io_Copy w0 (RespBody (value (dumpResponse cl resp)))) in
                (Some (fst (fst copied)), ForeignError <$> snd (fst copied))
            end
      end
  end.

(** An actor response with other resources. *)
Definition with_Resources (rs : list Resource.t) (resp : ActorResponse.t)
    : ActorResponse.t :=
  ActorResponse.mk (ActorResponse.Meta_Paging_Total resp)
    (ActorResponse.Meta_Paging_Offset resp) (ActorResponse.Meta_Paging_Limit resp)
    (ActorResponse.QueryTime resp) rs.

(** The split client that corresponds to a legacy client, and the
    split error that corresponds to a legacy error: the fields are the
    same, under other names for the error. *)
Definition split_client (cl : Legacy.Intel) : client :=
  mkClient (Legacy.id cl) (Legacy.key cl) (Legacy.url cl) (Legacy.errorlog cl)
    (Legacy.tracelog cl) (Legacy.c cl).

Definition split_Error (e : Legacy.Error) : Error :=
  mkError (Legacy.ID e) (Legacy.Details e).

Definition split_error (e : Legacy.error) : error :=
  match e with
  | Legacy.GocsError e => GocsError (split_Error e)
  | Legacy.ForeignError e => ForeignError e
  end.

Definition split_built (out : Eff (Legacy.error + Legacy.Intel)) : Eff (error + client) :=
  (trace out,
   match value out with
   | inl e => inl (split_error e)
   | inr cl => inr (split_client cl)
   end).

Definition split_outcome {A} (out : Eff (A * option Legacy.error)) : Eff (A * option error) :=
  (trace out, (fst (value out), split_error <$> snd (value out))).

(** A configuration option, by name, and what it is for each of the two
    clients. *)
Inductive option_name : Type :=
| Credentials (id key : string)
| Transport_ (httpClient : option HTTPClient)
| BaseURL (rawurl : string)
| ErrorLog_ (logger : option Logger)
| TraceLog_ (logger : option Logger).

Definition legacy_option (url_Parse : string → foreign + string)
    (DefaultClient : HTTPClient) (o : option_name) : Legacy.OptionFunc :=
  match o with
  | Credentials i k => LegacyIntel.SetCredentials i k
  | Transport_ h => LegacyIntel.SetHTTPClient DefaultClient h
  | BaseURL u => LegacyIntel.SetURL url_Parse u
  | ErrorLog_ l => LegacyIntel.SetErrorLog l
  | TraceLog_ l => LegacyIntel.SetTraceLog l
  end.

Definition split_option (url_Parse : string → foreign + string)
    (DefaultClient : HTTPClient) (o : option_name) : OptionFunc :=
  match o with
  | Credentials i k => SetCredentials i k
  | Transport_ h => SetHTTPClient DefaultClient h
  | BaseURL u => SetURL url_Parse u
  | ErrorLog_ l => SetErrorLog l
  | TraceLog_ l => SetTraceLog l
  end.

(** Sample collaborators. *)
Definition failing_option : OptionFunc :=
  fun _ => ret (inl (ForeignError (mkForeign "test" "refused"))).

Definition ok_response : Response :=
  mkResponse 200 ∅ (mkBody FromTransport ["{}"]%string None).

Definition accepting_decoder {T} (v : T) : Body → T → T * option foreign * Body :=
  fun b _ => (v, None, exhausted b).

Definition sample_basicAuth (user pass : string) : string :=
  ("Basic " +:+ user +:+ ":" +:+ pass)%string.

Definition sample_resource (created : float64) : Resource.t :=
  Resource.mk 1 "bear" "" "" zeroTime created [] zeroTime (S754_zero false) []
    zeroTime (S754_zero false) zeroTime (S754_zero false) "" [] [] "".

End Coverage.

(** * Properties *)

(** ** The collaborators on sample inputs *)

Module Samples.
Import GoInt GoTime GoFloat Params GoHTTP Client Intel Host Claims.

Example Itoa_samples :
  Itoa 0 = "0"%string ∧ Itoa 10 = "10"%string ∧ Itoa (-42) = "-42"%string.
Proof. by vm_compute. Qed.

Example Format_RFC3339_samples :
  Format_RFC3339 (fun _ => 0) zeroTime = "0001-01-01T00:00:00Z"%string
  ∧ Format_RFC3339 (fun _ => 0) (time_Unix 0 0) = "1970-01-01T00:00:00Z"%string
  ∧ Format_RFC3339 (fun _ => 0) (time_Unix 1700000000 0) = "2023-11-14T22:13:20Z"%string
  ∧ Format_RFC3339 (fun _ => 3600) (time_Unix 951782400 0)
    = "2000-02-29T01:00:00+01:00"%string
  ∧ Format_RFC3339 (fun _ => -19800) (time_Unix 1700000000 0)
    = "2023-11-14T16:43:20-05:30"%string.
Proof. by vm_compute. Qed.

Example zeroTime_samples :
  IsZero zeroTime = true ∧ Unix zeroTime = -62135596800
  ∧ IsZero (time_Unix 0 0) = false.
Proof. by vm_compute. Qed.

Example int64_of_float64_samples :
  int64_of_float64 least_int64 one_and_a_half = 1
  ∧ int64_of_float64 least_int64 minus_one_and_a_half = -1
  ∧ int64_of_float64 least_int64 (S754_zero false) = 0
  ∧ int64_of_float64 least_int64 S754_nan = - 2 ^ 63.
Proof. by vm_compute. Qed.

Example CanonicalMIMEHeaderKey_samples :
  CanonicalMIMEHeaderKey AuthHeaderID = "X-Csix-Custid"%string
  ∧ CanonicalMIMEHeaderKey "accept" = "Accept"%string
  ∧ CanonicalMIMEHeaderKey "not a token" = "not a token"%string.
Proof. by vm_compute. Qed.

Example HasSuffix_samples :
  HasSuffix DefaultURL "/" = true ∧ HasSuffix "http://localhost:8080" "/" = false
  ∧ HasSuffix "" "/" = false.
Proof. by vm_compute. Qed.

Example Values_Encode_sample :
  Values_Encode (fun s => s)
    (snd (actorRequestToParams
            (ActorRequest.mk "" "bear" "" None None None None [""; "ru"]%string [] [] [] []
               [mkSortField "name" true] (mkPaging 0 0))))
  = "fields=__basic__&limit=10&name=bear&offset=0&origins=ru&sort=name.asc"%string.
Proof. by vm_compute. Qed.

End Samples.

(** ** The parameter multi-map *)

Module ParamsFacts.
Import GoInt GoTime Params Claims.

Lemma Values_at_Add_eq key value (v : Values) :
  Values_at key (Values_Add key value v) = Values_at key v ++ [value].
Proof. unfold Values_at at 1, Values_Add. by rewrite lookup_insert_eq. Qed.

Lemma Values_at_Add_ne key key' value (v : Values) :
  key ≠ key' → Values_at key' (Values_Add key value v) = Values_at key' v.
Proof. intros. unfold Values_at, Values_Add. by rewrite lookup_insert_ne. Qed.

Lemma lookup_Add_ne key key' value (v : Values) :
  key ≠ key' → Values_Add key value v !! key' = v !! key'.
Proof. intros. unfold Values_Add. by rewrite lookup_insert_ne. Qed.

Lemma Values_at_addString_eq name val (v : Values) :
  Values_at name (addString name val v) = Values_at name v ++ entry val.
Proof.
  unfold addString, entry. case_decide.
  - by rewrite app_nil_r.
  - apply Values_at_Add_eq.
Qed.

Lemma lookup_addString_ne name key val (v : Values) :
  name ≠ key → addString name val v !! key = v !! key.
Proof. intros. unfold addString. case_decide; [done|]. by apply lookup_Add_ne. Qed.

Lemma Values_at_addString_ne name key val (v : Values) :
  name ≠ key → Values_at key (addString name val v) = Values_at key v.
Proof. intros. unfold Values_at. by rewrite lookup_addString_ne. Qed.

Lemma Values_at_addStringArr_eq name val (v : Values) :
  Values_at name (addStringArr name val v)
  = Values_at name v ++ List.filter (fun s => negb (String.eqb s "")) val.
Proof.
  unfold addStringArr. revert v.
  induction val as [|s val IH]; intros v; simpl.
  - by rewrite app_nil_r.
  - rewrite IH, Values_at_addString_eq, <- app_assoc. f_equal.
    unfold entry. case_decide as Hs.
    + subst s. done.
    + apply String.eqb_neq in Hs. by rewrite Hs.
Qed.

Lemma lookup_addStringArr_ne name key val (v : Values) :
  name ≠ key → addStringArr name val v !! key = v !! key.
Proof.
  intros Hne. unfold addStringArr. revert v.
  induction val as [|s val IH]; intros v; simpl; [done|].
  by rewrite IH, lookup_addString_ne.
Qed.

Lemma Values_at_addStringArr_ne name key val (v : Values) :
  name ≠ key → Values_at key (addStringArr name val v) = Values_at key v.
Proof. intros. unfold Values_at. by rewrite lookup_addStringArr_ne. Qed.

Lemma sortValue_nonempty sf : sortValue sf ≠ ""%string.
Proof. unfold sortValue. destruct sf as [[|a n] []]; simpl; discriminate. Qed.

Lemma Values_at_addSortFields_eq name sfs (v : Values) :
  Values_at name (addSortFields name sfs v) = Values_at name v ++ (sortValue <$> sfs).
Proof.
  unfold addSortFields. revert v.
  induction sfs as [|sf sfs IH]; intros v; simpl.
  - by rewrite app_nil_r.
  - rewrite IH, Values_at_addString_eq, <- app_assoc. f_equal.
    unfold entry. case_decide as Hs; [|done].
    by destruct (sortValue_nonempty sf).
Qed.

Lemma lookup_addSortFields_ne name key sfs (v : Values) :
  name ≠ key → addSortFields name sfs v !! key = v !! key.
Proof.
  intros Hne. unfold addSortFields. revert v.
  induction sfs as [|sf sfs IH]; intros v; simpl; [done|].
  by rewrite IH, lookup_addString_ne.
Qed.

Lemma Values_at_addSortFields_ne name key sfs (v : Values) :
  name ≠ key → Values_at key (addSortFields name sfs v) = Values_at key v.
Proof. intros. unfold Values_at. by rewrite lookup_addSortFields_ne. Qed.

(** A decimal numeral is never the empty string. *)
Lemma pretty_N_go_nonempty x s : s ≠ ""%string → pretty_N_go x s ≠ ""%string.
Proof.
  revert s. induction (N.lt_wf_0 x) as [x _ IH]; intros s Hs.
  destruct (decide (x = 0%N)) as [->|Hx].
  - by rewrite pretty_N_go_0.
  - rewrite pretty_N_go_step by lia. apply IH; [|done].
    apply N.div_lt; lia.
Qed.

Lemma pretty_pos_nonempty (p : positive) : pretty p ≠ ""%string.
Proof.
  unfold pretty, pretty_positive, pretty, pretty_N.
  case_decide; [done|].
  rewrite pretty_N_go_step by lia. by apply pretty_N_go_nonempty.
Qed.

Lemma Itoa_nonempty n : Itoa n ≠ ""%string.
Proof.
  unfold Itoa, pretty, pretty_Z. destruct n as [|p|p]; [done| |done].
  apply pretty_pos_nonempty.
Qed.

Lemma Values_at_addInt_eq name n (v : Values) :
  Values_at name (addInt name n v) = Values_at name v ++ [Itoa n].
Proof.
  unfold addInt. rewrite Values_at_addString_eq. unfold entry.
  case_decide as H; [|done]. by destruct (Itoa_nonempty n).
Qed.

Lemma Values_at_addInt_ne name key n (v : Values) :
  name ≠ key → Values_at key (addInt name n v) = Values_at key v.
Proof. intros. unfold addInt. by apply Values_at_addString_ne. Qed.

Lemma Values_at_addTime_eq name t (v : Values) :
  Values_at name (addTime name t v)
  = Values_at name v
    ++ match t with
       | Some t => if IsZero t then [] else [FormatInt10 (Unix t)]
       | None => []
       end.
Proof.
  unfold addTime. destruct t as [t|]; [|by rewrite app_nil_r].
  destruct (IsZero t); simpl; [by rewrite app_nil_r|]. apply Values_at_Add_eq.
Qed.

Lemma Values_at_addTime_ne name key t (v : Values) :
  name ≠ key → Values_at key (addTime name t v) = Values_at key v.
Proof.
  intros. unfold addTime. destruct t as [t|]; [|done].
  destruct (IsZero t); simpl; [done|]. by apply Values_at_Add_ne.
Qed.

Lemma Values_at_addRFCTime_eq lo name t (v : Values) :
  Values_at name (addRFCTime lo name t v)
  = Values_at name v
    ++ match t with Some t => [Format_RFC3339 lo t] | None => [] end.
Proof.
  unfold addRFCTime. destruct t as [t|]; [|by rewrite app_nil_r].
  apply Values_at_Add_eq.
Qed.

Lemma Values_at_addRFCTime_ne lo name key t (v : Values) :
  name ≠ key → Values_at key (addRFCTime lo name t v) = Values_at key v.
Proof.
  intros. unfold addRFCTime. destruct t as [t|]; [|done]. by apply Values_at_Add_ne.
Qed.

Lemma Values_at_empty key : Values_at key (∅ : Values) = [].
Proof. done. Qed.

(** Reading one key of a chain of encoder calls: calls on other keys are
    skipped, calls on the key itself contribute their entries. *)
Ltac skip_key :=
  first
    [ rewrite Values_at_addInt_ne by done
    | rewrite Values_at_addSortFields_ne by done
    | rewrite Values_at_addStringArr_ne by done
    | rewrite Values_at_addTime_ne by done
    | rewrite Values_at_addRFCTime_ne by done
    | rewrite Values_at_addString_ne by done
    | rewrite Values_at_Add_ne by done ].

Ltac read_key :=
  repeat
    first
      [ skip_key
      | rewrite Values_at_addInt_eq
      | rewrite Values_at_addSortFields_eq
      | rewrite Values_at_addStringArr_eq
      | rewrite Values_at_addTime_eq
      | rewrite Values_at_addRFCTime_eq
      | rewrite Values_at_addString_eq
      | rewrite Values_at_Add_eq
      | rewrite Values_at_empty ].

End ParamsFacts.

(** ** The encoders of the requests *)

Module EncoderFacts.
Import GoInt GoTime Params Intel Host Claims ParamsFacts.

#[local] Arguments addStringArr : simpl never.
#[local] Arguments addSortFields : simpl never.
#[local] Arguments List.filter : simpl never.

Lemma delete_Add key value (v : Values) :
  delete key (Values_Add key value v) = delete key v.
Proof. unfold Values_Add. apply delete_insert_eq. Qed.

Lemma delete_addString name val (v : Values) :
  delete name (addString name val v) = delete name v.
Proof. unfold addString. case_decide; [done|]. apply delete_Add. Qed.

Lemma delete_addStringArr name val (v : Values) :
  delete name (addStringArr name val v) = delete name v.
Proof.
  unfold addStringArr. revert v.
  induction val as [|s val IH]; intros v; simpl; [done|].
  by rewrite IH, delete_addString.
Qed.

Lemma delete_addSortFields name sfs (v : Values) :
  delete name (addSortFields name sfs v) = delete name v.
Proof.
  unfold addSortFields. revert v.
  induction sfs as [|s sfs IH]; intros v; simpl; [done|].
  by rewrite IH, delete_addString.
Qed.

(** C1, as stated, fails: an empty string in a list field contributes no
    entry, so the list ["a"; ""; "b"] yields two entries for three
    elements. *)
Lemma C1_empty_element_skipped :
  ¬ one_entry_per_element "origins" ["a"; ""; "b"]%string ∅
  ∧ Values_at "origins" (addStringArr "origins" ["a"; ""; "b"]%string ∅)
    = ["a"; "b"]%string.
Proof. split; [|reflexivity]. unfold one_entry_per_element. vm_compute. discriminate. Qed.

(** C1, amended: [addStringArr] appends the non-empty elements of the
    list, one entry each and in source order, under the one key it is
    given and touches no other key; an empty list changes nothing; the
    list ["a"; "b"] contributes the key twice, "a" then "b". So do the
    list fields of the actor request (origins, target countries, target
    industries) and of the IOC search request. *)
Theorem C1_list_field_entries :
  (∀ name val (params : Values),
     Values_at name (addStringArr name val params)
     = Values_at name params ++ List.filter nonempty val
     ∧ delete name (addStringArr name val params) = delete name params)
  ∧ (∀ name (params : Values), addStringArr name [] params = params)
  ∧ (∀ name, Values_at name (addStringArr name ["a"; "b"]%string ∅) = ["a"; "b"]%string)
  ∧ (∀ req,
       let params := snd (actorRequestToParams req) in
       Values_at "origins" params = List.filter nonempty (ActorRequest.Origins req)
       ∧ Values_at "target_countries" params
         = List.filter nonempty (ActorRequest.TargetCountries req)
       ∧ Values_at "target_industries" params
         = List.filter nonempty (ActorRequest.TargetIndustries req))
  ∧ (∀ localOffset req,
       let params := searchRequestToParams localOffset req in
       Values_at "types" params = List.filter nonempty (SearchIOCsRequest.Types req)
       ∧ Values_at "values" params = List.filter nonempty (SearchIOCsRequest.Values req)
       ∧ Values_at "policies" params = List.filter nonempty (SearchIOCsRequest.Policies req)
       ∧ Values_at "share_levels" params
         = List.filter nonempty (SearchIOCsRequest.ShareLevels req)
       ∧ Values_at "sources" params = List.filter nonempty (SearchIOCsRequest.Sources req)).
Proof.
  split; [|split; [|split; [|split]]].
  - intros. split; [apply Values_at_addStringArr_eq | apply delete_addStringArr].
  - done.
  - intros. by rewrite Values_at_addStringArr_eq.
  - intros req params. subst params. unfold actorRequestToParams.
    destruct req as [q n d t1 t2 t3 t4 o tc ti m [|f0 f] sf [off lim]];
      simpl; destruct (lim =? 0); simpl; repeat split; by read_key.
  - intros lo req params. subst params. unfold searchRequestToParams.
    destruct req as [ty va po sh so t1 t2 [s|] [off lim]];
      simpl; destruct (lim =? 0), (off =? 0); simpl; repeat split; by read_key.
Qed.

Lemma Values_at_singleton key k val :
  Values_at key ({[ k := val ]} : Values) = if decide (k = key) then val else [].
Proof.
  unfold Values_at. case_decide as H.
  - subst. by rewrite lookup_singleton_eq.
  - by rewrite lookup_singleton_ne.
Qed.

(** The actor encoder goes over the motivations twice. *)
Lemma actorRequestToParams_motivations req :
  Values_at "motivations" (snd (actorRequestToParams req))
  = List.filter nonempty (ActorRequest.Motivations req)
    ++ List.filter nonempty (ActorRequest.Motivations req).
Proof.
  unfold actorRequestToParams.
  destruct req as [q n d t1 t2 t3 t4 o tc ti m [|f0 f] sf [off lim]];
    simpl; destruct (lim =? 0); simpl; by read_key.
Qed.

(** *** Defaults *)

(** C2, as stated, fails: the zero offset of an actor request stays zero
    and is encoded as "0", and the IOC search encoder gives a zero limit
    no default and no parameter. *)
Lemma C2_zero_offset_not_defaulted :
  Offset (ActorRequest.Paging (fst (actorRequestToParams (actor_request 0 0)))) = 0
  ∧ Values_at "offset" (snd (actorRequestToParams (actor_request 0 0))) = ["0"]%string
  ∧ Values_at "limit"
      (searchRequestToParams (fun _ => 0)
         (SearchIOCsRequest.mk [] [] [] [] [] None None None (mkPaging 0 0))) = [].
Proof. repeat split; reflexivity. Qed.

(** C2, amended: the actor encoder replaces a zero limit by 10 and an
    empty field selection by the basic-fields sentinel in the request and
    leaves the offset as it is; the indicator encoder replaces a zero
    page by 1 and a zero page size by 10 in the request; the values of
    the request after defaulting are the ones encoded. The IOC search
    encoder applies no default: a zero limit or offset is left out. *)
Theorem C2_defaults :
  (∀ req,
     let req' := fst (actorRequestToParams req) in
     let params := snd (actorRequestToParams req) in
     Limit (ActorRequest.Paging req')
     = (if Limit (ActorRequest.Paging req) =? 0 then 10
        else Limit (ActorRequest.Paging req))
     ∧ ActorRequest.Fields req'
       = match ActorRequest.Fields req with
         | [] => [BasicFields]
         | _ => ActorRequest.Fields req
         end
     ∧ Offset (ActorRequest.Paging req') = Offset (ActorRequest.Paging req)
     ∧ Values_at "limit" params = [Itoa (Limit (ActorRequest.Paging req'))]
     ∧ Values_at "fields" params = List.filter nonempty (ActorRequest.Fields req')
     ∧ Values_at "offset" params = [Itoa (Offset (ActorRequest.Paging req))])
  ∧ (∀ req,
       let req' := fst (indicatorRequestToParams req) in
       let params := snd (indicatorRequestToParams req) in
       IndicatorRequest.Page req'
       = (if IndicatorRequest.Page req =? 0 then 1 else IndicatorRequest.Page req)
       ∧ IndicatorRequest.PerPage req'
         = (if IndicatorRequest.PerPage req =? 0 then 10
            else IndicatorRequest.PerPage req)
       ∧ Values_at "page" params
         = (if decide (IndicatorRequest.Filter req = "page"%string)
            then [IndicatorRequest.Value req] else [])
           ++ [Itoa (IndicatorRequest.Page req')]
       ∧ Values_at "perPage" params
         = (if decide (IndicatorRequest.Filter req = "perPage"%string)
            then [IndicatorRequest.Value req] else [])
           ++ [Itoa (IndicatorRequest.PerPage req')])
  ∧ (∀ localOffset req,
       let params := searchRequestToParams localOffset req in
       Values_at "limit" params
       = (if Limit (SearchIOCsRequest.Paging req) =? 0 then []
          else [Itoa (Limit (SearchIOCsRequest.Paging req))])
       ∧ Values_at "offset" params
         = (if Offset (SearchIOCsRequest.Paging req) =? 0 then []
            else [Itoa (Offset (SearchIOCsRequest.Paging req))])).
Proof.
  split; [|split].
  - intros req req' params. subst req' params. unfold actorRequestToParams.
    destruct req as [q n d t1 t2 t3 t4 o tc ti m [|f0 f] sf [off lim]];
      simpl; destruct (lim =? 0); simpl; repeat split; by read_key.
  - intros req req' params. subst req' params. unfold indicatorRequestToParams.
    destruct req as [pa fi va [so|] pg pp];
      simpl; destruct (pg =? 0); simpl; destruct (pp =? 0); simpl; repeat split;
      read_key; by rewrite ?Values_at_singleton.
  - intros lo req params. subst params. unfold searchRequestToParams.
    destruct req as [ty va po sh so t1 t2 [s|] [off lim]];
      simpl; destruct (lim =? 0), (off =? 0); simpl; repeat split; by read_key.
Qed.

(** *** Time fields *)

(** C3, as stated, fails for the host family: [addRFCTime] tests the
    pointer only, so the zero time is encoded. *)
Lemma C3_host_zero_time_encoded :
  ¬ contributes_iff_set (fun _ => 0) (Some zeroTime)
  ∧ Values_at "from.expiration_timestamp"
      (searchRequestToParams (fun _ => 0)
         (SearchIOCsRequest.mk [] [] [] [] [] (Some zeroTime) None None (mkPaging 0 0)))
    = ["0001-01-01T00:00:00Z"]%string.
Proof.
  split; [|reflexivity].
  intros [H _]. destruct H as (t' & [= <-] & Hz); [by vm_compute|].
  by vm_compute in Hz.
Qed.

(** C3, amended: a time field of the intelligence family contributes
    exactly when it is non-null and non-zero, as the decimal of its Unix
    seconds; a time field of the host family contributes exactly when it
    is non-null, the zero time included, as RFC3339 text. *)
Theorem C3_time_fields :
  (∀ name t (params : Values),
     Values_at name (addTime name t params)
     = Values_at name params
       ++ match t with
          | Some t => if IsZero t then [] else [FormatInt10 (Unix t)]
          | None => []
          end)
  ∧ (∀ localOffset name t (params : Values),
       Values_at name (addRFCTime localOffset name t params)
       = Values_at name params
         ++ match t with
            | Some t => [Format_RFC3339 localOffset t]
            | None => []
            end)
  ∧ (∀ req,
       let params := snd (actorRequestToParams req) in
       let enc (t : option Time) :=
         match t with
         | Some t => if IsZero t then [] else [FormatInt10 (Unix t)]
         | None => []
         end in
       Values_at "min_last_modified_date" params
       = enc (ActorRequest.MinLastModifiedDate req)
       ∧ Values_at "max_last_modified_date" params
         = enc (ActorRequest.MaxLastModifieldDate req)
       ∧ Values_at "min_last_activity_date" params
         = enc (ActorRequest.MinLastActivityDate req)
       ∧ Values_at "max_last_activity_date" params
         = enc (ActorRequest.MaxLastActivityDate req))
  ∧ (∀ localOffset req,
       let params := searchRequestToParams localOffset req in
       let enc (t : option Time) :=
         match t with Some t => [Format_RFC3339 localOffset t] | None => [] end in
       Values_at "from.expiration_timestamp" params
       = enc (SearchIOCsRequest.FromExpirationTimestamp req)
       ∧ Values_at "to.expiration_timestamp" params
         = enc (SearchIOCsRequest.ToExpirationTimestamp req)).
Proof.
  split; [|split; [|split]].
  - intros. apply Values_at_addTime_eq.
  - intros. apply Values_at_addRFCTime_eq.
  - intros req params enc. subst params enc. unfold actorRequestToParams.
    destruct req as [q n d t1 t2 t3 t4 o tc ti m [|f0 f] sf [off lim]];
      simpl; destruct (lim =? 0); simpl; repeat split; by read_key.
  - intros lo req params enc. subst params enc. unfold searchRequestToParams.
    destruct req as [ty va po sh so t1 t2 [s|] [off lim]];
      simpl; destruct (lim =? 0), (off =? 0); simpl; repeat split; by read_key.
Qed.

(** *** Sort fields *)

(** C4, as stated, fails for the indicator search: the name goes under
    "sort" and the direction under "order". *)
Lemma C4_indicator_sort_split :
  ¬ sort_is_single_value indicator_request_sorted_desc
  ∧ Values_at "sort" (snd (indicatorRequestToParams indicator_request_sorted_desc))
    = ["x"]%string
  ∧ Values_at "order" (snd (indicatorRequestToParams indicator_request_sorted_desc))
    = ["desc"]%string.
Proof.
  split; [|split; reflexivity].
  intros H. specialize (H _ eq_refl). vm_compute in H. discriminate.
Qed.

(** C4, amended: [addSortFields], which encodes the sort fields of the
    actor request and of the IOC search request, puts one value
    name + "." + ("asc" or "desc") per sort field under the key, in
    input order; {x, descending} gives "x.desc" and {x, ascending}
    gives "x.asc". The indicator search encodes its sort field as the
    name under "sort" and the direction under "order". *)
Theorem C4_sort_fields :
  (∀ sf, sortValue sf
         = ((Name sf +:+ ".") +:+ (if Ascending sf then "asc" else "desc"))%string)
  ∧ sortValue (mkSortField "x" false) = "x.desc"%string
  ∧ sortValue (mkSortField "x" true) = "x.asc"%string
  ∧ (∀ name sfs (params : Values),
       Values_at name (addSortFields name sfs params)
       = Values_at name params ++ (sortValue <$> sfs)
       ∧ delete name (addSortFields name sfs params) = delete name params)
  ∧ (∀ req,
       Values_at "sort" (snd (actorRequestToParams req))
       = sortValue <$> ActorRequest.SortFields req)
  ∧ (∀ localOffset req,
       Values_at "sort" (searchRequestToParams localOffset req)
       = match SearchIOCsRequest.Sort req with
         | Some sf => [sortValue sf]
         | None => []
         end)
  ∧ (∀ req,
       let params := snd (indicatorRequestToParams req) in
       Values_at "sort" params
       = (if decide (IndicatorRequest.Filter req = "sort"%string)
          then [IndicatorRequest.Value req] else [])
         ++ match IndicatorRequest.Sort req with
            | Some sf => [Name sf]
            | None => []
            end
       ∧ Values_at "order" params
         = (if decide (IndicatorRequest.Filter req = "order"%string)
            then [IndicatorRequest.Value req] else [])
           ++ match IndicatorRequest.Sort req with
              | Some sf => [if Ascending sf then "asc" else "desc"]%string
              | None => []
              end).
Proof.
  split; [|split; [|split; [|split; [|split; [|split]]]]].
  - intros [n []]; reflexivity.
  - reflexivity.
  - reflexivity.
  - intros. split; [apply Values_at_addSortFields_eq | apply delete_addSortFields].
  - intros req. unfold actorRequestToParams.
    destruct req as [q n d t1 t2 t3 t4 o tc ti m [|f0 f] sf [off lim]];
      simpl; destruct (lim =? 0); simpl; by read_key.
  - intros lo req. unfold searchRequestToParams.
    destruct req as [ty va po sh so t1 t2 [s|] [off lim]];
      simpl; destruct (lim =? 0), (off =? 0); simpl; by read_key.
  - intros req params. subst params. unfold indicatorRequestToParams.
    destruct req as [pa fi va [[sn sa]|] pg pp];
      simpl; destruct (pg =? 0); simpl; destruct (pp =? 0); simpl; split;
      read_key; rewrite ?Values_at_singleton; by rewrite ?app_nil_r.
Qed.

End EncoderFacts.

(** ** The timestamp normaliser *)

Module NormaliserFacts.
Import GoInt GoTime GoFloat Intel Claims.

Lemma wrap64_id z : in_int64 z → wrap64 z = z.
Proof.
  unfold in_int64, wrap64. intros Hz.
  rewrite Z.mod_small by lia. lia.
Qed.

(** The seconds of [time.Unix(z, 0)] read back are [z], also when the
    internal count of seconds wraps. *)
Lemma Unix_time_Unix z : in_int64 z → Unix (time_Unix z 0) = z.
Proof.
  intros Hz. unfold Unix, time_Unix, internalToUnix. simpl.
  unfold wrap64 at 1.
  replace (wrap64 (z + unixToInternal) + - unixToInternal + 2 ^ 63)
    with ((z + unixToInternal + 2 ^ 63) mod 2 ^ 64 - unixToInternal)
    by (unfold wrap64; lia).
  rewrite Zminus_mod_idemp_l.
  replace (z + unixToInternal + 2 ^ 63 - unixToInternal) with (z + 2 ^ 63) by lia.
  unfold in_int64 in Hz. rewrite Z.mod_small by lia. lia.
Qed.

Lemma pos_pow2 e : e < 0 → Z.pos (2 ^ Z.to_pos (- e)) = 2 ^ (- e).
Proof. intros. rewrite Pos2Z.inj_pow. f_equal. apply Z2Pos.id. lia. Qed.

(** The conversion discards the fraction: it rounds toward zero. *)
Lemma discard_fraction_toward_zero f z :
  discard_fraction f = Some z → z = round_toward_zero (Q_of_float f).
Proof.
  destruct f as [s|s| |s m e]; simpl; intros [= <-]; try done.
  unfold round_toward_zero, Qle_bool, Qceiling, Qfloor.
  destruct (Z.leb_spec 0 e) as [He|He].
  - assert (0 < Z.pos m * 2 ^ e)
      by (apply Z.mul_pos_pos; [lia|by apply Z.pow_pos_nonneg]).
    destruct s; simpl;
      match goal with |- context [?a <=? ?b] => destruct (Z.leb_spec a b) end;
      try lia; rewrite ?Z.opp_involutive, Z.div_1_r; lia.
  - destruct s; simpl; rewrite pos_pow2 by done; reflexivity.
Qed.

Lemma int64_of_float64_in_range u f z :
  discard_fraction f = Some z → in_int64 z → int64_of_float64 u f = z.
Proof.
  intros Hf Hz. unfold int64_of_float64. rewrite Hf.
  unfold in_int64 in Hz. unfold in_int64b.
  destruct (Z.leb_spec (- 2 ^ 63) z), (Z.ltb_spec z (2 ^ 63)); simpl; lia.
Qed.

(** [Resource.convertDates] leaves [LastModifiedDate] as the decoder left
    it. *)
Lemma Resource_convertDates_LastModifiedDate u r :
  Resource.LastModifiedDate (Resource_convertDates u r) = Resource.LastModifiedDate r.
Proof. done. Qed.

(** C5, as stated, fails: the epoch -1.5 is taken to second -1, while its
    floor is -2. *)
Lemma C5_negative_fraction_not_floored :
  is_float64 minus_one_and_a_half = true
  ∧ ¬ derived_is_floor least_int64 minus_one_and_a_half
  ∧ Unix (date_of_epoch least_int64 minus_one_and_a_half) = -1
  ∧ Qfloor (Q_of_float minus_one_and_a_half) = -2.
Proof.
  split; [reflexivity|]. split; [|split; reflexivity].
  unfold derived_is_floor. vm_compute. discriminate.
Qed.

(** C5, amended: for every epoch whose integer part fits [int64], the
    derived timestamp is the instant that many whole seconds after
    1970-01-01T00:00:00Z, where the integer part is the epoch rounded
    toward zero: the floor for an epoch that is not negative, the
    ceiling for a negative one. Each assignment of the normaliser
    derives its field in this way from the epoch it is paired with. *)
Theorem C5_epoch_rounded_toward_zero
    (unrepresentable : float64 → Z) (epoch : float64) (z : Z) :
  discard_fraction epoch = Some z →
  in_int64 z →
  z = round_toward_zero (Q_of_float epoch)
  ∧ date_of_epoch unrepresentable epoch = time_Unix z 0
  ∧ Unix (date_of_epoch unrepresentable epoch) = z
  ∧ nsec (date_of_epoch unrepresentable epoch) = 0
  ∧ (∀ r, Relation.CreatedDate (Relation_convertDates unrepresentable r)
          = date_of_epoch unrepresentable (Relation.CreatedDateEpoch r)
          ∧ Relation.LastValidDate (Relation_convertDates unrepresentable r)
            = date_of_epoch unrepresentable (Relation.LastValidDateEpoch r))
  ∧ (∀ l, Label.CreatedOn (Label_convertDates unrepresentable l)
          = date_of_epoch unrepresentable (Label.CreatedOnEpoch l)
          ∧ Label.LastValidOn (Label_convertDates unrepresentable l)
            = date_of_epoch unrepresentable (Label.LastValidOnEpoch l))
  ∧ (∀ ir, let ir' := IndicatorResponse_convertDates unrepresentable ir in
           IndicatorResponse.LastUpdated ir'
           = date_of_epoch unrepresentable (IndicatorResponse.LastUpdatedEpoch ir)
           ∧ IndicatorResponse.PublishedDate ir'
             = date_of_epoch unrepresentable (IndicatorResponse.PublishedDateEpoch ir)
           ∧ IndicatorResponse.Relations ir'
             = Relation_convertDates unrepresentable <$> IndicatorResponse.Relations ir
           ∧ IndicatorResponse.Labels ir'
             = Label_convertDates unrepresentable <$> IndicatorResponse.Labels ir)
  ∧ (∀ r, let r' := Resource_convertDates unrepresentable r in
          Resource.CreatedDate r'
          = date_of_epoch unrepresentable (Resource.CreatedEpoch r)
          ∧ Resource.FirstActivityDate r'
            = date_of_epoch unrepresentable (Resource.FirstActivityEpoch r)
          ∧ Resource.LastActivityDate r'
            = date_of_epoch unrepresentable (Resource.LastActivityEpoch r)).
Proof.
  intros Hf Hz.
  assert (date_of_epoch unrepresentable epoch = time_Unix z 0) as Hd.
  { unfold date_of_epoch. by rewrite (int64_of_float64_in_range _ _ z). }
  split; [by apply discard_fraction_toward_zero|].
  split; [done|]. rewrite Hd.
  split; [by apply Unix_time_Unix|].
  split; [done|].
  repeat split.
Qed.

(** The epoch 1.5 is taken to second 1. *)
Lemma C5_epoch_rounded_toward_zero_witness :
  discard_fraction one_and_a_half = Some 1
  ∧ Unix (date_of_epoch least_int64 one_and_a_half) = 1.
Proof.
  split; [reflexivity|].
  apply (C5_epoch_rounded_toward_zero least_int64 one_and_a_half 1);
    [reflexivity | unfold in_int64; lia].
Defined.

End NormaliserFacts.

(** ** Construction of a client *)

Module ConstructionFacts.
Import GoInt Params GoHTTP Client Intel Host IntelClient HostClient Claims.

Lemma trace_bind {A B} (m : Eff A) (k : A → Eff B) :
  trace (m ≫= k) = trace m ++ trace (k (value m)).
Proof.
  unfold mbind, Eff_bind, bind, trace, value.
  destruct m as [t1 a]; simpl. by destruct (k a).
Qed.

Lemma value_bind {A B} (m : Eff A) (k : A → Eff B) :
  value (m ≫= k) = value (k (value m)).
Proof.
  unfold mbind, Eff_bind, bind, trace, value.
  destruct m as [t1 a]; simpl. by destruct (k a).
Qed.

Lemma value_errorf_bind {B} cl m (k : unit → Eff B) :
  value (errorf cl m ≫= k) = value (k tt).
Proof. rewrite value_bind. by destruct (value (errorf cl m)). Qed.

Lemma value_tracef_bind {B} cl m (k : unit → Eff B) :
  value (tracef cl m ≫= k) = value (k tt).
Proof. rewrite value_bind. by destruct (value (tracef cl m)). Qed.

Lemma run_options_cons o options cl :
  value (run_options (o :: options) cl)
  = match value (o cl) with
    | inl err => inl err
    | inr cl' => value (run_options options cl')
    end.
Proof. simpl. rewrite value_bind. by destruct (value (o cl)). Qed.

Lemma run_options_app options1 options2 cl :
  value (run_options (options1 ++ options2) cl)
  = match value (run_options options1 cl) with
    | inl err => inl err
    | inr cl' => value (run_options options2 cl')
    end.
Proof.
  revert cl. induction options1 as [|o options1 IH]; intros cl; [done|].
  rewrite <- app_comm_cons, !run_options_cons.
  destruct (value (o cl)); [done|]. apply IH.
Qed.

(** The check of the credentials, on the client the options leave. *)
Lemma check_credentials_missing cl :
  id cl = ""%string ∨ key cl = ""%string →
  value (check_credentials cl) = inl (GocsError ErrMissingCredentials).
Proof.
  intros H. unfold check_credentials. rewrite value_tracef_bind.
  assert (bool_decide (id cl = ""%string) || bool_decide (key cl = ""%string) = true) as ->.
  { destruct H as [H|H]; rewrite (bool_decide_eq_true_2 _ H); [done|].
    by rewrite orb_true_r. }
  by rewrite value_errorf_bind.
Qed.

Lemma check_credentials_present cl :
  id cl ≠ ""%string → key cl ≠ ""%string → value (check_credentials cl) = inr cl.
Proof.
  intros H1 H2. unfold check_credentials. rewrite value_tracef_bind.
  by rewrite (bool_decide_eq_false_2 _ H1), (bool_decide_eq_false_2 _ H2).
Qed.

Lemma newClient_value DefaultClient options :
  value (newClient DefaultClient options)
  = match value (run_options options (blank DefaultClient)) with
    | inl err => inl err
    | inr cl => value (check_credentials cl)
    end.
Proof.
  unfold newClient. rewrite value_bind. fold (blank DefaultClient).
  by destruct (value (run_options options (blank DefaultClient))).
Qed.

Section Parse.
Variable url_Parse : string → foreign + string.

(** [SetURL] on a URL that parses with scheme http or https. *)
Lemma SetURL_accepts rawurl scheme cl :
  rawurl ≠ ""%string →
  url_Parse rawurl = inr scheme →
  scheme = "http"%string ∨ scheme = "https"%string →
  value (SetURL url_Parse rawurl cl)
  = inr (with_url (if HasSuffix rawurl "/" then rawurl else (rawurl +:+ "/")%string) cl).
Proof.
  intros Hne Hp Hs. unfold SetURL. rewrite decide_False by done. rewrite Hp.
  assert (negb (String.eqb scheme "http") && negb (String.eqb scheme "https") = false) as ->.
  { by destruct Hs as [-> | ->]. }
  unfold with_url. by destruct (HasSuffix rawurl "/").
Qed.

Lemma SetURL_empty cl :
  url_Parse DefaultURL = inr "https"%string →
  value (SetURL url_Parse "" cl) = inr (with_url DefaultURL cl).
Proof.
  intros Hp. unfold SetURL. rewrite decide_True by done. by rewrite Hp.
Qed.

Lemma SetURL_DefaultURL cl :
  url_Parse DefaultURL = inr "https"%string →
  value (SetURL url_Parse DefaultURL cl) = inr (with_url DefaultURL cl).
Proof.
  intros Hp. unfold SetURL. rewrite decide_False by done. by rewrite Hp.
Qed.

Lemma SetURL_DefaultURLHost cl :
  url_Parse DefaultURLHost = inr "https"%string →
  value (SetURL url_Parse DefaultURLHost cl) = inr (with_url DefaultURLHost cl).
Proof.
  intros Hp. unfold SetURL. rewrite decide_False by done. by rewrite Hp.
Qed.

Lemma SetURL_keeps_credentials rawurl : keeps_credentials (SetURL url_Parse rawurl).
Proof.
  intros cl cl'. unfold SetURL.
  destruct (url_Parse _) as [e|scheme].
  - by rewrite value_errorf_bind.
  - destruct (negb _ && negb _).
    + by rewrite value_errorf_bind.
    + by intros [= <-].
Qed.
End Parse.

Lemma SetErrorLog_keeps_credentials l : keeps_credentials (SetErrorLog l).
Proof. by intros cl cl' [= <-]. Qed.

Lemma SetTraceLog_keeps_credentials l : keeps_credentials (SetTraceLog l).
Proof. by intros cl cl' [= <-]. Qed.

Lemma SetHTTPClient_keeps_credentials d h : keeps_credentials (SetHTTPClient d h).
Proof. intros cl cl'. by destruct h; intros [= <-]. Qed.

Lemma run_options_keeps_credentials options cl cl' :
  Forall keeps_credentials options →
  value (run_options options cl) = inr cl' →
  id cl' = id cl ∧ key cl' = key cl.
Proof.
  intros Hall. revert cl. induction Hall as [|o options Ho _ IH]; intros cl.
  - by intros [= <-].
  - rewrite run_options_cons. destruct (value (o cl)) as [e|cl1] eqn:Ho1; [done|].
    intros Hrun. destruct (Ho _ _ Ho1) as [<- <-]. by apply IH.
Qed.

Lemma Legacy_New_missing DefaultClient options cl :
  value (Legacy.run_options options (legacy_blank DefaultClient)) = inr cl →
  Legacy.id cl = ""%string ∨ Legacy.key cl = ""%string →
  value (Legacy.New DefaultClient options)
  = inl (Legacy.GocsError Legacy.ErrMissingCredentials).
Proof.
  intros Hrun H. unfold Legacy.New. fold (legacy_blank DefaultClient).
  rewrite value_bind, Hrun, value_bind.
  assert (bool_decide (Legacy.id cl = ""%string)
          || bool_decide (Legacy.key cl = ""%string) = true) as ->.
  { destruct H as [H|H]; rewrite (bool_decide_eq_true_2 _ H); [done|].
    by rewrite orb_true_r. }
  by rewrite value_bind.
Qed.

(** C8: when every option succeeds, construction fails with the
    missing-credentials error whenever the identifier or the secret of
    the client the options leave is empty; this holds for [newClient],
    [NewIntel], [NewHost] and the legacy [New]. The options other than
    [SetCredentials] leave the credentials as they are, so a
    construction from such options alone always ends in the
    missing-credentials error. *)
Theorem C8_credentials_checked_last
    (url_Parse : string → foreign + string) (DefaultClient : HTTPClient) :
  url_Parse DefaultURL = inr "https"%string →
  url_Parse DefaultURLHost = inr "https"%string →
  (∀ options cl,
     value (run_options options (blank DefaultClient)) = inr cl →
     id cl = ""%string ∨ key cl = ""%string →
     value (newClient DefaultClient options) = inl (GocsError ErrMissingCredentials))
  ∧ (∀ options cl,
       value (run_options options (with_url DefaultURL (blank DefaultClient))) = inr cl →
       id cl = ""%string ∨ key cl = ""%string →
       value (NewIntel url_Parse DefaultClient options)
       = inl (GocsError ErrMissingCredentials))
  ∧ (∀ options cl,
       value (run_options options (with_url DefaultURLHost (blank DefaultClient))) = inr cl →
       id cl = ""%string ∨ key cl = ""%string →
       value (NewHost url_Parse DefaultClient options)
       = inl (GocsError ErrMissingCredentials))
  ∧ (∀ options cl,
       value (Legacy.run_options options (legacy_blank DefaultClient)) = inr cl →
       Legacy.id cl = ""%string ∨ Legacy.key cl = ""%string →
       value (Legacy.New DefaultClient options)
       = inl (Legacy.GocsError Legacy.ErrMissingCredentials))
  ∧ (∀ options cl,
       Forall keeps_credentials options →
       value (run_options options (with_url DefaultURL (blank DefaultClient))) = inr cl →
       value (NewIntel url_Parse DefaultClient options)
       = inl (GocsError ErrMissingCredentials))
  ∧ (∀ options cl,
       Forall keeps_credentials options →
       value (run_options options (with_url DefaultURLHost (blank DefaultClient))) = inr cl →
       value (NewHost url_Parse DefaultClient options)
       = inl (GocsError ErrMissingCredentials))
  ∧ (∀ rawurl, keeps_credentials (SetURL url_Parse rawurl))
  ∧ (∀ l, keeps_credentials (SetErrorLog l))
  ∧ (∀ l, keeps_credentials (SetTraceLog l))
  ∧ (∀ h, keeps_credentials (SetHTTPClient DefaultClient h)).
Proof.
  intros Hi Hh.
  assert (∀ options cl,
            value (run_options options (with_url DefaultURL (blank DefaultClient))) = inr cl →
            id cl = ""%string ∨ key cl = ""%string →
            value (NewIntel url_Parse DefaultClient options)
            = inl (GocsError ErrMissingCredentials)) as HI.
  { intros options cl Hrun Hcl. unfold NewIntel. rewrite newClient_value.
    simpl app. rewrite run_options_cons, SetURL_DefaultURL by done.
    rewrite Hrun. by apply check_credentials_missing. }
  assert (∀ options cl,
            value (run_options options (with_url DefaultURLHost (blank DefaultClient))) = inr cl →
            id cl = ""%string ∨ key cl = ""%string →
            value (NewHost url_Parse DefaultClient options)
            = inl (GocsError ErrMissingCredentials)) as HH.
  { intros options cl Hrun Hcl. unfold NewHost. rewrite newClient_value.
    simpl app. rewrite run_options_cons, SetURL_DefaultURLHost by done.
    rewrite Hrun. by apply check_credentials_missing. }
  split; [|split; [done|split; [done|split; [|split; [|split]]]]].
  - intros options cl Hrun Hcl. rewrite newClient_value, Hrun.
    by apply check_credentials_missing.
  - intros. by eapply Legacy_New_missing.
  - intros options cl Hall Hrun. apply (HI options cl Hrun).
    destruct (run_options_keeps_credentials _ _ _ Hall Hrun) as [-> _]. by left.
  - intros options cl Hall Hrun. apply (HH options cl Hrun).
    destruct (run_options_keeps_credentials _ _ _ Hall Hrun) as [-> _]. by left.
  - split; [apply SetURL_keeps_credentials|].
    split; [apply SetErrorLog_keeps_credentials|].
    split; [apply SetTraceLog_keeps_credentials|apply SetHTTPClient_keeps_credentials].
Qed.

(** A host client built from an error log and a base URL, without
    credentials. *)
Lemma C8_credentials_checked_last_witness :
  scheme_of DefaultURL = inr "https"%string
  ∧ scheme_of DefaultURLHost = inr "https"%string
  ∧ value (NewHost scheme_of no_client options_without_credentials)
    = inl (GocsError ErrMissingCredentials).
Proof.
  split; [reflexivity|]. split; [reflexivity|].
  destruct (C8_credentials_checked_last scheme_of no_client eq_refl eq_refl)
    as (_ & _ & H & _).
  eapply H; [reflexivity|]. left. reflexivity.
Defined.

(** C10: [SetURL] with the empty string sets the base URL of any client
    to the default URL of the intelligence family; [newClient] itself
    installs no base URL, [NewIntel] and [NewHost] install theirs as a
    [SetURL] option put before the caller's options; so a [SetURL]
    option of the caller that is applied last decides the base URL, and
    [NewHost] with a final [SetURL("")] yields a host client on the
    default URL of the intelligence family. *)
Theorem C10_empty_url_is_intel_default
    (url_Parse : string → foreign + string) (DefaultClient : HTTPClient) :
  url_Parse DefaultURL = inr "https"%string →
  url_Parse DefaultURLHost = inr "https"%string →
  DefaultURL = "https://intelapi.crowdstrike.com/"%string
  ∧ (∀ cl, value (SetURL url_Parse "" cl) = inr (with_url DefaultURL cl))
  ∧ url (blank DefaultClient) = ""%string
  ∧ (∀ options,
       NewIntel url_Parse DefaultClient options
       = newClient DefaultClient (SetURL url_Parse DefaultURL :: options))
  ∧ (∀ options,
       NewHost url_Parse DefaultClient options
       = newClient DefaultClient (SetURL url_Parse DefaultURLHost :: options))
  ∧ (∀ options cl,
       value (run_options options (with_url DefaultURLHost (blank DefaultClient))) = inr cl →
       id cl ≠ ""%string → key cl ≠ ""%string →
       value (NewHost url_Parse DefaultClient (options ++ [SetURL url_Parse ""]))
       = inr (with_url DefaultURL cl))
  ∧ (∀ options cl rawurl scheme,
       value (run_options options (with_url DefaultURLHost (blank DefaultClient))) = inr cl →
       id cl ≠ ""%string → key cl ≠ ""%string →
       rawurl ≠ ""%string → url_Parse rawurl = inr scheme →
       scheme = "http"%string ∨ scheme = "https"%string →
       value (NewHost url_Parse DefaultClient (options ++ [SetURL url_Parse rawurl]))
       = inr (with_url (if HasSuffix rawurl "/" then rawurl else (rawurl +:+ "/")%string) cl))
  ∧ (∀ options cl rawurl scheme,
       value (run_options options (with_url DefaultURL (blank DefaultClient))) = inr cl →
       id cl ≠ ""%string → key cl ≠ ""%string →
       rawurl ≠ ""%string → url_Parse rawurl = inr scheme →
       scheme = "http"%string ∨ scheme = "https"%string →
       value (NewIntel url_Parse DefaultClient (options ++ [SetURL url_Parse rawurl]))
       = inr (with_url (if HasSuffix rawurl "/" then rawurl else (rawurl +:+ "/")%string) cl)).
Proof.
  intros Hi Hh.
  split; [reflexivity|]. split; [intros; by apply SetURL_empty|].
  split; [reflexivity|]. split; [reflexivity|]. split; [reflexivity|].
  split; [|split].
  - intros options cl Hrun Hid Hkey. unfold NewHost. rewrite newClient_value.
    simpl app. rewrite run_options_cons, SetURL_DefaultURLHost by done.
    rewrite run_options_app, Hrun, run_options_cons, SetURL_empty by done.
    simpl. by apply check_credentials_present.
  - intros options cl rawurl scheme Hrun Hid Hkey Hne Hp Hs.
    unfold NewHost. rewrite newClient_value.
    simpl app. rewrite run_options_cons, SetURL_DefaultURLHost by done.
    rewrite run_options_app, Hrun, run_options_cons.
    rewrite (SetURL_accepts _ _ scheme) by done.
    simpl. by apply check_credentials_present.
  - intros options cl rawurl scheme Hrun Hid Hkey Hne Hp Hs.
    unfold NewIntel. rewrite newClient_value.
    simpl app. rewrite run_options_cons, SetURL_DefaultURL by done.
    rewrite run_options_app, Hrun, run_options_cons.
    rewrite (SetURL_accepts _ _ scheme) by done.
    simpl. by apply check_credentials_present.
Qed.

(** A host client built with credentials and a final [SetURL] of the
    empty string. *)
Lemma C10_empty_url_is_intel_default_witness :
  scheme_of DefaultURL = inr "https"%string
  ∧ scheme_of DefaultURLHost = inr "https"%string
  ∧ match value (NewHost scheme_of no_client
                   (options_with_credentials ++ [SetURL scheme_of ""])) with
    | inr cl => url cl
    | inl _ => ""%string
    end = "https://intelapi.crowdstrike.com/"%string.
Proof.
  split; [reflexivity|]. split; [reflexivity|].
  destruct (C10_empty_url_is_intel_default scheme_of no_client eq_refl eq_refl)
    as (_ & _ & _ & _ & _ & H & _).
  erewrite H; [reflexivity | reflexivity | done | done].
Defined.

End ConstructionFacts.

(** ** The request pipeline *)

Module PipelineFacts.
Import GoInt Params GoHTTP Client Intel Host IntelClient HostClient Claims.
Import ConstructionFacts.

Lemma append_nil_r (s : string) : (s +:+ "")%string = s.
Proof.
  induction s as [|a s IH]; [done|].
  change (String a (s +:+ "") = String a s). by rewrite IH.
Qed.

Lemma append_assoc (s1 s2 s3 : string) :
  ((s1 +:+ s2) +:+ s3)%string = (s1 +:+ s2 +:+ s3)%string.
Proof.
  induction s1 as [|a s1 IH]; [done|].
  change (String a ((s1 +:+ s2) +:+ s3) = String a (s1 +:+ s2 +:+ s3)). by rewrite IH.
Qed.

Lemma count_app p (t1 t2 : list Event) : count p (t1 ++ t2) = (count p t1 + count p t2)%nat.
Proof. unfold count. by rewrite List.filter_app, length_app. Qed.

Lemma count_log p (t : list Event) :
  (∀ e, is_log e = true → p e = false) →
  Forall (fun e => is_log e = true) t → count p t = 0%nat.
Proof.
  intros Hp Ht. unfold count. induction Ht as [|e t He _ IH]; [done|].
  simpl. by rewrite (Hp e He).
Qed.

Lemma close_not_log e : is_log e = true → is_transport_close e = false.
Proof. by destruct e. Qed.
Lemma call_not_log e : is_log e = true → is_transport_call e = false.
Proof. by destruct e. Qed.
Lemma read_not_log e : is_log e = true → is_body_read e = false.
Proof. by destruct e. Qed.
Lemma decode_not_log e : is_log e = true → is_json_decode e = false.
Proof. by destruct e. Qed.

Lemma tracef_log cl m : Forall (fun e => is_log e = true) (trace (tracef cl m)).
Proof. unfold tracef. destruct (tracelog cl); simpl; by repeat constructor. Qed.

Lemma errorf_log cl m : Forall (fun e => is_log e = true) (trace (errorf cl m)).
Proof. unfold errorf. destruct (errorlog cl); simpl; by repeat constructor. Qed.

Section Pipeline.
Variable url_Parse : string → foreign + string.
Variable QueryEscape : string → string.
Variable StatusText : Z → string.

Abbreviation run := (do url_Parse QueryEscape StatusText).
Abbreviation handle := (deliver StatusText).

(** The shape of a call that reaches the transport and gets a
    response: log lines, the transport call, log lines, the delivery
    of the response, the deferred close. *)
Lemma do_with_response {W T} `{Writer W} cl method rawurl params body
    (result : Target W T) authFunc req resp :
  sent_request url_Parse QueryEscape cl method rawurl params body authFunc = inr req →
  c cl req = inr resp →
  ∃ pre post,
    Forall (fun e => is_log e = true) pre
    ∧ Forall (fun e => is_log e = true) post
    ∧ trace (run cl method rawurl params body result authFunc)
      = pre ++ [Transport req] ++ post
        ++ trace (handle cl resp result)
        ++ trace (Body_Close (RespBody resp))
    ∧ value (run cl method rawurl params body result authFunc)
      = value (handle cl resp result).
Proof.
  unfold sent_request, do. intros Hreq Hresp.
  destruct (http_NewRequest _ _ _ _) as [e|req0]; [done|].
  injection Hreq as Hreq. rewrite Hreq.
  exists (trace (match tracelog cl with
                 | Some _ =>
                     dumpRequest cl req ≫= λ _,
                       tracef cl (StartRequest
                         (if (0 <? size params)%nat
                          then (rawurl +:+ "?" +:+ Values_Encode QueryEscape params)%string
                          else rawurl))
                 | None => ret tt
                 end)),
         (trace (match tracelog cl with
                 | Some _ =>
                     tracef cl (EndRequest
                       (if (0 <? size params)%nat
                        then (rawurl +:+ "?" +:+ Values_Encode QueryEscape params)%string
                        else rawurl))
                 | None => ret tt
                 end)).
  split; [|split; [|split]].
  - unfold dumpRequest, tracef. destruct (tracelog cl); simpl; by repeat constructor.
  - unfold tracef. destruct (tracelog cl); simpl; by repeat constructor.
  - rewrite !trace_bind, Hresp, !trace_bind. simpl. by rewrite !app_nil_r.
  - rewrite !value_bind, Hresp, !value_bind. by destruct (value (deliver _ _ _ _)).
Qed.

Lemma status_outside resp :
  StatusCode resp < 200 ∨ 300 <= StatusCode resp →
  (StatusCode resp <? 200) || (300 <=? StatusCode resp) = true.
Proof.
  intros [H|H].
  - apply Z.ltb_lt in H. by rewrite H.
  - apply Z.leb_le in H. rewrite H. apply orb_true_r.
Qed.

Lemma status_inside resp :
  200 <= StatusCode resp < 300 →
  (StatusCode resp <? 200) || (300 <=? StatusCode resp) = false.
Proof.
  intros [H1 H2].
  apply Z.ltb_ge in H1. apply Z.leb_gt in H2. by rewrite H1, H2.
Qed.

Lemma DumpResponse_status resp :
  StatusCode (fst (value (DumpResponse resp))) = StatusCode resp.
Proof.
  destruct resp as [code h [k cs re]].
  destruct k, re as [e|]; by compute.
Qed.

Lemma dump_to_errorlog_status cl resp :
  StatusCode (value (dump_to_errorlog cl resp)) = StatusCode resp.
Proof.
  unfold dump_to_errorlog. destruct (errorlog cl) as [l|]; [|done].
  rewrite value_bind. pose proof (DumpResponse_status resp) as Hs.
  destruct (value (DumpResponse resp)) as [resp' [e|m]]; simpl in *; [done|].
  by rewrite value_bind.
Qed.


(** A response whose status is outside [200, 299]. *)
Lemma deliver_error_status {W T} `{Writer W} cl resp (result : Target W T) :
  StatusCode resp < 200 ∨ 300 <= StatusCode resp →
  value (handle cl resp result)
  = (result,
     Some (GocsError (mkError "http_error"
                        (http_error_message StatusText (StatusCode resp)))))
  ∧ trace (handle cl resp result)
    = trace (dump_to_errorlog cl resp)
      ++ trace (errorf cl (Text (http_error_message StatusText (StatusCode resp)))).
Proof.
  intros Hs. unfold deliver, handleError. rewrite (status_outside _ Hs).
  split.
  - rewrite !value_bind. simpl. by rewrite dump_to_errorlog_status.
  - rewrite !trace_bind, !value_bind. simpl.
    rewrite dump_to_errorlog_status. by rewrite !app_nil_r.
Qed.

(** A response whose status is inside [200, 299]: the error, if any,
    is one passed on from the sink, the body or the decoder. *)
Lemma deliver_ok_status {W T} `{Writer W} cl resp (result : Target W T) e :
  200 <= StatusCode resp < 300 →
  snd (value (handle cl resp result)) = Some e →
  ∃ f, e = ForeignError f.
Proof.
  intros Hs. unfold deliver, handleError. rewrite (status_inside _ Hs).
  rewrite value_bind. change (value (ret (resp, @None error))) with (resp, @None error).
  cbv beta iota. rewrite value_bind.
  destruct result as [|w|v decode].
  - done.
  - rewrite value_bind.
    destruct (value (io_Copy w _)) as [[w' [err|]] b]; [|done].
    intros [= <-]. by eexists.
  - rewrite !value_bind.
    destruct (decode _ v) as [[v' [err|]] b]; [|done].
    rewrite value_bind. intros [= <-]. by eexists.
Qed.

(** *** The raw path *)

Lemma copy_chunks_appends {W} `{Writer W} `{!WriterAppends W} cs (w w' : W) rest :
  copy_chunks w cs = (w', None, rest) →
  Bytes w' = (Bytes w +:+ foldr String.append "" cs)%string.
Proof.
  revert w. induction cs as [|c cs IH]; intros w; simpl.
  - intros [= <- _]. by rewrite append_nil_r.
  - case_decide as Hc.
    + subst c. apply IH.
    + destruct (Write w c) as [w1 [e|]] eqn:Hw; [done|].
      intros Hcopy. rewrite (IH _ Hcopy), (write_appends _ _ _ Hw).
      apply append_assoc.
Qed.

Lemma copy_chunks_never_fails {W} `{Writer W} cs (w : W) :
  never_fails W → ∃ w', copy_chunks w cs = (w', None, []).
Proof.
  intros Hnf. revert w. induction cs as [|c cs IH]; intros w; simpl.
  - by eexists.
  - case_decide; [apply IH|].
    pose proof (Hnf w c) as Hw.
    destruct (Write w c) as [w1 [e|]]; [done|]. apply IH.
Qed.

Lemma io_Copy_success {W} `{Writer W} `{!WriterAppends W} (w w' : W) src b :
  value (io_Copy w src) = (w', None, b) →
  Bytes w' = (Bytes w +:+ Body_bytes src)%string ∧ readErr src = None.
Proof.
  unfold io_Copy.
  destruct (copy_chunks w (chunks src)) as [[w1 [e|]] rest] eqn:Hcopy;
    rewrite value_bind; [done|].
  intros [= <- Hr _]. split; [|done].
  by apply (copy_chunks_appends _ _ _ rest).
Qed.

Lemma io_Copy_never_fails {W} `{Writer W} (w : W) src :
  never_fails W → readErr src = None →
  ∃ w' b, value (io_Copy w src) = (w', None, b).
Proof.
  intros Hnf Hr. unfold io_Copy.
  destruct (copy_chunks_never_fails (chunks src) w Hnf) as [w' ->].
  rewrite value_bind, Hr. by do 2 eexists.
Qed.

Lemma io_Copy_no_decode {W} `{Writer W} (w : W) src :
  count is_json_decode (trace (io_Copy w src)) = 0%nat.
Proof.
  unfold io_Copy, note_read.
  destruct (copy_chunks w (chunks src)) as [[w1 [e|]] rest];
    rewrite trace_bind; by destruct (kind src).
Qed.

(** The body the dump to the trace log leaves in the response yields
    the bytes of the body the transport handed over; a read error
    stays. *)
Lemma dumpResponse_body cl resp :
  match readErr (RespBody resp) with
  | None =>
      readErr (RespBody (value (dumpResponse cl resp))) = None
      ∧ Body_bytes (RespBody (value (dumpResponse cl resp)))
        = Body_bytes (RespBody resp)
  | Some e => readErr (RespBody (value (dumpResponse cl resp))) = Some e
  end.
Proof.
  destruct resp as [code h [k cs re]], cl as [i ky u el [l|] hc];
    destruct re as [e|]; try done.
  - by destruct k.
  - unfold dumpResponse, DumpResponse, drainBody, read_to_end.
    destruct k; cbn; [|done|]; unfold Body_bytes; cbn; case_decide as Hd; cbn;
      (split; [done|]); by rewrite ?Hd, ?append_nil_r.
Qed.

Lemma dumpResponse_no_decode cl resp :
  count is_json_decode (trace (dumpResponse cl resp)) = 0%nat.
Proof.
  destruct resp as [code h [k cs re]], cl as [i ky u el [l|] hc]; [|done].
  destruct re as [e|], k; by compute.
Qed.

Lemma deliver_to_writer {W T} `{Writer W} cl resp (w : W) :
  200 <= StatusCode resp < 300 →
  let r := value (io_Copy w (RespBody (value (dumpResponse cl resp)))) in
  value (handle cl resp (WriterTarget w : Target W T))
  = (WriterTarget (fst (fst r)), ForeignError <$> snd (fst r))
  ∧ trace (handle cl resp (WriterTarget w : Target W T))
    = trace (dumpResponse cl resp)
      ++ trace (io_Copy w (RespBody (value (dumpResponse cl resp)))).
Proof.
  intros Hs r. subst r. unfold deliver, handleError. rewrite (status_inside _ Hs).
  split.
  - rewrite value_bind. change (value (ret (resp, @None error))) with (resp, @None error).
    cbv beta iota. rewrite !value_bind.
    by destruct (value (io_Copy w _)) as [[w' [err|]] b].
  - rewrite trace_bind. change (value (ret (resp, @None error))) with (resp, @None error).
    cbv beta iota. rewrite !trace_bind. simpl.
    destruct (value (io_Copy w _)) as [[w' [err|]] b]; simpl; by rewrite app_nil_r.
Qed.

Lemma do_without_request {W T} `{Writer W} cl method rawurl params body
    (result : Target W T) authFunc e :
  sent_request url_Parse QueryEscape cl method rawurl params body authFunc = inl e →
  run cl method rawurl params body result authFunc
  = ([], (result, Some (ForeignError e))).
Proof.
  unfold sent_request, do.
  destruct (http_NewRequest _ _ _ _) as [e'|req0]; [|done]. by intros [= ->].
Qed.

Lemma do_without_response {W T} `{Writer W} cl method rawurl params body
    (result : Target W T) authFunc req e :
  sent_request url_Parse QueryEscape cl method rawurl params body authFunc = inr req →
  c cl req = inl e →
  value (run cl method rawurl params body result authFunc)
  = (result, Some (ForeignError e)).
Proof.
  unfold sent_request, do. intros Hreq Hresp.
  destruct (http_NewRequest _ _ _ _) as [e'|req0]; [done|].
  injection Hreq as Hreq. rewrite Hreq.
  by rewrite !value_bind, Hresp.
Qed.

(** The errors of [do]: one passed on from a collaborator, or the
    http_error of [handleError]. *)
Lemma do_error_kinds {W T} `{Writer W} cl method rawurl params body
    (result : Target W T) authFunc e :
  snd (value (run cl method rawurl params body result authFunc)) = Some e →
  (∃ f, e = ForeignError f) ∨ (∃ m, e = GocsError (mkError "http_error" m)).
Proof.
  destruct (sent_request url_Parse QueryEscape cl method rawurl params body authFunc)
    as [e0|req] eqn:Hreq.
  { rewrite (do_without_request _ _ _ _ _ _ _ _ Hreq). intros [= <-]. left. by eexists. }
  destruct (c cl req) as [e0|resp] eqn:Hresp.
  { rewrite (do_without_response _ _ _ _ _ _ _ _ _ Hreq Hresp).
    intros [= <-]. left. by eexists. }
  destruct (do_with_response cl method rawurl params body result authFunc req resp
              Hreq Hresp) as (pre & post & _ & _ & _ & ->).
  assert ((StatusCode resp < 200 ∨ 300 <= StatusCode resp)
          ∨ 200 <= StatusCode resp < 300) as [Hs|Hs] by lia.
  - destruct (deliver_error_status cl resp result Hs) as [-> _].
    intros [= <-]. right. by eexists.
  - intros He. left. by apply (deliver_ok_status cl resp result e Hs).
Qed.


(** C9: a call with a byte sink as target, answered with a status
    inside [200, 299], never invokes the JSON decoder; when it succeeds
    the sink holds what it held followed by the exact bytes of the
    response body; and with a sink whose writes do not fail and a body
    that reads to its end the call does succeed, whatever the bytes
    are. The raw variants of the endpoint methods return the sink as
    [do] leaves it: nothing is decoded and no timestamp is
    normalised. *)
Theorem C9_raw_passthrough {W T} `{Writer W} `{!WriterAppends W}
    cl method rawurl params body (w : W) authFunc req resp :
  sent_request url_Parse QueryEscape cl method rawurl params body authFunc = inr req →
  c cl req = inr resp →
  200 <= StatusCode resp < 300 →
  let out := run cl method rawurl params body (WriterTarget w : Target W T) authFunc in
  count is_json_decode (trace out) = 0%nat
  ∧ (snd (value out) = None →
     ∃ w', fst (value out) = WriterTarget w'
           ∧ Bytes w' = (Bytes w +:+ Body_bytes (RespBody resp))%string)
  ∧ (never_fails W → readErr (RespBody resp) = None →
     ∃ w', value out = (WriterTarget w', None)
           ∧ Bytes w' = (Bytes w +:+ Body_bytes (RespBody resp))%string)
  ∧ (∀ cl req (w : W),
       value (ActorsJSON url_Parse QueryEscape StatusText cl req (Some w))
       = let r := value (run cl "GET" "actor/v1/queries/actors"
                           (snd (actorRequestToParams req)) None
                           (WriterTarget w : Target W unit) (IntelClient.authFunc cl)) in
         (fst (actorRequestToParams req),
          match fst r with WriterTarget w' => Some w' | _ => Some w end,
          snd r))
  ∧ (∀ cl req (w : W),
       missing_indicator_params req = false →
       value (IndicatorsJSON url_Parse QueryEscape StatusText cl req (Some w))
       = let r := value (run cl "GET"
                           ("indicator/v1/search/" +:+ IndicatorRequest.Parameter_ req)
                           (snd (indicatorRequestToParams req)) None
                           (WriterTarget w : Target W unit) (IntelClient.authFunc cl)) in
         (fst (indicatorRequestToParams req),
          match fst r with WriterTarget w' => Some w' | _ => Some w end,
          snd r))
  ∧ (∀ localOffset basicAuth h req (w : W),
       value (SearchIOCsJSON url_Parse QueryEscape StatusText localOffset basicAuth
                h req (Some w))
       = let r := value (run h "GET" "indicators/queries/iocs/v1"
                           (searchRequestToParams localOffset req) None
                           (WriterTarget w : Target W unit)
                           (HostClient.authFunc basicAuth h)) in
         (match fst r with WriterTarget w' => Some w' | _ => Some w end, snd r)).
Proof.
  intros Hreq Hresp Hs out. subst out.
  destruct (do_with_response cl method rawurl params body
              (WriterTarget w : Target W T) authFunc req resp Hreq Hresp)
    as (pre & post & Hpre & Hpost & Ht & Hv).
  destruct (deliver_to_writer (T:=T) cl resp w Hs) as [Hdv Hdt].
  rewrite Ht, Hv, Hdv, Hdt. clear Ht Hv Hdv Hdt.
  pose proof (dumpResponse_body cl resp) as Hb.
  set (b' := RespBody (value (dumpResponse cl resp))) in *.
  assert (∀ w1 bx, value (io_Copy w b') = (w1, None, bx) →
            Bytes w1 = (Bytes w +:+ Body_bytes (RespBody resp))%string) as Hcopy.
  { intros w1 bx Hio. destruct (io_Copy_success _ _ _ _ Hio) as [Hw Hr].
    rewrite Hw. destruct (readErr (RespBody resp)); [congruence|].
    destruct Hb as [_ ->]. done. }
  split; [|split; [|split; [|split; [|split]]]].
  - rewrite !count_app, dumpResponse_no_decode, io_Copy_no_decode.
    rewrite !(count_log _ pre), !(count_log _ post) by auto using decode_not_log.
    unfold Body_Close. by destruct (kind (RespBody resp)).
  - destruct (value (io_Copy w b')) as [[w1 [e|]] bx] eqn:Hio; [done|].
    intros _. exists w1. split; [done|]. by eapply Hcopy.
  - intros Hnf Hr. rewrite Hr in Hb. destruct Hb as [Hr' _].
    destruct (io_Copy_never_fails w b' Hnf Hr') as (w1 & bx & Hio).
    rewrite Hio. exists w1. split; [done|]. by eapply Hcopy.
  - intros cl0 req0 w0. unfold ActorsJSON.
    destruct (actorRequestToParams req0) as [req' params']. by rewrite value_bind.
  - intros cl0 req0 w0 Hm. unfold IndicatorsJSON. rewrite Hm.
    destruct (indicatorRequestToParams req0) as [req' params']. by rewrite value_bind.
  - intros lo ba h req0 w0. unfold SearchIOCsJSON. by rewrite value_bind.
Qed.

End Pipeline.



Section Indicators.
Variable url_Parse : string → foreign + string.
Variable QueryEscape : string → string.
Variable StatusText : Z → string.
Variable unrepresentable : GoFloat.float64 → Z.

Lemma missing_indicator_params_true req :
  IndicatorRequest.Parameter_ req = ""%string
  ∨ IndicatorRequest.Filter req = ""%string
  ∨ IndicatorRequest.Value req = ""%string →
  missing_indicator_params req = true.
Proof.
  unfold missing_indicator_params.
  intros [H|[H|H]]; rewrite (bool_decide_eq_true_2 _ H);
    by rewrite ?orb_true_r.
Qed.

Lemma missing_indicator_params_false req :
  IndicatorRequest.Parameter_ req ≠ ""%string →
  IndicatorRequest.Filter req ≠ ""%string →
  IndicatorRequest.Value req ≠ ""%string →
  missing_indicator_params req = false.
Proof.
  unfold missing_indicator_params. intros H1 H2 H3.
  by rewrite (bool_decide_eq_false_2 _ H1), (bool_decide_eq_false_2 _ H2),
    (bool_decide_eq_false_2 _ H3).
Qed.

(** C7: an indicator search in which the parameter, the filter or the
    value is the empty string returns the missing-parameters error
    from [Indicators] and from [IndicatorsJSON] with an empty trace: the
    transport is not called, and the request, the result and the sink are
    as they were. When the three fields are non-empty, neither function
    returns the missing-parameters error. *)
Theorem C7_indicator_required_parameters {W} `{Writer W}
    (decode : Body → list IndicatorResponse.t
              → list IndicatorResponse.t * option foreign * Body)
    (cl : client) (req : IndicatorRequest.t) (w : option W) :
  (IndicatorRequest.Parameter_ req = ""%string
   ∨ IndicatorRequest.Filter req = ""%string
   ∨ IndicatorRequest.Value req = ""%string →
   Indicators url_Parse QueryEscape StatusText unrepresentable decode cl req
   = ([], (req, [], Some (GocsError ErrMissingParams)))
   ∧ IndicatorsJSON url_Parse QueryEscape StatusText cl req w
     = ([], (req, w, Some (GocsError ErrMissingParams)))
   ∧ count is_transport_call
       (trace (Indicators url_Parse QueryEscape StatusText unrepresentable decode cl req))
     = 0%nat
   ∧ count is_transport_call
       (trace (IndicatorsJSON url_Parse QueryEscape StatusText cl req w)) = 0%nat)
  ∧ (IndicatorRequest.Parameter_ req ≠ ""%string →
     IndicatorRequest.Filter req ≠ ""%string →
     IndicatorRequest.Value req ≠ ""%string →
     snd (value (Indicators url_Parse QueryEscape StatusText unrepresentable
                   decode cl req))
     ≠ Some (GocsError ErrMissingParams)
     ∧ snd (value (IndicatorsJSON url_Parse QueryEscape StatusText cl req w))
       ≠ Some (GocsError ErrMissingParams)).
Proof.
  split.
  - intros Hm. apply missing_indicator_params_true in Hm.
    unfold Indicators, IndicatorsJSON. by rewrite Hm.
  - intros H1 H2 H3.
    pose proof (missing_indicator_params_false req H1 H2 H3) as Hm.
    unfold Indicators, IndicatorsJSON. rewrite Hm.
    destruct (indicatorRequestToParams req) as [req' params].
    rewrite !value_bind. split.
    + match goal with
      | |- context [value (do ?a ?b ?c ?d ?e ?f ?g ?h ?i ?j)] =>
          pose proof (do_error_kinds a b c d e f g h i j) as Hk;
          destruct (value (do a b c d e f g h i j)) as [t [err|]]
      end; simpl in *; [|done].
      intros [= ->]. destruct (Hk _ eq_refl) as [[f Hf]|[m Hm']]; done.
    + match goal with
      | |- context [value (do ?a ?b ?c ?d ?e ?f ?g ?h ?i ?j)] =>
          pose proof (do_error_kinds a b c d e f g h i j) as Hk;
          destruct (value (do a b c d e f g h i j)) as [t [err|]]
      end; simpl in *; [|done].
      intros [= ->]. destruct (Hk _ eq_refl) as [[f Hf]|[m Hm']]; done.
Qed.

End Indicators.

(** An indicator search without a filter, and one with the three
    fields. *)
Lemma C7_indicator_required_parameters_witness :
  Indicators scheme_of (fun s => s) status_text least_int64 rejecting_decoder
    (quiet_client not_found) (indicator_request "domain" "" "example.com")
  = ([], (indicator_request "domain" "" "example.com", [],
          Some (GocsError ErrMissingParams)))
  ∧ snd (value (IndicatorsJSON scheme_of (fun s => s) status_text
                  (quiet_client not_found)
                  (indicator_request "domain" "equal" "example.com")
                  (Some ""%string)))
    ≠ Some (GocsError ErrMissingParams).
Proof.
  split.
  - apply (C7_indicator_required_parameters scheme_of (fun s => s) status_text
             least_int64 (W:=string) rejecting_decoder (quiet_client not_found)
             (indicator_request "domain" "" "example.com") None).
    right. left. reflexivity.
  - apply (C7_indicator_required_parameters scheme_of (fun s => s) status_text
             least_int64 rejecting_decoder (quiet_client not_found)
             (indicator_request "domain" "equal" "example.com") (Some ""%string));
      discriminate.
Defined.

Lemma Buffer_appends : WriterAppends string.
Proof. intros w w' p. simpl. by intros [= <-]. Qed.

#[local] Existing Instance Buffer_appends.

Lemma Buffer_never_fails : never_fails string.
Proof. by intros w p. Qed.

(** A 200 response whose body is not JSON, copied to a buffer. *)
Lemma C9_raw_passthrough_witness :
  value (do scheme_of (fun s => s) status_text (quiet_client malformed_json)
           "GET" "actor/v1/queries/actors" ∅ None
           (WriterTarget "" : Target string unit) (fun req => req))
  = (WriterTarget "{bad json", None).
Proof.
  pose (req := Request_Header_Set "Accept" "application/json"
                 (mkRequest "GET" "https://intelapi.crowdstrike.com/actor/v1/queries/actors"
                    ∅ None)).
  assert (sent_request scheme_of (fun s => s) (quiet_client malformed_json)
            "GET" "actor/v1/queries/actors" ∅ None (fun req => req) = inr req) as Hreq
    by reflexivity.
  assert (200 <= StatusCode malformed_json < 300) as Hs by (simpl; lia).
  destruct (C9_raw_passthrough scheme_of (fun s => s) status_text
              (T:=unit) (quiet_client malformed_json) "GET" "actor/v1/queries/actors"
              ∅ None ""%string (fun req => req) req malformed_json Hreq eq_refl Hs)
    as (_ & _ & Hok & _).
  destruct (Hok Buffer_never_fails eq_refl) as (w' & Hv & Hw).
  rewrite Hv. simpl in Hw. by rewrite Hw.
Defined.

End PipelineFacts.

(** ** Construction of a client: outcomes, defaults and invariants *)

Module ConstructionMore.
Import GoInt Params GoHTTP Client Intel Host IntelClient HostClient Claims Coverage.
Import ConstructionFacts.

Lemma length_append_slash (s : string) :
  String.length (s +:+ "/") = S (String.length s).
Proof.
  induction s as [|a s IH]; [done|].
  change (S (String.length (s +:+ "/")) = S (S (String.length s))). by rewrite IH.
Qed.

Lemma substring_append_slash (s : string) :
  String.substring (String.length s) 1 (s +:+ "/") = "/"%string.
Proof. induction s as [|a s IH]; [done|]. exact IH. Qed.

Lemma HasSuffix_append_slash (s : string) : HasSuffix (s +:+ "/") "/" = true.
Proof.
  unfold HasSuffix. rewrite length_append_slash.
  change (String.length "/") with 1%nat.
  replace (S (String.length s) - 1)%nat with (String.length s) by lia.
  by rewrite substring_append_slash.
Qed.

Lemma stored_url_ends_with_slash rawurl : HasSuffix (stored_url rawurl) "/" = true.
Proof.
  unfold stored_url.
  set (u := if decide (rawurl = ""%string) then DefaultURL else rawurl).
  destruct (HasSuffix u "/") eqn:Hs; [exact Hs|]. apply HasSuffix_append_slash.
Qed.

Lemma check_credentials_value cl :
  value (check_credentials cl)
  = if bool_decide (id cl = ""%string) || bool_decide (key cl = ""%string)
    then inl (GocsError ErrMissingCredentials) else inr cl.
Proof.
  unfold check_credentials. rewrite value_tracef_bind.
  destruct (bool_decide _ || bool_decide _); [|done]. by rewrite value_errorf_bind.
Qed.

Lemma newClient_runs (DefaultClient : HTTPClient) options cl :
  value (newClient DefaultClient options) = inr cl →
  value (run_options options (blank DefaultClient)) = inr cl.
Proof.
  rewrite newClient_value.
  destruct (value (run_options options (blank DefaultClient))) as [e|cl0]; [done|].
  rewrite check_credentials_value.
  destruct (bool_decide _ || bool_decide _); [done|]. by intros [= ->].
Qed.

(** [newClient] (and with it [NewIntel] and [NewHost], which call it with
    one more option in front) returns a client exactly when every option
    succeeds and the client they leave has an identifier and a secret;
    the client returned is that client. *)
Theorem newClient_succeeds_iff (DefaultClient : HTTPClient) options cl :
  value (newClient DefaultClient options) = inr cl
  ↔ value (run_options options (blank DefaultClient)) = inr cl
    ∧ id cl ≠ ""%string ∧ key cl ≠ ""%string.
Proof.
  rewrite newClient_value.
  destruct (value (run_options options (blank DefaultClient))) as [e|cl0].
  - split; [done|]. by intros [? _].
  - rewrite check_credentials_value. split.
    + destruct (decide (id cl0 = ""%string)) as [Hi|Hi].
      { by rewrite (bool_decide_eq_true_2 _ Hi). }
      destruct (decide (key cl0 = ""%string)) as [Hk|Hk].
      { rewrite (bool_decide_eq_true_2 _ Hk). by rewrite orb_true_r. }
      rewrite (bool_decide_eq_false_2 _ Hi), (bool_decide_eq_false_2 _ Hk).
      by intros [= <-].
    + intros ([= ->] & Hi & Hk).
      by rewrite (bool_decide_eq_false_2 _ Hi), (bool_decide_eq_false_2 _ Hk).
Qed.

Lemma run_options_cons_trace o options cl :
  trace (run_options (o :: options) cl)
  = trace (o cl)
    ++ match value (o cl) with
       | inl _ => []
       | inr cl' => trace (run_options options cl')
       end.
Proof. simpl. rewrite trace_bind. by destruct (value (o cl)). Qed.

Lemma run_options_app_trace options1 options2 cl :
  trace (run_options (options1 ++ options2) cl)
  = trace (run_options options1 cl)
    ++ match value (run_options options1 cl) with
       | inl _ => []
       | inr cl' => trace (run_options options2 cl')
       end.
Proof.
  revert cl. induction options1 as [|o options1 IH]; intros cl; [done|].
  rewrite <- app_comm_cons, !run_options_cons_trace, run_options_cons.
  destruct (value (o cl)) as [e|cl1]; [by rewrite !app_nil_r|].
  by rewrite IH, app_assoc.
Qed.

(** An option that fails ends the construction: [newClient] returns its
    error, and what it has done by then is what the options before it
    and the failing option did; the options after it are not run, and
    the credentials are not checked. *)
Theorem newClient_stops_at_first_error (DefaultClient : HTTPClient)
    pre o post cl err :
  value (run_options pre (blank DefaultClient)) = inr cl →
  value (o cl) = inl err →
  value (newClient DefaultClient (pre ++ o :: post)) = inl err
  ∧ trace (newClient DefaultClient (pre ++ o :: post))
    = trace (run_options pre (blank DefaultClient)) ++ trace (o cl).
Proof.
  intros Hpre Ho. split.
  - by rewrite newClient_value, run_options_app, Hpre, run_options_cons, Ho.
  - unfold newClient. fold (blank DefaultClient). rewrite trace_bind.
    rewrite run_options_app, Hpre, run_options_cons, Ho.
    rewrite run_options_app_trace, Hpre, run_options_cons_trace, Ho.
    simpl. by rewrite !app_nil_r.
Qed.

(** Credentials refused after an error log was set: the option after is
    not run. *)
Lemma newClient_stops_at_first_error_witness :
  newClient no_client
    ([SetErrorLog (Some "stderr"%string)] ++ SetCredentials "" "secret" :: [failing_option])
  = ([ErrorLog "stderr"
        (Text ("missing_credentials: You must provide the CrowsStrike API ID and key"
               +:+ nl))],
     inl (GocsError ErrMissingCredentials)).
Proof.
  destruct (newClient_stops_at_first_error no_client
              [SetErrorLog (Some "stderr"%string)] (SetCredentials "" "secret")
              [failing_option]
              (mkClient "" "" "" (Some "stderr"%string) None no_client)
              (GocsError ErrMissingCredentials) eq_refl eq_refl) as [Hv Ht].
  unfold value in Hv. unfold trace in Ht.
  destruct (newClient _ _) as [t v]. simpl in Hv, Ht. by rewrite Hv, Ht.
Defined.

Section Parse.
Variable url_Parse : string → foreign + string.
Variable DefaultClient : HTTPClient.

(** The three outcomes of [SetURL]: the parse error of [url.Parse]; the
    error of code bad_url when the scheme is neither http nor https; or
    the client with the URL stored, which is the raw URL (the default URL
    of the intelligence API when it is empty) with a slash put after it
    unless it ends with one, so that the stored URL always ends with a
    slash. No other field of the client changes. *)
Theorem SetURL_outcomes rawurl cl :
  let u := if decide (rawurl = ""%string) then DefaultURL else rawurl in
  match url_Parse u with
  | inl e => value (SetURL url_Parse rawurl cl) = inl (ForeignError e)
  | inr scheme =>
      if String.eqb scheme "http" || String.eqb scheme "https" then
        value (SetURL url_Parse rawurl cl) = inr (with_url (stored_url rawurl) cl)
        ∧ HasSuffix (stored_url rawurl) "/" = true
        ∧ (stored_url rawurl = u ∨ stored_url rawurl = (u +:+ "/")%string)
      else
        value (SetURL url_Parse rawurl cl)
        = inl (GocsError (mkError "bad_url" ("Invalid schema specified [" +:+ u +:+ "]")))
  end.
Proof.
  intros u. subst u. unfold SetURL.
  destruct (url_Parse _) as [e|scheme]; [by rewrite value_errorf_bind|].
  destruct (String.eqb scheme "http"), (String.eqb scheme "https"); simpl;
    rewrite ?value_errorf_bind; try done.
  all: split; [unfold with_url, stored_url; by destruct (HasSuffix _ "/")|].
  all: split; [apply stored_url_ends_with_slash|].
  all: unfold stored_url; destruct (HasSuffix _ "/"); [by left | by right].
Qed.

Lemma SetURL_success rawurl cl cl' :
  value (SetURL url_Parse rawurl cl) = inr cl' → cl' = with_url (stored_url rawurl) cl.
Proof.
  unfold SetURL.
  destruct (url_Parse _) as [e|scheme]; [by rewrite value_errorf_bind|].
  destruct (negb _ && negb _); [by rewrite value_errorf_bind|].
  intros [= <-]. unfold with_url, stored_url. by destruct (HasSuffix _ "/").
Qed.

Lemma SetCredentials_success i k cl cl' :
  value (SetCredentials i k cl) = inr cl' →
  cl' = mkClient i k (url cl) (errorlog cl) (tracelog cl) (c cl).
Proof.
  unfold SetCredentials.
  destruct (bool_decide _ || bool_decide _); [by rewrite value_errorf_bind|].
  by intros [= <-].
Qed.

Lemma standard_keeps_slash o cl cl' :
  standard url_Parse DefaultClient o →
  value (o cl) = inr cl' →
  HasSuffix (url cl) "/" = true → HasSuffix (url cl') "/" = true.
Proof.
  intros [i k|h|u|l|l] Ho Hs.
  - by rewrite (SetCredentials_success _ _ _ _ Ho).
  - destruct h; by injection Ho as <-.
  - rewrite (SetURL_success _ _ _ Ho). apply stored_url_ends_with_slash.
  - by injection Ho as <-.
  - by injection Ho as <-.
Qed.

Lemma run_standard_keeps_slash options cl cl' :
  Forall (standard url_Parse DefaultClient) options →
  value (run_options options cl) = inr cl' →
  HasSuffix (url cl) "/" = true → HasSuffix (url cl') "/" = true.
Proof.
  intros Hall. revert cl. induction Hall as [|o options Ho _ IH]; intros cl.
  - by intros [= <-].
  - rewrite run_options_cons. destruct (value (o cl)) as [e|cl1] eqn:Ho1; [done|].
    intros Hrun Hs. apply (IH cl1 Hrun). by apply (standard_keeps_slash o cl).
Qed.

(** The base URL of a client that [NewIntel] or [NewHost] builds from the
    options of the library ends with a slash, so that the path of a
    request can be put after it as it is. *)
Theorem built_client_url_ends_with_slash options cl :
  url_Parse DefaultURL = inr "https"%string →
  url_Parse DefaultURLHost = inr "https"%string →
  Forall (standard url_Parse DefaultClient) options →
  (value (NewIntel url_Parse DefaultClient options) = inr cl
   → HasSuffix (url cl) "/" = true)
  ∧ (value (NewHost url_Parse DefaultClient options) = inr cl
     → HasSuffix (url cl) "/" = true).
Proof.
  intros Hi Hh Hall. split.
  - unfold NewIntel. intros Hrun%newClient_runs.
    simpl app in Hrun. rewrite run_options_cons, SetURL_DefaultURL in Hrun by done.
    by apply (run_standard_keeps_slash options _ cl Hall Hrun).
  - unfold NewHost. intros Hrun%newClient_runs.
    simpl app in Hrun. rewrite run_options_cons, SetURL_DefaultURLHost in Hrun by done.
    by apply (run_standard_keeps_slash options _ cl Hall Hrun).
Qed.

Lemma run_options_keeps_url options cl cl' :
  Forall keeps_url options →
  value (run_options options cl) = inr cl' → url cl' = url cl.
Proof.
  intros Hall. revert cl. induction Hall as [|o options Ho _ IH]; intros cl.
  - by intros [= <-].
  - rewrite run_options_cons. destruct (value (o cl)) as [e|cl1] eqn:Ho1; [done|].
    intros Hrun. rewrite (IH _ Hrun). by apply Ho.
Qed.

Lemma run_options_keeps_transport options cl cl' :
  Forall keeps_transport options →
  value (run_options options cl) = inr cl' → c cl' = c cl.
Proof.
  intros Hall. revert cl. induction Hall as [|o options Ho _ IH]; intros cl.
  - by intros [= <-].
  - rewrite run_options_cons. destruct (value (o cl)) as [e|cl1] eqn:Ho1; [done|].
    intros Hrun. rewrite (IH _ Hrun). by apply Ho.
Qed.

(** What is not configured keeps its default: a client built from options
    that leave the base URL alone has the default URL of its family, and
    one built from options that leave the transport alone has
    [http.DefaultClient]. Of the options of the library only [SetURL]
    touches the base URL and only [SetHTTPClient] the transport, and
    [SetHTTPClient(nil)] puts [http.DefaultClient] back. *)
Theorem unconfigured_fields_keep_defaults options cl :
  url_Parse DefaultURL = inr "https"%string →
  url_Parse DefaultURLHost = inr "https"%string →
  (Forall keeps_url options →
   (value (NewIntel url_Parse DefaultClient options) = inr cl → url cl = DefaultURL)
   ∧ (value (NewHost url_Parse DefaultClient options) = inr cl → url cl = DefaultURLHost))
  ∧ (Forall keeps_transport options →
     (value (NewIntel url_Parse DefaultClient options) = inr cl → c cl = DefaultClient)
     ∧ (value (NewHost url_Parse DefaultClient options) = inr cl → c cl = DefaultClient))
  ∧ (∀ i k, keeps_url (SetCredentials i k) ∧ keeps_transport (SetCredentials i k))
  ∧ (∀ l, keeps_url (SetErrorLog l) ∧ keeps_transport (SetErrorLog l))
  ∧ (∀ l, keeps_url (SetTraceLog l) ∧ keeps_transport (SetTraceLog l))
  ∧ (∀ h, keeps_url (SetHTTPClient DefaultClient h))
  ∧ (∀ u, keeps_transport (SetURL url_Parse u))
  ∧ (∀ cl0, c <$> (match value (SetHTTPClient DefaultClient None cl0) with
                   | inr cl1 => Some cl1
                   | inl _ => None
                   end) = Some DefaultClient).
Proof.
  intros Hi Hh.
  assert (∀ opts, value (NewIntel url_Parse DefaultClient opts) = inr cl →
            value (run_options opts (with_url DefaultURL (blank DefaultClient))) = inr cl)
    as HI.
  { intros opts Hrun%newClient_runs.
    simpl app in Hrun. by rewrite run_options_cons, SetURL_DefaultURL in Hrun. }
  assert (∀ opts, value (NewHost url_Parse DefaultClient opts) = inr cl →
            value (run_options opts (with_url DefaultURLHost (blank DefaultClient))) = inr cl)
    as HH.
  { intros opts Hrun%newClient_runs.
    simpl app in Hrun. by rewrite run_options_cons, SetURL_DefaultURLHost in Hrun. }
  split; [|split].
  - intros Hall. split; intros Hv.
    + by rewrite (run_options_keeps_url _ _ _ Hall (HI _ Hv)).
    + by rewrite (run_options_keeps_url _ _ _ Hall (HH _ Hv)).
  - intros Hall. split; intros Hv.
    + by rewrite (run_options_keeps_transport _ _ _ Hall (HI _ Hv)).
    + by rewrite (run_options_keeps_transport _ _ _ Hall (HH _ Hv)).
  - split; [|split; [|split; [|split; [|split]]]].
    + intros i k. split; intros cl0 cl1 Ho;
        by rewrite (SetCredentials_success _ _ _ _ Ho).
    + intros l. split; by intros cl0 cl1 [= <-].
    + intros l. split; by intros cl0 cl1 [= <-].
    + intros h cl0 cl1. by destruct h; intros [= <-].
    + intros u cl0 cl1 Ho. by rewrite (SetURL_success _ _ _ Ho).
    + done.
Qed.

End Parse.

(** A client built with credentials, a trace log and a base URL without
    a final slash. *)
Lemma built_client_url_ends_with_slash_witness :
  match value (NewIntel scheme_of no_client
                 (options_with_credentials ++ [SetURL scheme_of "http://localhost:8080"])) with
  | inr cl => url cl = "http://localhost:8080/"%string ∧ HasSuffix (url cl) "/" = true
  | inl _ => False
  end.
Proof.
  destruct (value (NewIntel scheme_of no_client
                     (options_with_credentials ++ [SetURL scheme_of "http://localhost:8080"])))
    as [e|cl] eqn:Hv; [by vm_compute in Hv|].
  split; [by injection Hv as <-|].
  assert (Forall (standard scheme_of no_client)
            (options_with_credentials ++ [SetURL scheme_of "http://localhost:8080"]))
    as Hall by repeat constructor.
  destruct (built_client_url_ends_with_slash scheme_of no_client _ cl
              eq_refl eq_refl Hall) as [H _].
  exact (H Hv).
Defined.

(** A host client built with credentials and a trace log only. *)
Lemma unconfigured_fields_keep_defaults_witness :
  match value (NewHost scheme_of no_client options_with_credentials) with
  | inr cl => url cl = DefaultURLHost
  | inl _ => False
  end.
Proof.
  destruct (value (NewHost scheme_of no_client options_with_credentials))
    as [e|cl] eqn:Hv; [by vm_compute in Hv|].
  destruct (unconfigured_fields_keep_defaults scheme_of no_client
              options_with_credentials cl eq_refl eq_refl)
    as (Hu & _ & Hc & _ & Ht & _).
  apply Hu; [|exact Hv].
  repeat constructor; [apply Hc | apply Ht].
Defined.

End ConstructionMore.

(** ** The request pipeline: calls, releases, decoding, logs *)

Module PipelineMore.
Import GoInt Params GoHTTP Client Intel Host IntelClient HostClient Claims Coverage.
Import ConstructionFacts PipelineFacts.

Lemma filter_nil_count p (t : list Event) : count p t = 0%nat → List.filter p t = [].
Proof. unfold count. by destruct (List.filter p t). Qed.

Lemma dump_to_errorlog_quiet cl resp :
  count is_transport_call (trace (dump_to_errorlog cl resp)) = 0%nat
  ∧ count is_json_decode (trace (dump_to_errorlog cl resp)) = 0%nat.
Proof.
  destruct resp as [code h [k cs re]], cl as [i ky u [l|] tl hc]; [|done].
  destruct re as [e|], k; by compute.
Qed.

Lemma dumpResponse_quiet cl resp :
  count is_transport_call (trace (dumpResponse cl resp)) = 0%nat.
Proof.
  destruct resp as [code h [k cs re]], cl as [i ky u el [l|] hc]; [|done].
  destruct re as [e|], k; by compute.
Qed.

Lemma io_Copy_quiet {W} `{Writer W} (w : W) src :
  count is_transport_call (trace (io_Copy w src)) = 0%nat.
Proof.
  unfold io_Copy, note_read.
  destruct (copy_chunks w (chunks src)) as [[w1 [e|]] rest];
    rewrite trace_bind; by destruct (kind src).
Qed.

Lemma note_read_quiet b x :
  count is_transport_call (trace (note_read b x)) = 0%nat
  ∧ count is_json_decode (trace (note_read b x)) = 0%nat.
Proof. unfold note_read. by destruct (kind b). Qed.

Lemma dumpResponse_errorlog l cl resp :
  dumpResponse (with_errorlog l cl) resp = dumpResponse cl resp.
Proof. by destruct cl. Qed.

Lemma dumpResponse_untraced cl resp :
  tracelog cl = None → value (dumpResponse cl resp) = resp.
Proof. intros Ht. unfold dumpResponse. by rewrite Ht. Qed.

Section Pipeline.
Variable url_Parse : string → foreign + string.
Variable QueryEscape : string → string.
Variable StatusText : Z → string.

Abbreviation run := (do url_Parse QueryEscape StatusText).
Abbreviation handle := (deliver StatusText).

(** The delivery of a response whose status is inside [200, 299]. *)
Lemma deliver_ok {W T} `{Writer W} cl resp (result : Target W T) :
  200 <= StatusCode resp < 300 →
  let resp' := value (dumpResponse cl resp) in
  let b := RespBody resp' in
  handle cl resp result
  = (trace (dumpResponse cl resp)
     ++ match result with
        | NilTarget => []
        | WriterTarget w => trace (io_Copy w b)
        | JSONTarget v decode =>
            [JSONDecode] ++ trace (note_read b Partial)
            ++ match decode b v with
               | (_, Some _, b2) => trace (dump_to_errorlog cl (with_Body b2 resp'))
               | (_, None, _) => []
               end
        end,
     match result with
     | NilTarget => (NilTarget, None)
     | WriterTarget w =>
         (WriterTarget (fst (fst (value (io_Copy w b)))),
          ForeignError <$> snd (fst (value (io_Copy w b))))
     | JSONTarget v decode =>
         (JSONTarget (fst (fst (decode b v))) decode,
          ForeignError <$> snd (fst (decode b v)))
     end).
Proof.
  intros Hs resp' b. subst resp' b.
  unfold deliver, handleError. rewrite (status_inside _ Hs).
  apply injective_projections.
  - change (fst ?x) with (trace x) at 1. cbn [fst].
    rewrite trace_bind. change (value (ret (resp, @None error))) with (resp, @None error).
    cbv beta iota. rewrite trace_bind. simpl (trace (ret _)). rewrite app_nil_l.
    f_equal. destruct result as [|w|v decode].
    + done.
    + rewrite trace_bind.
      destruct (value (io_Copy w _)) as [[w' [err|]] b]; simpl; by rewrite app_nil_r.
    + rewrite !trace_bind. simpl (trace (emit _)).
      destruct (decode _ v) as [[v' [err|]] b]; simpl.
      * rewrite trace_bind. simpl. by rewrite app_nil_r.
      * by rewrite app_nil_r.
  - change (snd ?x) with (value x) at 1. cbn [snd].
    rewrite value_bind. change (value (ret (resp, @None error))) with (resp, @None error).
    cbv beta iota. rewrite value_bind.
    destruct result as [|w|v decode].
    + done.
    + rewrite value_bind.
      by destruct (value (io_Copy w _)) as [[w' [err|]] b].
    + rewrite !value_bind.
      destruct (decode _ v) as [[v' [err|]] b]; simpl; [|done].
      by rewrite value_bind.
Qed.

Lemma deliver_quiet {W T} `{Writer W} cl resp (result : Target W T) :
  count is_transport_call (trace (handle cl resp result)) = 0%nat.
Proof.
  assert ((StatusCode resp < 200 ∨ 300 <= StatusCode resp)
          ∨ 200 <= StatusCode resp < 300) as [Hs|Hs] by lia.
  - destruct (deliver_error_status StatusText cl resp result Hs) as [_ ->].
    rewrite count_app. destruct (dump_to_errorlog_quiet cl resp) as [-> _].
    by rewrite (count_log _ (trace (errorf _ _)))
      by auto using call_not_log, errorf_log.
  - rewrite (deliver_ok cl resp result Hs). cbn [trace fst].
    rewrite count_app, dumpResponse_quiet.
    destruct result as [|w|v decode]; [done|apply io_Copy_quiet|].
    rewrite !count_app. destruct (note_read_quiet (RespBody (value (dumpResponse cl resp)))
                                    Partial) as [-> _].
    destruct (decode _ v) as [[v' [err|]] b]; [|done].
    by destruct (dump_to_errorlog_quiet cl
                   (with_Body b (value (dumpResponse cl resp)))) as [-> _].
Qed.

(** The shape of a call whose request is built. *)
Lemma do_with_request {W T} `{Writer W} cl method rawurl params body
    (result : Target W T) authFunc req :
  sent_request url_Parse QueryEscape cl method rawurl params body authFunc = inr req →
  ∃ pre post,
    Forall (fun e => is_log e = true) pre
    ∧ Forall (fun e => is_log e = true) post
    ∧ trace (run cl method rawurl params body result authFunc)
      = pre ++ [Transport req] ++ post
        ++ match c cl req with
           | inl _ => []
           | inr resp => trace (handle cl resp result) ++ trace (Body_Close (RespBody resp))
           end.
Proof.
  intros Hreq. destruct (c cl req) as [e|resp] eqn:Hresp.
  - revert Hreq. unfold sent_request, do.
    destruct (http_NewRequest _ _ _ _) as [e'|req0]; [done|].
    intros [= Hreq]. rewrite Hreq.
    exists (trace (match tracelog cl with
                   | Some _ =>
                       dumpRequest cl req ≫= λ _,
                         tracef cl (StartRequest
                           (if (0 <? size params)%nat
                            then (rawurl +:+ "?" +:+ Values_Encode QueryEscape params)%string
                            else rawurl))
                   | None => ret tt
                   end)),
           (trace (match tracelog cl with
                   | Some _ =>
                       tracef cl (EndRequest
                         (if (0 <? size params)%nat
                          then (rawurl +:+ "?" +:+ Values_Encode QueryEscape params)%string
                          else rawurl))
                   | None => ret tt
                   end)).
    split; [|split].
    + unfold dumpRequest, tracef. destruct (tracelog cl); simpl; by repeat constructor.
    + unfold tracef. destruct (tracelog cl); simpl; by repeat constructor.
    + rewrite !trace_bind, Hresp. simpl. by rewrite !app_nil_r.
  - destruct (do_with_response url_Parse QueryEscape StatusText cl method rawurl params
                body result authFunc req resp Hreq Hresp)
      as (pre & post & Hpre & Hpost & Ht & _).
    by exists pre, post.
Qed.

(** [do] calls the transport once when the request can be built, with
    the request built, and not at all otherwise, whatever the target, the
    logs and the answer are. *)
Theorem do_calls_transport_once {W T} `{Writer W} cl method rawurl params body
    (result : Target W T) authFunc :
  List.filter is_transport_call (trace (run cl method rawurl params body result authFunc))
  = match sent_request url_Parse QueryEscape cl method rawurl params body authFunc with
    | inl _ => []
    | inr req => [Transport req]
    end.
Proof.
  destruct (sent_request url_Parse QueryEscape cl method rawurl params body authFunc)
    as [e|req] eqn:Hreq.
  - by rewrite (do_without_request _ _ _ _ _ _ _ _ _ _ _ Hreq).
  - destruct (do_with_request cl method rawurl params body result authFunc req Hreq)
      as (pre & post & Hpre & Hpost & ->).
    rewrite !List.filter_app.
    rewrite (filter_nil_count _ pre), (filter_nil_count _ post)
      by (apply count_log; auto using call_not_log).
    simpl. f_equal. destruct (c cl req) as [e|resp]; [done|].
    rewrite List.filter_app, (filter_nil_count _ _ (deliver_quiet cl resp result)).
    unfold Body_Close. by destruct (kind (RespBody resp)).
Qed.

(** The response body is released on every path that has one: whenever
    the transport returns a response, whatever its status and the target,
    the last thing [do] does is to close the body it was handed. When the
    transport returns an error instead, [do] passes the error on, leaves
    the target as it is and touches no body. *)
Theorem do_releases_body {W T} `{Writer W} cl method rawurl params body
    (result : Target W T) authFunc req :
  sent_request url_Parse QueryEscape cl method rawurl params body authFunc = inr req →
  let out := run cl method rawurl params body result authFunc in
  match c cl req with
  | inr resp => kind (RespBody resp) ≠ InMemory → last (trace out) = Some BodyClose
  | inl e =>
      value out = (result, Some (ForeignError e))
      ∧ count is_transport_close (trace out) = 0%nat
      ∧ count is_body_read (trace out) = 0%nat
  end.
Proof.
  intros Hreq out. subst out.
  destruct (do_with_request cl method rawurl params body result authFunc req Hreq)
    as (pre & post & Hpre & Hpost & Ht).
  destruct (c cl req) as [e|resp] eqn:Hresp.
  - split; [by apply (do_without_response _ _ _ _ _ _ _ _ _ _ req)|].
    rewrite Ht, !count_app.
    rewrite !(count_log _ pre), !(count_log _ post)
      by auto using close_not_log, read_not_log.
    done.
  - intros Hk. rewrite Ht, !app_assoc.
    unfold Body_Close. destruct (kind (RespBody resp)); [| |done]; apply last_snoc.
Qed.

(** The typed path: with a status inside [200, 299] the decoder is
    invoked once, on the body of the response (the copy the dump leaves
    when a trace log is set), and [do] returns the value the decoder
    leaves and the decoder's error, if any; with a status outside
    [200, 299] the decoder is not invoked and the target keeps its
    value. *)
Theorem do_typed_outcome {W T} `{Writer W} cl method rawurl params body
    (v : T) decode authFunc req resp :
  sent_request url_Parse QueryEscape cl method rawurl params body authFunc = inr req →
  c cl req = inr resp →
  let out := run cl method rawurl params body (JSONTarget v decode : Target W T) authFunc in
  let b := RespBody (value (dumpResponse cl resp)) in
  (200 <= StatusCode resp < 300 →
   value out
   = (JSONTarget (fst (fst (decode b v))) decode, ForeignError <$> snd (fst (decode b v)))
   ∧ count is_json_decode (trace out) = 1%nat
   ∧ (tracelog cl = None → b = RespBody resp))
  ∧ (StatusCode resp < 200 ∨ 300 <= StatusCode resp →
     value out
     = (JSONTarget v decode,
        Some (GocsError (mkError "http_error"
                           (http_error_message StatusText (StatusCode resp)))))
     ∧ count is_json_decode (trace out) = 0%nat).
Proof.
  intros Hreq Hresp out b. subst out b.
  destruct (do_with_response url_Parse QueryEscape StatusText cl method rawurl params
              body (JSONTarget v decode : Target W T) authFunc req resp Hreq Hresp)
    as (pre & post & Hpre & Hpost & Ht & Hv).
  rewrite Ht, Hv. clear Ht Hv.
  assert (count is_json_decode (trace (Body_Close (RespBody resp))) = 0%nat) as Hc.
  { unfold Body_Close. by destruct (kind (RespBody resp)). }
  split.
  - intros Hs. rewrite (deliver_ok cl resp _ Hs). cbn [value trace fst snd].
    split; [done|]. split.
    + rewrite !count_app, Hc, dumpResponse_no_decode.
      rewrite !(count_log _ pre), !(count_log _ post) by auto using decode_not_log.
      destruct (note_read_quiet (RespBody (value (dumpResponse cl resp))) Partial)
        as [_ ->].
      destruct (decode _ v) as [[v' [err|]] b]; [|done].
      by destruct (dump_to_errorlog_quiet cl
                     (with_Body b (value (dumpResponse cl resp)))) as [_ ->].
    + intros Hl. by rewrite (dumpResponse_untraced _ _ Hl).
  - intros Hs.
    destruct (deliver_error_status StatusText cl resp
                (JSONTarget v decode : Target W T) Hs) as [-> ->].
    split; [done|].
    rewrite !count_app, Hc.
    rewrite !(count_log _ pre), !(count_log _ post) by auto using decode_not_log.
    destruct (dump_to_errorlog_quiet cl resp) as [_ ->].
    by rewrite (count_log _ (trace (errorf _ _)))
      by auto using decode_not_log, errorf_log.
Qed.

Lemma deliver_value_errorlog {W T} `{Writer W} l cl resp (result : Target W T) :
  value (handle (with_errorlog l cl) resp result) = value (handle cl resp result).
Proof.
  assert ((StatusCode resp < 200 ∨ 300 <= StatusCode resp)
          ∨ 200 <= StatusCode resp < 300) as [Hs|Hs] by lia.
  - destruct (deliver_error_status StatusText cl resp result Hs) as [-> _].
    by destruct (deliver_error_status StatusText (with_errorlog l cl) resp result Hs)
      as [-> _].
  - rewrite (deliver_ok cl resp result Hs), (deliver_ok (with_errorlog l cl) resp result Hs).
    cbn [value snd]. by rewrite dumpResponse_errorlog.
Qed.

(** The error log never alters the outcome: with or without it, and
    whatever it is, [do] returns the same error and leaves the same
    target. *)
Theorem error_log_never_changes_outcome {W T} `{Writer W} l cl method rawurl params body
    (result : Target W T) authFunc :
  value (run (with_errorlog l cl) method rawurl params body result authFunc)
  = value (run cl method rawurl params body result authFunc).
Proof.
  assert (sent_request url_Parse QueryEscape (with_errorlog l cl) method rawurl params
            body authFunc
          = sent_request url_Parse QueryEscape cl method rawurl params body authFunc)
    as Hsame by (by destruct cl).
  destruct (sent_request url_Parse QueryEscape cl method rawurl params body authFunc)
    as [e|req] eqn:Hreq.
  - by rewrite (do_without_request _ _ _ _ _ _ _ _ _ _ _ Hreq),
      (do_without_request _ _ _ _ _ _ _ _ _ _ _ Hsame).
  - assert (c (with_errorlog l cl) req = c cl req) as Hc by (by destruct cl).
    destruct (c cl req) as [e|resp] eqn:Hresp.
    + by rewrite (do_without_response _ _ _ _ _ _ _ _ _ _ _ _ Hreq Hresp),
        (do_without_response _ _ _ _ _ _ _ _ _ _ _ _ Hsame Hc).
    + destruct (do_with_response url_Parse QueryEscape StatusText cl method rawurl params
                  body result authFunc req resp Hreq Hresp) as (_ & _ & _ & _ & _ & ->).
      destruct (do_with_response url_Parse QueryEscape StatusText (with_errorlog l cl)
                  method rawurl params body result authFunc req resp Hsame Hc)
        as (_ & _ & _ & _ & _ & ->).
      apply deliver_value_errorlog.
Qed.

Lemma size_positive (params : Values) :
  (0 <? size params)%nat = negb (bool_decide (params = ∅)).
Proof.
  destruct (decide (params = ∅)) as [->|Hne].
  - by rewrite bool_decide_eq_true_2.
  - rewrite bool_decide_eq_false_2 by done. apply Nat.ltb_lt.
    apply map_size_non_empty_iff in Hne. lia.
Qed.

Lemma sent_request_parts cl method rawurl params body authFunc req :
  sent_request url_Parse QueryEscape cl method rawurl params body authFunc = inr req →
  req = authFunc
          (mkRequest (if decide (method = ""%string) then "GET"%string else method)
             (url cl +:+ rawurl +:+ query_of QueryEscape params)
             {["Accept"%string := ["application/json"%string]]} body).
Proof.
  unfold sent_request, http_NewRequest, query_of. rewrite size_positive.
  destruct (negb (forallb _ _)); [done|].
  destruct (url_Parse _) as [e|scheme]; [done|].
  intros [= <-]. f_equal. unfold Request_Header_Set, Header_Set. simpl.
  change (CanonicalMIMEHeaderKey "Accept") with "Accept"%string.
  rewrite insert_empty. f_equal. f_equal.
  case_decide as Hp.
  - rewrite bool_decide_eq_true_2 by done. simpl. by rewrite append_nil_r.
  - by rewrite bool_decide_eq_false_2.
Qed.

(** A request of the intelligence family: [do] builds it for the method
    (GET when empty) and for the base URL followed by the path and, when
    there is at least one parameter, by a question mark and the encoded
    parameters; it carries the body given and exactly three headers:
    Accept, and the identifier and the secret of the client under the two
    custom names. *)
Theorem intel_request_shape cl method rawurl params body req :
  sent_request url_Parse QueryEscape cl method rawurl params body (IntelClient.authFunc cl)
  = inr req →
  Method req = (if decide (method = ""%string) then "GET"%string else method)
  ∧ URL req = (url cl +:+ rawurl +:+ query_of QueryEscape params)%string
  ∧ ReqBody req = body
  ∧ ReqHeader req
    = <["X-Csix-Custkey"%string := [key cl]]>
        (<["X-Csix-Custid"%string := [id cl]]>
           {["Accept"%string := ["application/json"%string]]}).
Proof. intros ->%sent_request_parts. done. Qed.

(** A request of the host family carries exactly two headers: Accept, and
    Authorization with the basic credentials of the client. *)
Theorem host_request_shape (basicAuth : string → string → string)
    h method rawurl params body req :
  sent_request url_Parse QueryEscape h method rawurl params body
    (HostClient.authFunc basicAuth h) = inr req →
  Method req = (if decide (method = ""%string) then "GET"%string else method)
  ∧ URL req = (url h +:+ rawurl +:+ query_of QueryEscape params)%string
  ∧ ReqBody req = body
  ∧ ReqHeader req
    = <["Authorization"%string := [basicAuth (id h) (key h)]]>
        {["Accept"%string := ["application/json"%string]]}.
Proof. intros ->%sent_request_parts. done. Qed.

End Pipeline.

(** A 200 response to a call without a target. *)
Lemma do_releases_body_witness :
  last (trace (do scheme_of (fun s => s) status_text (quiet_client malformed_json)
                 "GET" "actor/v1/queries/actors" ∅ None
                 (NilTarget : Target string unit) (fun req => req)))
  = Some BodyClose.
Proof.
  pose (req := Request_Header_Set "Accept" "application/json"
                 (mkRequest "GET" "https://intelapi.crowdstrike.com/actor/v1/queries/actors"
                    ∅ None)).
  assert (sent_request scheme_of (fun s => s) (quiet_client malformed_json)
            "GET" "actor/v1/queries/actors" ∅ None (fun req => req) = inr req) as Hreq
    by reflexivity.
  pose proof (do_releases_body scheme_of (fun s => s) status_text
                (quiet_client malformed_json) "GET" "actor/v1/queries/actors" ∅ None
                (NilTarget : Target string unit) (fun req => req) req Hreq) as H.
  simpl in H. apply H. discriminate.
Defined.

(** A 200 response decoded into a number. *)
Lemma do_typed_outcome_witness :
  fst (value (do scheme_of (fun s => s) status_text (quiet_client ok_response)
                "GET" "actor/v1/queries/actors" ∅ None
                (JSONTarget 0 (accepting_decoder 7) : Target string Z) (fun req => req)))
  = JSONTarget 7 (accepting_decoder 7)
  ∧ snd (value (do scheme_of (fun s => s) status_text (quiet_client ok_response)
                  "GET" "actor/v1/queries/actors" ∅ None
                  (JSONTarget 0 (accepting_decoder 7) : Target string Z) (fun req => req)))
    = None.
Proof.
  pose (req := Request_Header_Set "Accept" "application/json"
                 (mkRequest "GET" "https://intelapi.crowdstrike.com/actor/v1/queries/actors"
                    ∅ None)).
  assert (sent_request scheme_of (fun s => s) (quiet_client ok_response)
            "GET" "actor/v1/queries/actors" ∅ None (fun req => req) = inr req) as Hreq
    by reflexivity.
  assert (200 <= StatusCode ok_response < 300) as Hs by (simpl; lia).
  destruct (do_typed_outcome scheme_of (fun s => s) status_text (W:=string)
              (quiet_client ok_response) "GET" "actor/v1/queries/actors" ∅ None
              0 (accepting_decoder 7) (fun req => req) req ok_response Hreq eq_refl)
    as [Hok _].
  destruct (Hok Hs) as (-> & _ & _). by split.
Defined.

(** The request of an indicator search. *)
Lemma intel_request_shape_witness :
  match sent_request scheme_of (fun s => s) (quiet_client ok_response) "GET"
          "indicator/v1/search/domain"
          (snd (indicatorRequestToParams (indicator_request "domain" "equal" "example.com")))
          None (IntelClient.authFunc (quiet_client ok_response)) with
  | inr req =>
      URL req
      = ("https://intelapi.crowdstrike.com/indicator/v1/search/domain"
         +:+ "?equal=example.com&page=1&perPage=10")%string
      ∧ ReqHeader req !! "X-Csix-Custid"%string = Some ["id"%string]
  | inl _ => False
  end.
Proof.
  destruct (sent_request _ _ _ _ _ _ _ _) as [e|req] eqn:Hreq;
    [by vm_compute in Hreq|].
  destruct (intel_request_shape scheme_of (fun s => s) _ _ _ _ _ _ Hreq)
    as (_ & -> & _ & ->).
  split; by vm_compute.
Defined.

(** The request of a device count. *)
Lemma host_request_shape_witness :
  match sent_request scheme_of (fun s => s) (quiet_client ok_response) "GET"
          "indicators/aggregates/devices-count/v1"
          (HostAPI.type_value_params "domain" "example.com")
          None (HostClient.authFunc sample_basicAuth (quiet_client ok_response)) with
  | inr req =>
      URL req
      = ("https://intelapi.crowdstrike.com/indicators/aggregates/devices-count/v1"
         +:+ "?type=domain&value=example.com")%string
      ∧ ReqHeader req !! "Authorization"%string = Some ["Basic id:secret"%string]
  | inl _ => False
  end.
Proof.
  destruct (sent_request _ _ _ _ _ _ _ _) as [e|req] eqn:Hreq;
    [by vm_compute in Hreq|].
  destruct (host_request_shape scheme_of (fun s => s) sample_basicAuth _ _ _ _ _ _ Hreq)
    as (_ & -> & _ & ->).
  split; by vm_compute.
Defined.

End PipelineMore.

(** ** The encoders: what a parameter map holds and what it never holds *)

Module EncoderMore.
Import GoInt GoTime Params Intel Host Claims Coverage ParamsFacts.

#[local] Arguments addStringArr : simpl never.
#[local] Arguments addSortFields : simpl never.
#[local] Arguments List.filter : simpl never.

Lemma clean_empty : clean ∅.
Proof. apply map_Forall_empty. Qed.

Lemma clean_at key (v : Values) :
  clean v → Forall (fun s => s ≠ ""%string) (Values_at key v).
Proof.
  intros Hc. unfold Values_at. destruct (v !! key) as [vs|] eqn:Hk; simpl; [|done].
  by destruct (Hc _ _ Hk).
Qed.

Lemma clean_Add key value (v : Values) :
  value ≠ ""%string → clean v → clean (Values_Add key value v).
Proof.
  intros Hv Hc. unfold Values_Add. apply map_Forall_insert_2; [|done].
  split; [by destruct (Values_at key v)|].
  apply Forall_app. split; [by apply clean_at|]. by constructor.
Qed.

Lemma clean_addString name val (v : Values) : clean v → clean (addString name val v).
Proof. intros Hc. unfold addString. case_decide; [done|]. by apply clean_Add. Qed.

Lemma clean_addStringArr name val (v : Values) : clean v → clean (addStringArr name val v).
Proof.
  unfold addStringArr. revert v. induction val as [|s val IH]; intros v Hc; [done|].
  simpl. by apply IH, clean_addString.
Qed.

Lemma clean_addSortFields name sfs (v : Values) :
  clean v → clean (addSortFields name sfs v).
Proof.
  unfold addSortFields. revert v. induction sfs as [|s sfs IH]; intros v Hc; [done|].
  simpl. by apply IH, clean_addString.
Qed.

Lemma clean_addInt name n (v : Values) : clean v → clean (addInt name n v).
Proof. apply clean_addString. Qed.

Lemma clean_addTime name t (v : Values) : clean v → clean (addTime name t v).
Proof.
  intros Hc. unfold addTime. destruct t as [t|]; [|done].
  destruct (negb (IsZero t)); [|done]. apply clean_Add; [|done]. apply Itoa_nonempty.
Qed.

Lemma append_nonempty_r (a b : string) : b ≠ ""%string → (a +:+ b)%string ≠ ""%string.
Proof. intros Hb. destruct a; [done|]. discriminate. Qed.

Lemma Format_RFC3339_nonempty lo t : Format_RFC3339 lo t ≠ ""%string.
Proof.
  unfold Format_RFC3339. destruct (civil_of_days _) as [[y m] d].
  apply append_nonempty_r. discriminate.
Qed.

Lemma clean_addRFCTime lo name t (v : Values) : clean v → clean (addRFCTime lo name t v).
Proof.
  intros Hc. unfold addRFCTime. destruct t as [t|]; [|done].
  apply clean_Add; [|done]. apply Format_RFC3339_nonempty.
Qed.

(** The parameter maps of the actor query and of the IOC search never hold
    an empty value nor a key without a value, whatever the request is.
    That of the indicator search is as clean when the value of the filter
    is not empty and the sort field, if any, has a name; a sort field
    without a name puts an empty value under "sort". *)
Theorem encoders_emit_clean_params :
  (∀ req, clean (snd (actorRequestToParams req)))
  ∧ (∀ localOffset req, clean (searchRequestToParams localOffset req))
  ∧ (∀ req,
       IndicatorRequest.Value req ≠ ""%string →
       (∀ sf, IndicatorRequest.Sort req = Some sf → Name sf ≠ ""%string) →
       clean (snd (indicatorRequestToParams req)))
  ∧ (∀ req sf,
       IndicatorRequest.Sort req = Some sf → Name sf = ""%string →
       ¬ clean (snd (indicatorRequestToParams req))).
Proof.
  split; [|split; [|split]].
  - intros req. unfold actorRequestToParams.
    destruct req as [q n d t1 t2 t3 t4 o tc ti m [|f0 f] sf [off lim]];
      simpl; destruct (lim =? 0); simpl;
      repeat first [ apply clean_addInt | apply clean_addSortFields
                   | apply clean_addStringArr | apply clean_addTime
                   | apply clean_addString | apply clean_empty ].
  - intros lo req. unfold searchRequestToParams.
    destruct req as [ty va po sh so t1 t2 [s|] [off lim]];
      simpl; destruct (lim =? 0), (off =? 0); simpl;
      repeat first [ apply clean_addInt | apply clean_addSortFields
                   | apply clean_addRFCTime | apply clean_addStringArr
                   | apply clean_addString | apply clean_empty ].
  - intros req Hv Hs. unfold indicatorRequestToParams.
    assert (clean ({[IndicatorRequest.Filter req := [IndicatorRequest.Value req]]} : Values))
      as H0.
    { apply map_Forall_singleton. split; [done|]. by constructor. }
    destruct req as [pa fi va [[sn sa]|] pg pp]; simpl in *;
      destruct (pg =? 0); simpl; destruct (pp =? 0); simpl;
      repeat (apply clean_Add;
              [first [ apply (Itoa_nonempty 1) | apply (Itoa_nonempty 10)
                     | apply Itoa_nonempty | by destruct sa
                     | by apply (Hs _ eq_refl) ]|]);
      exact H0.
  - intros req sf Hsf Hn Hc.
    pose proof (clean_at "sort" _ Hc) as Hf. revert Hf.
    unfold indicatorRequestToParams.
    destruct req as [pa fi va so pg pp]; simpl in *. subst so. destruct sf as [sn sa].
    simpl in Hn. subst sn.
    destruct (pg =? 0); simpl; destruct (pp =? 0); simpl; read_key;
      rewrite !Forall_app; intros [_ Hf]; by inversion Hf.
Qed.

Lemma lookup_addInt_ne name key n (v : Values) :
  name ≠ key → addInt name n v !! key = v !! key.
Proof. apply lookup_addString_ne. Qed.

Lemma lookup_addTime_ne name key t (v : Values) :
  name ≠ key → addTime name t v !! key = v !! key.
Proof.
  intros. unfold addTime. destruct t as [t|]; [|done].
  destruct (negb (IsZero t)); [|done]. by apply lookup_Add_ne.
Qed.

Lemma lookup_addRFCTime_ne lo name key t (v : Values) :
  name ≠ key → addRFCTime lo name t v !! key = v !! key.
Proof.
  intros. unfold addRFCTime. destruct t as [t|]; [|done]. by apply lookup_Add_ne.
Qed.

Ltac skip_lookup :=
  repeat first
    [ rewrite lookup_addInt_ne by done
    | rewrite lookup_addSortFields_ne by done
    | rewrite lookup_addStringArr_ne by done
    | rewrite lookup_addTime_ne by done
    | rewrite lookup_addRFCTime_ne by done
    | rewrite lookup_addString_ne by done ].

Lemma Values_at_present key (v : Values) : Values_at key v ≠ [] → is_Some (v !! key).
Proof. unfold Values_at. destruct (v !! key); [by eexists|done]. Qed.

(** The actor query holds no key besides its fifteen and always holds
    "limit" and "offset"; the IOC search query holds no key besides its
    ten. *)
Theorem encoders_key_sets :
  (∀ req key, is_Some (snd (actorRequestToParams req) !! key) → key ∈ actor_keys)
  ∧ (∀ req, is_Some (snd (actorRequestToParams req) !! "limit"%string)
            ∧ is_Some (snd (actorRequestToParams req) !! "offset"%string))
  ∧ (∀ localOffset req key,
       is_Some (searchRequestToParams localOffset req !! key) → key ∈ search_keys).
Proof.
  split; [|split].
  - intros req key Hk. destruct (decide (key ∈ actor_keys)) as [|Hn]; [done|]. exfalso.
    unfold actor_keys in Hn. repeat (apply not_elem_of_cons in Hn as [? Hn]).
    revert Hk. unfold actorRequestToParams.
    destruct req as [q n d t1 t2 t3 t4 o tc ti m [|f0 f] sf [off lim]];
      simpl; destruct (lim =? 0); simpl; skip_lookup;
      rewrite lookup_empty; by intros [? ?].
  - intros req. unfold actorRequestToParams.
    destruct req as [q n d t1 t2 t3 t4 o tc ti m [|f0 f] sf [off lim]];
      simpl; destruct (lim =? 0); simpl; split; apply Values_at_present; read_key;
      discriminate.
  - intros lo req key Hk. destruct (decide (key ∈ search_keys)) as [|Hn]; [done|]. exfalso.
    unfold search_keys in Hn. repeat (apply not_elem_of_cons in Hn as [? Hn]).
    revert Hk. unfold searchRequestToParams.
    destruct req as [ty va po sh so t1 t2 [s|] [off lim]];
      simpl; destruct (lim =? 0), (off =? 0); simpl; skip_lookup;
      rewrite lookup_empty; by intros [? ?].
Qed.

(** The string fields of the actor query go in when they are not empty,
    and only then. *)
Theorem actor_string_fields req :
  let params := snd (actorRequestToParams req) in
  Values_at "q" params = entry (ActorRequest.Q req)
  ∧ Values_at "name" params = entry (ActorRequest.Name req)
  ∧ Values_at "description" params = entry (ActorRequest.Description req).
Proof.
  intros params. subst params. unfold actorRequestToParams.
  destruct req as [q n d t1 t2 t3 t4 o tc ti m [|f0 f] sf [off lim]];
    simpl; destruct (lim =? 0); simpl; repeat split; by read_key.
Qed.

(** The encoder of the legacy indicator request and that of the split
    client agree: a legacy request gives the parameters, and is left with
    the defaults, of the request with the same fields whose sort field is
    absent when the legacy one has no name. *)
Theorem legacy_indicator_encoder_agrees (r : LegacyIntel.IndicatorRequest.t) :
  snd (LegacyIntel.indicatorRequestToParams r)
  = snd (indicatorRequestToParams (of_legacy r))
  ∧ of_legacy (fst (LegacyIntel.indicatorRequestToParams r))
    = fst (indicatorRequestToParams (of_legacy r)).
Proof.
  destruct r as [pa fi va [sn sa] pg pp].
  unfold LegacyIntel.indicatorRequestToParams, indicatorRequestToParams, of_legacy.
  simpl. destruct (String.eqb sn "") eqn:Hn; simpl;
    destruct (pg =? 0); simpl; destruct (pp =? 0); simpl; rewrite ?Hn; by split.
Qed.

End EncoderMore.

(** ** The command-line front ends: from the flags to the query *)

Module CLIMore.
Import GoInt GoTime Params Intel Host CLI Claims Coverage ParamsFacts.

#[local] Arguments addStringArr : simpl never.
#[local] Arguments addSortFields : simpl never.
#[local] Arguments List.filter : simpl never.

Lemma Split_comma_nonempty s : Split_comma s ≠ [].
Proof.
  destruct s as [|ch s]; simpl; [done|].
  destruct (Ascii.eqb ch _); [done|]. by destruct (Split_comma s).
Qed.

Lemma join_comma_cons piece pieces :
  pieces ≠ [] → join_comma (piece :: pieces) = (piece +:+ "," +:+ join_comma pieces)%string.
Proof. by destruct pieces. Qed.

Lemma join_comma_cons_head ch piece pieces :
  join_comma (String ch piece :: pieces) = String ch (join_comma (piece :: pieces)).
Proof. by destruct pieces. Qed.

Lemma join_Split_comma s : join_comma (Split_comma s) = s.
Proof.
  induction s as [|ch s IH]; [done|]. simpl Split_comma.
  destruct (Ascii.eqb ch _) eqn:Hc.
  - apply Ascii.eqb_eq in Hc as ->.
    rewrite join_comma_cons by apply Split_comma_nonempty. by rewrite IH.
  - pose proof (Split_comma_nonempty s) as Hne.
    destruct (Split_comma s) as [|piece pieces]; [done|].
    by rewrite join_comma_cons_head, IH.
Qed.

Lemma Split_comma_pieces s : Forall (fun piece => has_comma piece = false) (Split_comma s).
Proof.
  induction s as [|ch s IH]; simpl; [by repeat constructor|].
  destruct (Ascii.eqb ch _) eqn:Hc; [by constructor|].
  destruct (Split_comma s) as [|piece pieces].
  { constructor; [|constructor]. unfold has_comma. simpl. by rewrite Hc. }
  inversion IH as [|? ? Hp Hps]; subst. constructor; [|done].
  unfold has_comma in *. simpl. by rewrite Hc.
Qed.

Lemma Split_comma_plain piece :
  has_comma piece = false → Split_comma piece = [piece].
Proof.
  induction piece as [|ch piece IH]; [done|].
  unfold has_comma. simpl. intros [Hc Hp]%orb_false_elim.
  by rewrite Hc, (IH Hp).
Qed.

Lemma Split_comma_append piece s :
  has_comma piece = false →
  Split_comma (piece +:+ "," +:+ s) = piece :: Split_comma s.
Proof.
  induction piece as [|ch piece IH]; [done|].
  unfold has_comma. simpl. intros [Hc Hp]%orb_false_elim.
  change (existsb _ _ = false) with (has_comma piece = false) in Hp.
  by rewrite Hc, (IH Hp).
Qed.

Lemma Split_join_comma pieces :
  pieces ≠ [] → Forall (fun piece => has_comma piece = false) pieces →
  Split_comma (join_comma pieces) = pieces.
Proof.
  induction pieces as [|piece pieces IH]; [done|]. intros _ Hall.
  inversion Hall as [|? ? Hp Hps]; subst.
  destruct pieces as [|piece' pieces]; [by apply Split_comma_plain|].
  rewrite join_comma_cons by done. rewrite Split_comma_append by done.
  by rewrite IH.
Qed.

(** A list flag is cut at its commas. What [addStringList] appends to
    the list is the one non-empty list of comma-free pieces that, joined
    again with commas, give the flag back; the list it is given stays in
    front. A flag without a comma, the empty flag among them, appends
    itself as the only piece. *)
Theorem addStringList_cuts_at_commas (s : string) (lst : list string) :
  ∃ pieces,
    addStringList s lst = lst ++ pieces
    ∧ pieces ≠ []
    ∧ Forall (fun piece => has_comma piece = false) pieces
    ∧ join_comma pieces = s
    ∧ (∀ pieces', pieces' ≠ [] → Forall (fun piece => has_comma piece = false) pieces'
                  → join_comma pieces' = s → pieces' = pieces)
    ∧ (has_comma s = false → pieces = [s]).
Proof.
  exists (Split_comma s). split; [done|].
  split; [apply Split_comma_nonempty|].
  split; [apply Split_comma_pieces|].
  split; [apply join_Split_comma|].
  split; [|apply Split_comma_plain].
  intros pieces' Hne Hall <-. symmetry. by apply Split_join_comma.
Qed.

Lemma filter_nonempty_plain s :
  List.filter nonempty [s] = entry s.
Proof.
  unfold entry. case_decide as Hs; [by subst|].
  apply String.eqb_neq in Hs. unfold List.filter. by rewrite Hs.
Qed.

(** The query of the actors front end. Every list flag contributes its
    non-empty pieces, in order, under the key of its field, so that a
    flag left empty contributes nothing, although [addStringList] has put
    an empty piece in the request; the motivation flag contributes its
    pieces twice. Whatever the flags are, the query asks for the basic
    fields, for ten results and for offset zero, and for no sort
    order. *)
Theorem actors_front_end_query q name desc origin country industry motivation :
  let params :=
    snd (actorRequestToParams
           (actors_request q name desc origin country industry motivation)) in
  Values_at "q" params = entry q
  ∧ Values_at "name" params = entry name
  ∧ Values_at "description" params = entry desc
  ∧ Values_at "origins" params = List.filter nonempty (Split_comma origin)
  ∧ Values_at "target_countries" params = List.filter nonempty (Split_comma country)
  ∧ Values_at "target_industries" params = List.filter nonempty (Split_comma industry)
  ∧ Values_at "motivations" params
    = List.filter nonempty (Split_comma motivation)
      ++ List.filter nonempty (Split_comma motivation)
  ∧ Values_at "fields" params = [BasicFields]
  ∧ Values_at "sort" params = []
  ∧ Values_at "offset" params = ["0"%string]
  ∧ Values_at "limit" params = ["10"%string]
  ∧ (origin = ""%string → Values_at "origins" params = []).
Proof.
  intros params. subst params.
  unfold actorRequestToParams, actors_request, addStringList. simpl.
  repeat split; try by read_key.
  intros ->. by read_key.
Qed.

(** The query of the IOC front end for a search. Every list flag
    contributes its non-empty pieces under the key of its field; the sort
    flag, when it is not empty, one value, the name and the direction;
    the limit and the offset never reach the query, whatever the flags
    of these names hold, since the front end does not copy them into the
    request. With every flag left empty the query has no parameter at
    all. *)
Theorem iocs_front_end_query localOffset types values policies shareLevels sources
    from to sort asc :
  let params :=
    searchRequestToParams localOffset
      (iocs_request types values policies shareLevels sources from to sort asc) in
  Values_at "types" params = List.filter nonempty (Split_comma types)
  ∧ Values_at "values" params = List.filter nonempty (Split_comma values)
  ∧ Values_at "policies" params = List.filter nonempty (Split_comma policies)
  ∧ Values_at "share_levels" params = List.filter nonempty (Split_comma shareLevels)
  ∧ Values_at "sources" params = List.filter nonempty (Split_comma sources)
  ∧ Values_at "sort" params
    = (if decide (sort = ""%string) then []
       else [((sort +:+ ".") +:+ (if asc : bool then "asc" else "desc"))%string])
  ∧ params !! "limit"%string = None
  ∧ params !! "offset"%string = None
  ∧ (types = ""%string → values = ""%string → policies = ""%string →
     shareLevels = ""%string → sources = ""%string → sort = ""%string →
     from = None → to = None → params = ∅).
Proof.
  intros params. subst params.
  unfold searchRequestToParams, iocs_request, addStringList. simpl.
  split; [|split; [|split; [|split; [|split; [|split; [|split; [|split]]]]]]].
  1-5: destruct (String.eqb sort ""); simpl; by read_key.
  - case_decide as Hs.
    + subst sort. simpl. by read_key.
    + apply String.eqb_neq in Hs. rewrite Hs. simpl. read_key.
      unfold sortValue. simpl. by destruct asc.
  - destruct (String.eqb sort ""); simpl;
      rewrite ?lookup_addSortFields_ne by done;
      unfold addRFCTime; destruct from, to;
      rewrite ?lookup_Add_ne by done; by rewrite !lookup_addStringArr_ne by done.
  - destruct (String.eqb sort ""); simpl;
      rewrite ?lookup_addSortFields_ne by done;
      unfold addRFCTime; destruct from, to;
      rewrite ?lookup_Add_ne by done; by rewrite !lookup_addStringArr_ne by done.
  - by intros -> -> -> -> -> -> -> ->.
Qed.

End CLIMore.

(** ** The endpoints: what a call hands back *)

Module EndpointMore.
Import GoInt GoTime Params GoHTTP Client Intel Host IntelClient HostClient HostAPI.
Import Claims Coverage ParamsFacts ConstructionFacts PipelineFacts PipelineMore.

#[local] Arguments addStringArr : simpl never.

Lemma trace_then_ret {A B} (m : Eff A) (f : A → B) :
  trace (m ≫= λ r, ret (f r)) = trace m.
Proof. rewrite trace_bind. simpl. by rewrite app_nil_r. Qed.

Lemma addStringArr_blank name ids (v : Values) :
  List.filter nonempty ids = [] → addStringArr name ids v = v.
Proof.
  unfold addStringArr. revert v. induction ids as [|i ids IH]; intros v; [done|].
  simpl. destruct (String.eqb i "") eqn:Hi; [|done].
  apply String.eqb_eq in Hi as ->. simpl. intros Hf. by apply IH.
Qed.

Section Endpoints.
Variable url_Parse : string → foreign + string.
Variable QueryEscape : string → string.
Variable StatusText : Z → string.
Variable localOffset : Z → Z.
Variable unrepresentable : GoFloat.float64 → Z.
Variable basicAuth : string → string → string.
Variable json_Encode_IOCs : list IOC → foreign + string.
Variable json_Encode_IOC : IOC → foreign + string.

Abbreviation run := (do url_Parse QueryEscape StatusText).
Abbreviation typed := (typed_outcome url_Parse QueryEscape StatusText).
Abbreviation sent := (sent_request url_Parse QueryEscape).
Abbreviation auth := (HostClient.authFunc basicAuth).

(** The value of a typed call of [do]. *)
Lemma do_typed_value {W T} `{Writer W} cl method rawurl params body
    (v : T) decode authFunc :
  value (run cl method rawurl params body (JSONTarget v decode : Target W T) authFunc)
  = (JSONTarget (fst (typed cl method rawurl params body v decode authFunc)) decode,
     snd (typed cl method rawurl params body v decode authFunc)).
Proof.
  unfold typed_outcome.
  destruct (sent cl method rawurl params body authFunc) as [e|req] eqn:Hreq.
  - by rewrite (do_without_request url_Parse QueryEscape StatusText _ _ _ _ _ _ _ _ Hreq).
  - destruct (c cl req) as [e|resp] eqn:Hresp.
    + by rewrite (do_without_response url_Parse QueryEscape StatusText
                    _ _ _ _ _ _ _ _ _ Hreq Hresp).
    + destruct (do_with_response url_Parse QueryEscape StatusText cl method rawurl params
                  body (JSONTarget v decode : Target W T) authFunc req resp Hreq Hresp)
        as (_ & _ & _ & _ & _ & ->).
      destruct ((StatusCode resp <? 200) || (300 <=? StatusCode resp)) eqn:Hs.
      * assert (StatusCode resp < 200 ∨ 300 <= StatusCode resp) as Hs'
          by (apply orb_true_iff in Hs as [?%Z.ltb_lt|?%Z.leb_le]; lia).
        by destruct (deliver_error_status StatusText cl resp
                       (JSONTarget v decode : Target W T) Hs') as [-> _].
      * assert (200 <= StatusCode resp < 300) as Hs'
          by (apply orb_false_iff in Hs as [?%Z.ltb_ge ?%Z.leb_gt]; lia).
        by rewrite (deliver_ok StatusText cl resp _ Hs').
Qed.

(** The transport calls of [do]. *)
Lemma transport_calls {W T} `{Writer W} cl method rawurl params body
    (result : Target W T) authFunc :
  List.filter is_transport_call (trace (run cl method rawurl params body result authFunc))
  = match sent cl method rawurl params body authFunc with
    | inl _ => []
    | inr req => [Transport req]
    end.
Proof.
  destruct (sent cl method rawurl params body authFunc) as [e|req] eqn:Hreq.
  - by rewrite (do_without_request _ _ _ _ _ _ _ _ _ _ _ Hreq).
  - destruct (do_with_request url_Parse QueryEscape StatusText cl method rawurl params
                body result authFunc req Hreq) as (pre & post & Hpre & Hpost & ->).
    rewrite !List.filter_app.
    rewrite (filter_nil_count _ pre), (filter_nil_count _ post)
      by (apply count_log; auto using call_not_log).
    simpl. f_equal. destruct (c cl req) as [e|resp]; [done|].
    rewrite List.filter_app,
      (filter_nil_count _ _ (deliver_quiet StatusText cl resp result)).
    unfold Body_Close. by destruct (kind (RespBody resp)).
Qed.

(** What [Actors] hands back. The request is the one the encoder leaves,
    with its defaults. The response is never nil: it is the zero response
    when the request cannot be built, when the transport fails and when
    the status is outside [200, 299]; otherwise it is what the decoder
    left. Its dates are derived from the epochs only when there is no
    error: after a decoding error the resources come back as the decoder
    left them, dates untouched. *)
Theorem Actors_outcome decode cl req :
  let out :=
    typed cl "GET" "actor/v1/queries/actors" (snd (actorRequestToParams req)) None
      ActorResponse.zero decode (IntelClient.authFunc cl) in
  value (Actors url_Parse QueryEscape StatusText unrepresentable decode cl req)
  = (fst (actorRequestToParams req),
     match snd out with
     | None =>
         with_Resources
           (Resource_convertDates unrepresentable <$> ActorResponse.Resources (fst out))
           (fst out)
     | Some _ => fst out
     end,
     snd out).
Proof.
  intros out. subst out. unfold Actors.
  destruct (actorRequestToParams req) as [req' params]. cbn [fst snd].
  rewrite value_bind, do_typed_value. cbn [fst snd].
  by destruct (snd (typed _ _ _ _ _ _ _ _)).
Qed.

(** What [Indicators] hands back. With a required field blank nothing is
    sent, the request is left as it is and the error is
    [ErrMissingParams]. Otherwise the path ends with the parameter of the
    request, the request comes back with the defaults of the encoder, and
    the dates of the indicators, of their relations and of their labels
    are derived only when there is no error. *)
Theorem Indicators_outcome decode cl req :
  let out :=
    typed cl "GET" ("indicator/v1/search/" +:+ IndicatorRequest.Parameter_ req)
      (snd (indicatorRequestToParams req)) None [] decode (IntelClient.authFunc cl) in
  Indicators url_Parse QueryEscape StatusText unrepresentable decode cl req
  = (if missing_indicator_params req
     then ([], (req, [], Some (GocsError ErrMissingParams)))
     else
       (trace (run cl "GET" ("indicator/v1/search/" +:+ IndicatorRequest.Parameter_ req)
                 (snd (indicatorRequestToParams req)) None
                 (JSONTarget [] decode : Target string (list IndicatorResponse.t))
                 (IntelClient.authFunc cl)),
        (fst (indicatorRequestToParams req),
         match snd out with
         | None => IndicatorResponse_convertDates unrepresentable <$> fst out
         | Some _ => fst out
         end,
         snd out))).
Proof.
  intros out. subst out. unfold Indicators.
  destruct (missing_indicator_params req); [done|].
  destruct (indicatorRequestToParams req) as [req' params]. cbn [fst snd].
  apply injective_projections.
  - change (fst ?x) with (trace x) at 1. cbn [fst].
    rewrite trace_bind.
    destruct (snd (value (run _ _ _ _ _ _ _))); simpl; by rewrite app_nil_r.
  - change (snd ?x) with (value x) at 1. cbn [snd].
    rewrite value_bind, do_typed_value. cbn [fst snd].
    by destruct (snd (typed _ _ _ _ _ _ _ _)).
Qed.

(** The typed endpoints of the host family, one by one: the method, the
    path and the parameters of the call, and what comes back. The
    response is never nil and never touched after the decoder: it is the
    zero response when the request cannot be built, when the transport
    fails and when the status is outside [200, 299], and otherwise what
    the decoder left, with the decoder's error if any. *)
Theorem host_typed_endpoints h :
  (∀ decode req,
     value (SearchIOCs url_Parse QueryEscape StatusText localOffset basicAuth decode h req)
     = typed h "GET" "indicators/queries/iocs/v1" (searchRequestToParams localOffset req)
         None SearchIOCsResponse.zero decode (auth h))
  ∧ (∀ decode t v,
       value (DeviceCount url_Parse QueryEscape StatusText basicAuth decode h t v)
       = typed h "GET" "indicators/aggregates/devices-count/v1" (type_value_params t v)
           None DeviceCountResponse.zero decode (auth h))
  ∧ (∀ decode t v,
       value (DevicesRanOn url_Parse QueryEscape StatusText basicAuth decode h t v)
       = typed h "GET" "indicators/queries/devices/v1" (type_value_params t v)
           None SearchIOCsResponse.zero decode (auth h))
  ∧ (∀ decode t v device,
       value (ProcessesRanOn url_Parse QueryEscape StatusText basicAuth decode h t v device)
       = typed h "GET" "indicators/queries/processes/v1"
           (type_value_device_params t v device)
           None SearchIOCsResponse.zero decode (auth h))
  ∧ (∀ decode ids,
       value (ProcessDetails url_Parse QueryEscape StatusText basicAuth decode h ids)
       = typed h "GET" "processes/entities/processes/v1" (addStringArr "ids" ids ∅)
           None ProcessResponse.zero decode (auth h))
  ∧ (∀ decode ids,
       value (DeleteIOCs url_Parse QueryEscape StatusText basicAuth decode h ids)
       = typed h "DELETE" "indicators/entities/iocs/v1" (addStringArr "ids" ids ∅)
           None SearchIOCsResponse.zero decode (auth h))
  ∧ (∀ decode ids toState,
       value (Resolve url_Parse QueryEscape StatusText basicAuth decode h ids toState)
       = typed h "PATCH" "detects/entities/detects/v1"
           (addString "to_status" toState (addStringArr "ids" ids ∅))
           None ResolveResponse.zero decode (auth h)).
Proof.
  split; [|split; [|split; [|split; [|split; [|split]]]]]; intros.
  all: unfold SearchIOCs, DeviceCount, DevicesRanOn, ProcessesRanOn, ProcessDetails,
         DeleteIOCs, Resolve, decoded.
  all: rewrite value_bind, do_typed_value; cbn [fst snd value ret].
  all: by destruct (typed _ _ _ _ _ _ _ _).
Qed.

(** The two endpoints that send an IOC reach the transport only with a
    payload. [UpdateIOCs] with a nil IOC does nothing and returns a nil
    response and [ErrMissingParams]. When the payload cannot be encoded,
    both return the error of the encoder with the zero response, and
    nothing is sent or logged. Otherwise the transport is called once,
    with the request built for the encoded payload: POST without
    parameters for an upload, PATCH with the identifiers for an
    update. *)
Theorem ioc_writes_need_payload decode h ids iocs ioc :
  UpdateIOCs url_Parse QueryEscape StatusText basicAuth json_Encode_IOC decode h ids None
  = ([], (None, Some (GocsError ErrMissingParams)))
  ∧ (∀ e, json_Encode_IOC ioc = inl e →
       UpdateIOCs url_Parse QueryEscape StatusText basicAuth json_Encode_IOC decode h ids
         (Some ioc)
       = ([], (Some SearchIOCsResponse.zero, Some (ForeignError e))))
  ∧ (∀ e, json_Encode_IOCs iocs = inl e →
       UploadIOCs url_Parse QueryEscape StatusText basicAuth json_Encode_IOCs decode h iocs
       = ([], (SearchIOCsResponse.zero, Some (ForeignError e))))
  ∧ (∀ b, json_Encode_IOC ioc = inr b →
       List.filter is_transport_call
         (trace (UpdateIOCs url_Parse QueryEscape StatusText basicAuth json_Encode_IOC
                   decode h ids (Some ioc)))
       = match sent h "PATCH" "indicators/entities/iocs/v1" (addStringArr "ids" ids ∅)
                 (Some b) (auth h) with
         | inl _ => []
         | inr req => [Transport req]
         end)
  ∧ (∀ b, json_Encode_IOCs iocs = inr b →
       List.filter is_transport_call
         (trace (UploadIOCs url_Parse QueryEscape StatusText basicAuth json_Encode_IOCs
                   decode h iocs))
       = match sent h "POST" "indicators/entities/iocs/v1" ∅ (Some b) (auth h) with
         | inl _ => []
         | inr req => [Transport req]
         end).
Proof.
  split; [done|]. split; [|split; [|split]].
  - intros e He. unfold UpdateIOCs. by rewrite He.
  - intros e He. unfold UploadIOCs. by rewrite He.
  - intros b Hb. unfold UpdateIOCs. rewrite Hb, trace_then_ret. apply transport_calls.
  - intros b Hb. unfold UploadIOCs. rewrite Hb, trace_then_ret. apply transport_calls.
Qed.

(** The value of a raw call of [do]. *)
Lemma do_raw_value {W T} `{Writer W} cl method rawurl params body (w : option W) authFunc :
  let r :=
    value (run cl method rawurl params body
             (match w with Some w => WriterTarget w | None => NilTarget end : Target W T)
             authFunc) in
  (match fst r with WriterTarget w' => Some w' | _ => w end, snd r)
  = raw_outcome url_Parse QueryEscape StatusText cl method rawurl params body w authFunc.
Proof.
  intros r. subst r. unfold raw_outcome.
  destruct (sent cl method rawurl params body authFunc) as [e|req] eqn:Hreq.
  - rewrite (do_without_request url_Parse QueryEscape StatusText _ _ _ _ _ _ _ _ Hreq).
    by destruct w.
  - destruct (c cl req) as [e|resp] eqn:Hresp.
    + rewrite (do_without_response url_Parse QueryEscape StatusText
                 _ _ _ _ _ _ _ _ _ Hreq Hresp).
      by destruct w.
    + destruct (do_with_response url_Parse QueryEscape StatusText cl method rawurl params
                  body (match w with Some w => WriterTarget w | None => NilTarget end
                        : Target W T) authFunc req resp Hreq Hresp)
        as (_ & _ & _ & _ & _ & ->).
      destruct ((StatusCode resp <? 200) || (300 <=? StatusCode resp)) eqn:Hs.
      * assert (StatusCode resp < 200 ∨ 300 <= StatusCode resp) as Hs'
          by (apply orb_true_iff in Hs as [?%Z.ltb_lt|?%Z.leb_le]; lia).
        destruct (deliver_error_status StatusText cl resp
                    (match w with Some w => WriterTarget w | None => NilTarget end
                     : Target W T) Hs') as [-> _].
        by destruct w.
      * assert (200 <= StatusCode resp < 300) as Hs'
          by (apply orb_false_iff in Hs as [?%Z.ltb_ge ?%Z.leb_gt]; lia).
        rewrite (deliver_ok StatusText cl resp _ Hs'). by destruct w.
Qed.

(** The raw endpoints, one by one: the method, the path and the
    parameters of the call, and what comes back. The writer is written
    to only after a status inside [200, 299]: when the request cannot be
    built, when the transport fails and when the status is outside, it
    comes back as it was given, with the error. Without a writer nothing
    is delivered and a status inside [200, 299] gives no error. The two
    endpoints of the intelligence family also hand back the request with
    the defaults of the encoder. *)
Theorem raw_endpoints {W} `{Writer W} cl (w : option W) :
  (∀ req,
     value (HostClient.SearchIOCsJSON url_Parse QueryEscape StatusText localOffset
              basicAuth cl req w)
     = raw_outcome url_Parse QueryEscape StatusText cl "GET" "indicators/queries/iocs/v1"
         (searchRequestToParams localOffset req) None w (auth cl))
  ∧ (∀ t v,
       value (DeviceCountJSON url_Parse QueryEscape StatusText basicAuth cl t v w)
       = raw_outcome url_Parse QueryEscape StatusText cl "GET"
           "indicators/aggregates/devices-count/v1" (type_value_params t v) None w
           (auth cl))
  ∧ (∀ t v,
       value (DevicesRanOnJSON url_Parse QueryEscape StatusText basicAuth cl t v w)
       = raw_outcome url_Parse QueryEscape StatusText cl "GET"
           "indicators/queries/devices/v1" (type_value_params t v) None w (auth cl))
  ∧ (∀ t v device,
       value (ProcessesRanOnJSON url_Parse QueryEscape StatusText basicAuth cl t v device w)
       = raw_outcome url_Parse QueryEscape StatusText cl "GET"
           "indicators/queries/processes/v1" (type_value_device_params t v device) None w
           (auth cl))
  ∧ (∀ ids,
       value (ProcessDetailsJSON url_Parse QueryEscape StatusText basicAuth cl ids w)
       = raw_outcome url_Parse QueryEscape StatusText cl "GET"
           "processes/entities/processes/v1" (addStringArr "ids" ids ∅) None w (auth cl))
  ∧ (∀ req,
       value (ActorsJSON url_Parse QueryEscape StatusText cl req w)
       = (fst (actorRequestToParams req),
          fst (raw_outcome url_Parse QueryEscape StatusText cl "GET"
                 "actor/v1/queries/actors" (snd (actorRequestToParams req)) None w
                 (IntelClient.authFunc cl)),
          snd (raw_outcome url_Parse QueryEscape StatusText cl "GET"
                 "actor/v1/queries/actors" (snd (actorRequestToParams req)) None w
                 (IntelClient.authFunc cl))))
  ∧ (∀ req,
       missing_indicator_params req = false →
       value (IndicatorsJSON url_Parse QueryEscape StatusText cl req w)
       = (fst (indicatorRequestToParams req),
          fst (raw_outcome url_Parse QueryEscape StatusText cl "GET"
                 ("indicator/v1/search/" +:+ IndicatorRequest.Parameter_ req)
                 (snd (indicatorRequestToParams req)) None w (IntelClient.authFunc cl)),
          snd (raw_outcome url_Parse QueryEscape StatusText cl "GET"
                 ("indicator/v1/search/" +:+ IndicatorRequest.Parameter_ req)
                 (snd (indicatorRequestToParams req)) None w (IntelClient.authFunc cl)))).
Proof.
  split; [|split; [|split; [|split; [|split; [|split]]]]].
  - intros. unfold HostClient.SearchIOCsJSON. rewrite value_bind. apply do_raw_value.
  - intros. unfold DeviceCountJSON. rewrite value_bind. apply do_raw_value.
  - intros. unfold DevicesRanOnJSON. rewrite value_bind. apply do_raw_value.
  - intros. unfold ProcessesRanOnJSON. rewrite value_bind. apply do_raw_value.
  - intros. unfold ProcessDetailsJSON. rewrite value_bind. apply do_raw_value.
  - intros req. unfold ActorsJSON.
    destruct (actorRequestToParams req) as [req' params]. cbn [fst snd].
    rewrite value_bind, <- (do_raw_value (T:=unit)). done.
  - intros req Hm. unfold IndicatorsJSON. rewrite Hm.
    destruct (indicatorRequestToParams req) as [req' params]. cbn [fst snd].
    rewrite value_bind, <- (do_raw_value (T:=unit)). done.
Qed.

(** The list of identifiers is not checked. When it holds no non-empty
    identifier, [DeleteIOCs] still calls the transport, once, with a
    DELETE request for the path of the IOC entities without any query. *)
Theorem DeleteIOCs_without_ids decode h ids req :
  List.filter nonempty ids = [] →
  sent h "DELETE" "indicators/entities/iocs/v1" (addStringArr "ids" ids ∅) None (auth h)
  = inr req →
  Method req = "DELETE"%string
  ∧ URL req = (url h +:+ "indicators/entities/iocs/v1")%string
  ∧ List.filter is_transport_call
      (trace (DeleteIOCs url_Parse QueryEscape StatusText basicAuth decode h ids))
    = [Transport req].
Proof.
  intros Hids Hreq. split; [|split].
  - by rewrite (sent_request_parts url_Parse QueryEscape _ _ _ _ _ _ _ Hreq).
  - rewrite (sent_request_parts url_Parse QueryEscape _ _ _ _ _ _ _ Hreq).
    rewrite (addStringArr_blank _ _ _ Hids). unfold query_of. simpl.
    rewrite decide_True by done. by rewrite !append_nil_r.
  - unfold DeleteIOCs. by rewrite trace_then_ret, transport_calls, Hreq.
Qed.

End Endpoints.

(** A list that holds one empty identifier. *)
Lemma DeleteIOCs_without_ids_witness :
  ∃ req,
    URL req = "https://intelapi.crowdstrike.com/indicators/entities/iocs/v1"%string
    ∧ List.filter is_transport_call
        (trace (DeleteIOCs scheme_of (fun s => s) status_text sample_basicAuth
                  (accepting_decoder SearchIOCsResponse.zero)
                  (quiet_client ok_response) [""%string]))
      = [Transport req].
Proof.
  destruct (sent_request scheme_of (fun s => s) (quiet_client ok_response) "DELETE"
              "indicators/entities/iocs/v1" (addStringArr "ids" [""%string] ∅) None
              (HostClient.authFunc sample_basicAuth (quiet_client ok_response)))
    as [e|req] eqn:Hreq; [by vm_compute in Hreq|].
  exists req.
  destruct (DeleteIOCs_without_ids scheme_of (fun s => s) status_text sample_basicAuth
              (accepting_decoder SearchIOCsResponse.zero) (quiet_client ok_response)
              [""%string] req eq_refl Hreq) as (_ & Hu & Ht).
  split; [by rewrite Hu|exact Ht].
Defined.

End EndpointMore.

(** ** The normaliser: applied again, it changes nothing *)

Module NormaliserMore.
Import GoInt GoTime GoFloat Intel Claims Coverage.

Section Normaliser.
Variable unrepresentable : float64 → Z.

Lemma Relation_convertDates_twice r :
  Relation_convertDates unrepresentable (Relation_convertDates unrepresentable r)
  = Relation_convertDates unrepresentable r.
Proof. by destruct r. Qed.

Lemma Label_convertDates_twice l :
  Label_convertDates unrepresentable (Label_convertDates unrepresentable l)
  = Label_convertDates unrepresentable l.
Proof. by destruct l. Qed.

Lemma convertDates_twice_map {A} (f : A → A) (l : list A) :
  (∀ x, f (f x) = f x) → f <$> (f <$> l) = f <$> l.
Proof.
  intros Hf. rewrite <- list_fmap_compose. apply list_fmap_ext. intros _ x _. apply Hf.
Qed.

(** The normalisers are idempotent and keep what was decoded: applied to
    a value they have already normalised they change nothing, so a date
    they derive is a function of its epoch alone; the epochs stay as they
    were decoded, and an indicator keeps the number of its relations and
    of its labels. *)
Theorem convertDates_idempotent :
  (∀ r,
     Resource_convertDates unrepresentable (Resource_convertDates unrepresentable r)
     = Resource_convertDates unrepresentable r
     ∧ Resource.CreatedEpoch (Resource_convertDates unrepresentable r)
       = Resource.CreatedEpoch r
     ∧ Resource.FirstActivityEpoch (Resource_convertDates unrepresentable r)
       = Resource.FirstActivityEpoch r
     ∧ Resource.LastActivityEpoch (Resource_convertDates unrepresentable r)
       = Resource.LastActivityEpoch r
     ∧ Resource.LastModifiedEpoch (Resource_convertDates unrepresentable r)
       = Resource.LastModifiedEpoch r)
  ∧ (∀ r,
       Relation_convertDates unrepresentable (Relation_convertDates unrepresentable r)
       = Relation_convertDates unrepresentable r
       ∧ Relation.CreatedDateEpoch (Relation_convertDates unrepresentable r)
         = Relation.CreatedDateEpoch r
       ∧ Relation.LastValidDateEpoch (Relation_convertDates unrepresentable r)
         = Relation.LastValidDateEpoch r)
  ∧ (∀ l,
       Label_convertDates unrepresentable (Label_convertDates unrepresentable l)
       = Label_convertDates unrepresentable l
       ∧ Label.CreatedOnEpoch (Label_convertDates unrepresentable l)
         = Label.CreatedOnEpoch l
       ∧ Label.LastValidOnEpoch (Label_convertDates unrepresentable l)
         = Label.LastValidOnEpoch l)
  ∧ (∀ ir,
       IndicatorResponse_convertDates unrepresentable
         (IndicatorResponse_convertDates unrepresentable ir)
       = IndicatorResponse_convertDates unrepresentable ir
       ∧ IndicatorResponse.LastUpdatedEpoch
           (IndicatorResponse_convertDates unrepresentable ir)
         = IndicatorResponse.LastUpdatedEpoch ir
       ∧ IndicatorResponse.PublishedDateEpoch
           (IndicatorResponse_convertDates unrepresentable ir)
         = IndicatorResponse.PublishedDateEpoch ir
       ∧ length (IndicatorResponse.Relations
                   (IndicatorResponse_convertDates unrepresentable ir))
         = length (IndicatorResponse.Relations ir)
       ∧ length (IndicatorResponse.Labels
                   (IndicatorResponse_convertDates unrepresentable ir))
         = length (IndicatorResponse.Labels ir)).
Proof.
  split; [|split; [|split]].
  - intros r. by destruct r.
  - intros r. by destruct r.
  - intros l. by destruct l.
  - intros ir. destruct ir. unfold IndicatorResponse_convertDates. simpl.
    rewrite !length_fmap. split; [|done]. f_equal.
    + apply convertDates_twice_map, Relation_convertDates_twice.
    + apply convertDates_twice_map, Label_convertDates_twice.
Qed.

End Normaliser.

End NormaliserMore.

(** ** The legacy client and the split client *)

Module LegacyMore.
Import GoInt Params GoHTTP Client Intel IntelClient Claims Coverage.

#[local] Arguments DumpResponse : simpl never.
#[local] Arguments io_Copy : simpl never.
#[local] Arguments Body_Close : simpl never.
#[local] Arguments note_read : simpl never.

Lemma ret_bind {A B} (a : A) (k : A → Eff B) : ret a ≫= k = k a.
Proof. unfold mbind, Eff_bind, bind, ret. by destruct (k a). Qed.

Lemma errorf_split cl m : errorf (split_client cl) m = Legacy.errorf cl m.
Proof. done. Qed.

Lemma tracef_split cl m : tracef (split_client cl) m = Legacy.tracef cl m.
Proof. done. Qed.

Lemma dumpRequest_split cl req :
  dumpRequest (split_client cl) req = LegacyIntel.dumpRequest cl req.
Proof. done. Qed.

Lemma dumpResponse_split cl resp :
  dumpResponse (split_client cl) resp = LegacyIntel.dumpResponse cl resp.
Proof. done. Qed.

Lemma dump_to_errorlog_split cl resp :
  dump_to_errorlog (split_client cl) resp = LegacyIntel.dump_to_errorlog cl resp.
Proof. done. Qed.

Section Pipeline.
Variable url_Parse : string → foreign + string.
Variable QueryEscape : string → string.
Variable StatusText : Z → string.
Variable DefaultClient : HTTPClient.

Lemma option_agrees o cl :
  split_built (legacy_option url_Parse DefaultClient o cl)
  = split_option url_Parse DefaultClient o (split_client cl).
Proof.
  destruct o as [i k|[h|]|u|l|l]; try done.
  - unfold legacy_option, split_option, LegacyIntel.SetCredentials, SetCredentials.
    destruct (bool_decide _ || bool_decide _); [|done].
    rewrite errorf_split. by destruct (Legacy.errorf cl _) as [t []].
  - unfold legacy_option, split_option, LegacyIntel.SetURL, SetURL.
    destruct (url_Parse _) as [e|scheme].
    + rewrite errorf_split. by destruct (Legacy.errorf cl _) as [t []].
    + destruct (negb _ && negb _); [|done].
      rewrite errorf_split. by destruct (Legacy.errorf cl _) as [t []].
Qed.

Lemma run_options_agree names cl :
  split_built (Legacy.run_options (legacy_option url_Parse DefaultClient <$> names) cl)
  = run_options (split_option url_Parse DefaultClient <$> names) (split_client cl).
Proof.
  revert cl. induction names as [|o names IH]; intros cl; [done|].
  rewrite !fmap_cons. simpl. rewrite <- option_agrees.
  destruct (legacy_option url_Parse DefaultClient o cl) as [t [e|cl1]]; [done|].
  unfold split_built at 2. simpl. rewrite <- IH.
  by destruct (Legacy.run_options _ cl1) as [t2 [e|cl2]].
Qed.

(** The legacy constructor and the constructor of the split client
    agree. For the same options, by name, [New] and [NewIntel] log the
    same lines and either both fail, with errors that hold the same code
    and message, or both return a client, with the same fields. The
    legacy constructor starts from the default URL, the split one sets
    it by an option put in front: this makes no difference as long as
    [url.Parse] accepts the default URL. *)
Theorem legacy_New_agrees names :
  url_Parse DefaultURL = inr "https"%string →
  split_built (Legacy.New DefaultClient (legacy_option url_Parse DefaultClient <$> names))
  = NewIntel url_Parse DefaultClient (split_option url_Parse DefaultClient <$> names).
Proof.
  intros Hp. unfold NewIntel, newClient, Legacy.New.
  change ([SetURL url_Parse DefaultURL] ++ ?l) with (SetURL url_Parse DefaultURL :: l).
  cbn [run_options].
  assert (SetURL url_Parse DefaultURL (mkClient "" "" "" None None DefaultClient)
          = ret (inr (split_client (legacy_blank DefaultClient)))) as ->.
  { unfold SetURL. rewrite decide_False by done. by rewrite Hp. }
  rewrite ret_bind.
  change (Legacy.mkIntel "" "" DefaultURL None None DefaultClient)
    with (legacy_blank DefaultClient).
  rewrite <- run_options_agree.
  destruct (Legacy.run_options _ (legacy_blank DefaultClient)) as [t [e|cl]].
  - unfold split_built. simpl. by rewrite !app_nil_r.
  - unfold split_built at 2. simpl. unfold check_credentials.
    rewrite tracef_split, errorf_split.
    change (id (split_client cl)) with (Legacy.id cl).
    change (key (split_client cl)) with (Legacy.key cl).
    change (url (split_client cl)) with (Legacy.url cl).
    destruct (Legacy.tracef cl _) as [t1 []].
    destruct (bool_decide _ || bool_decide _); [|done].
    by destruct (Legacy.errorf cl _) as [t2 []].
Qed.

Lemma handleError_agrees cl resp :
  handleError StatusText (split_client cl) resp
  = (trace (LegacyIntel.handleError StatusText cl resp),
     (fst (value (LegacyIntel.handleError StatusText cl resp)),
      split_error <$> snd (value (LegacyIntel.handleError StatusText cl resp)))).
Proof.
  unfold handleError, LegacyIntel.handleError.
  destruct ((StatusCode resp <? 200) || (300 <=? StatusCode resp)); [|done].
  rewrite dump_to_errorlog_split.
  destruct (LegacyIntel.dump_to_errorlog cl resp) as [t1 resp1]. simpl.
  rewrite errorf_split. by destruct (Legacy.errorf cl _) as [t2 []].
Qed.

Lemma deliver_agrees {W T} `{Writer W} cl resp (result : Target W T) :
  split_outcome (LegacyIntel.deliver StatusText cl resp result)
  = deliver StatusText (split_client cl) resp result.
Proof.
  unfold deliver, LegacyIntel.deliver. rewrite handleError_agrees.
  destruct (LegacyIntel.handleError StatusText cl resp) as [t0 [resp0 [e|]]]; [done|].
  simpl. rewrite dumpResponse_split.
  destruct (LegacyIntel.dumpResponse cl resp0) as [t1 resp1]. simpl.
  destruct result as [|w|v decode].
  - done.
  - destruct (io_Copy w (RespBody resp1)) as [t2 [[w2 [e|]] b2]]; done.
  - destruct (note_read (RespBody resp1) Partial) as [t2 []]. simpl.
    destruct (decode (RespBody resp1) v) as [[v' [e|]] b]; [|done].
    rewrite dump_to_errorlog_split.
    by destruct (LegacyIntel.dump_to_errorlog cl (with_Body b resp1)) as [t3 resp3].
Qed.

Lemma do_split {W T} `{Writer W} cl method rawurl params body
    (result : Target W T) :
  split_outcome
    (LegacyIntel.do url_Parse QueryEscape StatusText cl method rawurl params body result)
  = do url_Parse QueryEscape StatusText (split_client cl) method rawurl params body result
      (IntelClient.authFunc (split_client cl)).
Proof.
  unfold do, LegacyIntel.do, IntelClient.authFunc.
  change (url (split_client cl)) with (Legacy.url cl).
  change (id (split_client cl)) with (Legacy.id cl).
  change (key (split_client cl)) with (Legacy.key cl).
  change (c (split_client cl)) with (Legacy.c cl).
  change (tracelog (split_client cl)) with (Legacy.tracelog cl).
  destruct (http_NewRequest url_Parse method _ body) as [e|req]; [done|].
  cbv zeta.
  set (req' := Request_Header_Set AuthHeaderKey _ _).
  set (path := if (0 <? size params)%nat then _ else rawurl).
  destruct (Legacy.tracelog cl) as [l|] eqn:Hl.
  - rewrite dumpRequest_split, !tracef_split.
    destruct (LegacyIntel.dumpRequest cl req') as [t1 []].
    destruct (Legacy.tracef cl (StartRequest path)) as [t2 []].
    destruct (Legacy.tracef cl (EndRequest path)) as [t3 []].
    destruct (Legacy.c cl req') as [e|resp]; [done|].
    rewrite <- deliver_agrees.
    destruct (LegacyIntel.deliver StatusText cl resp result) as [t4 [r4 e4]].
    by destruct (Body_Close (RespBody resp)) as [t5 []].
  - destruct (Legacy.c cl req') as [e|resp]; [done|].
    rewrite <- deliver_agrees.
    destruct (LegacyIntel.deliver StatusText cl resp result) as [t4 [r4 e4]].
    by destruct (Body_Close (RespBody resp)) as [t5 []].
Qed.

Lemma do_split_value {W T} `{Writer W} cl method rawurl params body
    (result : Target W T) :
  let L := LegacyIntel.do url_Parse QueryEscape StatusText cl method rawurl params body
             result in
  do url_Parse QueryEscape StatusText (split_client cl) method rawurl params body result
    (IntelClient.authFunc (split_client cl))
  = (trace L, (fst (value L), split_error <$> snd (value L))).
Proof. intros L. subst L. by rewrite <- do_split. Qed.

Lemma missing_indicator_params_split r :
  missing_indicator_params (of_legacy r) = LegacyIntel.missing_indicator_params r.
Proof. done. Qed.

Lemma indicatorRequestToParams_split r :
  indicatorRequestToParams (of_legacy r)
  = (of_legacy (fst (LegacyIntel.indicatorRequestToParams r)),
     snd (LegacyIntel.indicatorRequestToParams r)).
Proof.
  destruct r as [pa fi va [sn sa] pg pp].
  unfold LegacyIntel.indicatorRequestToParams, indicatorRequestToParams, of_legacy.
  simpl. destruct (String.eqb sn "") eqn:Hn; simpl;
    destruct (pg =? 0); simpl; destruct (pp =? 0); simpl; by rewrite ?Hn.
Qed.

(** The calls of the legacy client and of the split client agree. For a
    legacy client and the split client with the same fields, [do] with
    the same arguments, the authentication of the intelligence family
    being given to the split one, does the same things in the same order
    (the same log lines, the same request to the transport, the same
    reads and the same close) and hands back the same target and the same
    error, under the other field names. So do [Indicators],
    [IndicatorsJSON] and [ActorsJSON], for a legacy indicator request and
    the split request that reads a sort field without a name as no sort
    field. *)
Theorem legacy_calls_agree cl :
  (∀ W T (HW : Writer W) method rawurl params body (result : Target W T),
     split_outcome
       (LegacyIntel.do url_Parse QueryEscape StatusText cl method rawurl params body result)
     = do url_Parse QueryEscape StatusText (split_client cl) method rawurl params body
         result (IntelClient.authFunc (split_client cl)))
  ∧ (∀ unrepresentable decode r,
       let L := LegacyIntel.Indicators url_Parse QueryEscape StatusText unrepresentable
                  decode cl r in
       Indicators url_Parse QueryEscape StatusText unrepresentable decode
         (split_client cl) (of_legacy r)
       = (trace L,
          (of_legacy (fst (fst (value L))), snd (fst (value L)),
           split_error <$> snd (value L))))
  ∧ (∀ W (HW : Writer W) r (w : option W),
       let L := LegacyIntel.IndicatorsJSON url_Parse QueryEscape StatusText cl r w in
       IndicatorsJSON url_Parse QueryEscape StatusText (split_client cl) (of_legacy r) w
       = (trace L,
          (of_legacy (fst (fst (value L))), snd (fst (value L)),
           split_error <$> snd (value L))))
  ∧ (∀ W (HW : Writer W) req (w : option W),
       split_outcome (LegacyIntel.ActorsJSON url_Parse QueryEscape StatusText cl req w)
       = ActorsJSON url_Parse QueryEscape StatusText (split_client cl) req w).
Proof.
  split; [|split; [|split]].
  - intros. apply do_split.
  - intros u decode r L. subst L. unfold Indicators, LegacyIntel.Indicators.
    rewrite missing_indicator_params_split.
    destruct (LegacyIntel.missing_indicator_params r); [done|].
    rewrite indicatorRequestToParams_split.
    change (IndicatorRequest.Parameter_ (of_legacy r))
      with (LegacyIntel.IndicatorRequest.Parameter_ r).
    destruct (LegacyIntel.indicatorRequestToParams r) as [r' params]. cbn [fst snd].
    rewrite do_split_value.
    destruct (LegacyIntel.do _ _ _ cl _ _ _ _ _) as [t [res [e|]]]; done.
  - intros W HW r w L. subst L. unfold IndicatorsJSON, LegacyIntel.IndicatorsJSON.
    rewrite missing_indicator_params_split.
    destruct (LegacyIntel.missing_indicator_params r); [done|].
    rewrite indicatorRequestToParams_split.
    change (IndicatorRequest.Parameter_ (of_legacy r))
      with (LegacyIntel.IndicatorRequest.Parameter_ r).
    destruct (LegacyIntel.indicatorRequestToParams r) as [r' params]. cbn [fst snd].
    rewrite do_split_value.
    destruct (LegacyIntel.do _ _ _ cl _ _ _ _ _) as [t [res e]]. simpl.
    by rewrite app_nil_r.
  - intros W HW req w. unfold ActorsJSON, LegacyIntel.ActorsJSON.
    destruct (actorRequestToParams req) as [req' params].
    rewrite do_split_value.
    destruct (LegacyIntel.do _ _ _ cl _ _ _ _ _) as [t [res e]]. simpl.
    by rewrite app_nil_r.
Qed.

End Pipeline.

(** The options of the actors front end. *)
Lemma legacy_New_agrees_witness :
  split_built
    (Legacy.New no_client
       (legacy_option scheme_of no_client
        <$> [ErrorLog_ (Some "stderr"%string); Credentials "id" "secret"]))
  = ([], inr (mkClient "id" "secret" DefaultURL (Some "stderr"%string) None no_client)).
Proof.
  rewrite (legacy_New_agrees scheme_of no_client
             [ErrorLog_ (Some "stderr"%string); Credentials "id" "secret"] eq_refl).
  reflexivity.
Defined.

End LegacyMore.
